(** * DreamlandLogger: line buffer, ban registry, vote engine, supervisor

    A shallow embedding of the C++ sources (io/buffer.cpp, io/program.cpp,
    player_list.cpp, command_request.cpp, server_manager.cpp,
    web_server.cpp, main.cpp) together with the properties the
    specification states about them and further properties of the code.

    Conventions.
    - [std::string] is a list of bytes, [list ascii]; [std::string::npos]
      is [None] in the result of the search functions.
    - [std::unordered_map] is a [gmap], [std::unordered_set] a [gset]; the
      iteration order of the C++ containers is unspecified and is the one
      of [map_to_list] / [elements] here.
    - Mutexes, threads and console output ([std::cout], [std::cerr]) are
      left out: every function is modelled as the atomic step it performs
      while it holds its lock. *)

From stdpp Require Import gmap strings list fin_maps.
From Stdlib Require Import ZArith Lia Ascii.

Abbreviation str := (list ascii).

(** String literals of the sources. *)
Definition lit (s : string) : str := String.list_ascii_of_string s.

(* ===================================================================== *)
(** ** The part of [std::string] the sources use *)
(* ===================================================================== *)

Module Str.

Definition nl : ascii := "010"%char.
Definition tab : ascii := "009"%char.
Definition cr : ascii := "013"%char.
Definition sp : ascii := " "%char.

(** [s.substr(pos, len)] and [s.substr(pos)], for [pos <= s.size()] (every
    call site of the sources is in that range). *)
Definition substr (pos len : nat) (s : str) : str := take len (drop pos s).
Definition substr_from (pos : nat) (s : str) : str := drop pos s.

(** Search for a character in [s], the head of [s] having index [i]. *)
Fixpoint find_char_from (c : ascii) (s : str) (i : nat) : option nat :=
  match s with
  | [] => None
  | x :: t => if Ascii.eqb x c then Some i else find_char_from c t (S i)
  end.

(** [s.find(c, pos)] *)
Definition find_char (c : ascii) (pos : nat) (s : str) : option nat :=
  find_char_from c (drop pos s) pos.

(** Is [p] a prefix of [s]? *)
Fixpoint starts_with (p s : str) : bool :=
  match p, s with
  | [], _ => true
  | _ :: _, [] => false
  | a :: p', b :: s' => Ascii.eqb a b && starts_with p' s'
  end.

Fixpoint find_from (p s : str) (i : nat) : option nat :=
  if starts_with p s then Some i
  else match s with
       | [] => None
       | _ :: t => find_from p t (S i)
       end.

(** [s.find(p, pos)]; [npos] when [pos > s.size()]. *)
Definition find (p : str) (pos : nat) (s : str) : option nat :=
  if length s <? pos then None else find_from p (drop pos s) pos.

(** [s.rfind(p, pos)]: the last occurrence that starts at an index [<= pos]. *)
Fixpoint rfind_from (p s : str) (i : nat) (pos : nat) : option nat :=
  let here := if starts_with p s && (i <=? pos) then Some i else None in
  match s with
  | [] => here
  | _ :: t => match rfind_from p t (S i) pos with
              | Some k => Some k
              | None => here
              end
  end.
Definition rfind (p : str) (pos : nat) (s : str) : option nat :=
  rfind_from p s 0 pos.

(** The character class [" \t\r\n"] of the three [trim] helpers. *)
Definition is_trim_ws (c : ascii) : bool :=
  Ascii.eqb c sp || Ascii.eqb c tab || Ascii.eqb c cr || Ascii.eqb c nl.

(** [s.find_first_not_of(" \t\r\n")] *)
Fixpoint find_first_not_ws_from (s : str) (i : nat) : option nat :=
  match s with
  | [] => None
  | x :: t => if is_trim_ws x then find_first_not_ws_from t (S i) else Some i
  end.
Definition find_first_not_ws (s : str) : option nat := find_first_not_ws_from s 0.

(** [s.find_last_not_of(" \t\r\n")] *)
Fixpoint find_last_not_ws_from (s : str) (i : nat) : option nat :=
  match s with
  | [] => None
  | x :: t => match find_last_not_ws_from t (S i) with
              | Some k => Some k
              | None => if is_trim_ws x then None else Some i
              end
  end.
Definition find_last_not_ws (s : str) : option nat := find_last_not_ws_from s 0.

(** [trim], the same static helper in three translation units. *)
Definition trim (s : str) : str :=
  match find_first_not_ws s with
  | None => []
  | Some start =>
      match find_last_not_ws s with
      | None => []   (* unreachable: a first such character is also a last *)
      | Some e => substr start (e - start + 1) s
      end
  end.

(** [::tolower] in the "C" locale: only 'A'..'Z' change. *)
Definition tolower (c : ascii) : ascii :=
  let n := nat_of_ascii c in
  if (65 <=? n) && (n <=? 90) then ascii_of_nat (n + 32) else c.

Definition to_lower (s : str) : str := map tolower s.

(** [remove_spaces]: drops blanks and tabs, nothing else. *)
Definition remove_spaces (s : str) : str :=
  filter (fun c => c <> sp /\ c <> tab) s.

(** Strip the trailing newlines: [while (!s.empty() && s.back() == '\n') s.pop_back()]. *)
Fixpoint strip_trailing_nl (s : str) : str :=
  match s with
  | [] => []
  | c :: t => match strip_trailing_nl t with
              | [] => if Ascii.eqb c nl then [] else [c]
              | r => c :: r
              end
  end.

(** [std::getline] until it fails: the lines of a stream, the final one
    being kept when it is not empty and has no terminator. *)
Fixpoint getlines_aux (cur : str) (s : str) : list str :=
  match s with
  | [] => match cur with [] => [] | _ => [rev cur] end
  | c :: t => if Ascii.eqb c nl then rev cur :: getlines_aux [] t
              else getlines_aux (c :: cur) t
  end.
Definition getlines (s : str) : list str := getlines_aux [] s.

End Str.

(* ===================================================================== *)
(** ** io/buffer.cpp: [dl::Buffer] *)
(* ===================================================================== *)

Module Buffer.

(** [uint64_t] sizes are natural numbers: a [std::string] never reaches
    [2^64] bytes, so no operation on [buffer_ptr_] wraps. *)
Record t := mk {
  MAX_DELETED_BUFFER_SIZE : nat;
  buffer_ : str;
  buffer_ptr_ : nat
}.

(** [Buffer(max_deleted_buffer_size)]; the default constructor is [make 4096]. *)
Definition make (max_deleted_buffer_size : nat) : t :=
  mk max_deleted_buffer_size [] 0.

(** [append(const std::string&)]; the [(data, len)] overload has the same
    effect on the bytes it is given and returns early on no bytes. *)
Definition append (data : str) (b : t) : t :=
  mk (MAX_DELETED_BUFFER_SIZE b) (buffer_ b ++ data) (buffer_ptr_ b).

Definition read_line (b : t) : str * t :=
  if length (buffer_ b) <=? buffer_ptr_ b then ([], b)
  else
    match Str.find_char Str.nl (buffer_ptr_ b) (buffer_ b) with
    | None => ([], b)
    | Some newline_pos =>
        let result := Str.substr (buffer_ptr_ b) (newline_pos - buffer_ptr_ b + 1) (buffer_ b) in
        let ptr := newline_pos + 1 in
        if MAX_DELETED_BUFFER_SIZE b <=? ptr
        then (result, mk (MAX_DELETED_BUFFER_SIZE b) (Str.substr_from ptr (buffer_ b)) 0)
        else (result, mk (MAX_DELETED_BUFFER_SIZE b) (buffer_ b) ptr)
    end.

(** The bytes not yet handed out. *)
Definition unread (b : t) : str := drop (buffer_ptr_ b) (buffer_ b).

(** A client's operations, and the run of a sequence of them: the final
    buffer and the results of the [read_line] calls, in call order. *)
Inductive op := Append (data : str) | ReadLine.

Fixpoint run (ops : list op) (b : t) : t * list str :=
  match ops with
  | [] => (b, [])
  | Append data :: rest => run rest (append data b)
  | ReadLine :: rest =>
      let '(line, b1) := read_line b in
      let '(b2, lines) := run rest b1 in
      (b2, line :: lines)
  end.

(** Everything appended by a sequence of operations. *)
Fixpoint appended (ops : list op) : str :=
  match ops with
  | [] => []
  | Append data :: rest => data ++ appended rest
  | ReadLine :: rest => appended rest
  end.

(** Split at the last newline: the bytes up to and including it, and the
    bytes after it (everything, when there is no newline). *)
Fixpoint split_last_nl (s : str) : str * str :=
  match s with
  | [] => ([], [])
  | c :: t =>
      match split_last_nl t with
      | ([], r) => if Ascii.eqb c Str.nl then ([c], r) else ([], c :: r)
      | (p, r) => (c :: p, r)
      end
  end.

(** A complete line: one newline, at the end. *)
Definition is_line (l : str) : Prop :=
  exists body, l = body ++ [Str.nl] /\ Str.nl ∉ body.

End Buffer.

(* ===================================================================== *)
(** ** [std::chrono] and the C library's calendar *)
(* ===================================================================== *)

Module Chrono.
Open Scope Z_scope.

(** [std::chrono::system_clock::time_point] of the GNU toolchain the
    Makefile names: a signed 64-bit count of nanoseconds since the epoch.
    [std::chrono::hours] holds a signed 64-bit count of hours. Arithmetic
    that leaves the 64-bit range wraps. *)
Definition wrap64 (z : Z) : Z := (z + 2 ^ 63) mod 2 ^ 64 - 2 ^ 63.

Definition time_point_max : Z := 2 ^ 63 - 1.   (* time_point::max() *)
Definition uint64_max : Z := 2 ^ 64 - 1.
Definition ns_per_second : Z := 1000000000.
Definition ns_per_hour : Z := 3600 * ns_per_second.

(** [std::chrono::hours(h)] for [h : uint64_t]: the count is converted to
    the signed representation. *)
Definition hours (h : Z) : Z := wrap64 h.

(** [tp + d] for [d : std::chrono::hours]: [d] is converted to
    nanoseconds and added. *)
Definition plus_hours (tp d : Z) : Z := wrap64 (tp + wrap64 (d * ns_per_hour)).

(** [system_clock::to_time_t]: whole seconds, truncated towards zero;
    [system_clock::from_time_t]. *)
Definition to_time_t (tp : Z) : Z := Z.quot tp ns_per_second.
Definition from_time_t (t : Z) : Z := wrap64 (t * ns_per_second).

(** The system clock as the sequence of values its successive readings
    return; [now] takes the next one. *)
Record clock := mk_clock { readings : nat -> Z; taken : nat }.

Definition now (c : clock) : Z * clock :=
  (readings c (taken c), mk_clock (readings c) (S (taken c))).

(** The calendar functions of the C library, which are not part of the
    repository and depend on the time zone of the process:
    - [put_time_local t] is [localtime_r] followed by
      [std::put_time(.., "%Y-%m-%d %H:%M:%S")] for the [time_t] value [t];
    - [get_time_local s] is [std::get_time] with the same format followed
      by [mktime] (whatever [mktime] makes of a text that does not parse);
    - [sscanf_hms s] is [sscanf(s, "%d:%d:%d", ..)] when it converts three
      numbers;
    - [today_at t h m s] is [localtime_r] of [t] with the hour, minute and
      second fields replaced, followed by [mktime]. *)
Class Libc := {
  put_time_local : Z -> str;
  get_time_local : str -> Z;
  sscanf_hms : str -> option (Z * Z * Z);
  today_at : Z -> Z -> Z -> Z -> Z
}.

(** *** An instance: the "C" locale in the UTC time zone

    Used to evaluate the model on concrete inputs. Days are counted with
    the proleptic Gregorian calendar. *)

Definition digit (n : Z) : ascii := ascii_of_nat (Z.to_nat (48 + n mod 10)).

Definition two_digits (n : Z) : str := [digit (n / 10); digit n].
Definition four_digits (n : Z) : str :=
  [digit (n / 1000); digit (n / 100); digit (n / 10); digit n].

(** Year, month and day of a day number (days since 1970-01-01). *)
Definition civil_from_days (z0 : Z) : Z * Z * Z :=
  let z := z0 + 719468 in
  let era := z / 146097 in
  let doe := z - era * 146097 in
  let yoe := (doe - doe / 1460 + doe / 36524 - doe / 146096) / 365 in
  let doy := doe - (365 * yoe + yoe / 4 - yoe / 100) in
  let mp := (5 * doy + 2) / 153 in
  let d := doy - (153 * mp + 2) / 5 + 1 in
  let m := if mp <? 10 then mp + 3 else mp - 9 in
  let y := yoe + era * 400 + (if m <=? 2 then 1 else 0) in
  (y, m, d).

Definition days_from_civil (y0 m d : Z) : Z :=
  let y := if m <=? 2 then y0 - 1 else y0 in
  let era := y / 400 in
  let yoe := y - era * 400 in
  let doy := (153 * (if 2 <? m then m - 3 else m + 9) + 2) / 5 + d - 1 in
  let doe := yoe * 365 + yoe / 4 - yoe / 100 + doy in
  era * 146097 + doe - 719468.

Definition utc_put_time (t : Z) : str :=
  let '(y, m, d) := civil_from_days (t / 86400) in
  let s := t mod 86400 in
  four_digits y ++ lit "-" ++ two_digits m ++ lit "-" ++ two_digits d ++ lit " " ++
  two_digits (s / 3600) ++ lit ":" ++ two_digits (s mod 3600 / 60) ++ lit ":" ++
  two_digits (s mod 60).

Definition digit_value (c : ascii) : option Z :=
  let n := Z.of_nat (nat_of_ascii c) in
  if (48 <=? n) && (n <=? 57) then Some (n - 48) else None.

(** A run of decimal digits, all of [s]. *)
Fixpoint number_acc (acc : Z) (s : str) : option Z :=
  match s with
  | [] => Some acc
  | c :: t => match digit_value c with
              | Some v => number_acc (acc * 10 + v) t
              | None => None
              end
  end.
Definition number (s : str) : option Z :=
  match s with [] => None | _ => number_acc 0 s end.

(** Text of the shape [dddd-dd-dd dd:dd:dd]; [-1], the error value of
    [mktime], for anything else. *)
Definition utc_get_time (s : str) : Z :=
  match number (take 4 s), number (take 2 (drop 5 s)), number (take 2 (drop 8 s)),
        number (take 2 (drop 11 s)), number (take 2 (drop 14 s)),
        number (take 2 (drop 17 s)) with
  | Some y, Some m, Some d, Some hh, Some mm, Some ss =>
      if (length s =? 19)%nat
      then days_from_civil y m d * 86400 + hh * 3600 + mm * 60 + ss
      else -1
  | _, _, _, _, _, _ => -1
  end.

(** Three numbers separated by colons, the last one ending at the first
    character that is not a digit. *)
Definition split_colon (s : str) : str * str :=
  match Str.find_char ":" 0 s with
  | Some i => (take i s, drop (S i) s)
  | None => (s, [])
  end.

Fixpoint leading_digits (s : str) : str :=
  match s with
  | c :: t => match digit_value c with Some _ => c :: leading_digits t | None => [] end
  | [] => []
  end.

Definition utc_sscanf_hms (s : str) : option (Z * Z * Z) :=
  let '(h, r1) := split_colon s in
  let '(m, r2) := split_colon r1 in
  match number h, number m, number (leading_digits r2) with
  | Some h, Some m, Some s => Some (h, m, s)
  | _, _, _ => None
  end.

Definition utc_today_at (t h m s : Z) : Z :=
  t / 86400 * 86400 + h * 3600 + m * 60 + s.

Definition utc : Libc := {|
  put_time_local := utc_put_time;
  get_time_local := utc_get_time;
  sscanf_hms := utc_sscanf_hms;
  today_at := utc_today_at
|}.

End Chrono.

(* ===================================================================== *)
(** ** io/program.cpp: the child's standard input *)
(* ===================================================================== *)

Module Program.

(** Of [dl::Program], the state [send_string] depends on: the [running_]
    flag, the write end [stdin_pipe_[1]] of the pipe, and, standing for
    the pipe itself, the bytes written to the child's standard input. *)
Record t := mk {
  running_ : bool;
  stdin_pipe_w : Z;
  stdin_written : str
}.

(** [send_string]: refused when the child is not running or the pipe is
    closed; otherwise the [write] loop runs until every byte is written
    (an interrupted [write] is retried; a [write] that fails for another
    reason is outside the model). *)
Definition send_string (data : str) (p : t) : bool * t :=
  if negb (running_ p) || (stdin_pipe_w p =? -1)%Z then (false, p)
  else (true, mk (running_ p) (stdin_pipe_w p) (stdin_written p ++ data)).

Definition is_running (p : t) : bool := running_ p.

End Program.

(** What lies outside the objects and is shared by them: the system
    clock, the child process, and the two list files the ban registry
    writes (absent until first written). *)
Record World := mk_world {
  w_clock : Chrono.clock;
  w_child : Program.t;
  w_player_file : option str;
  w_banned_file : option str
}.

Definition world_now (w : World) : Z * World :=
  let '(t, c) := Chrono.now (w_clock w) in
  (t, mk_world c (w_child w) (w_player_file w) (w_banned_file w)).

Definition world_send (data : str) (w : World) : bool * World :=
  let '(ok, p) := Program.send_string data (w_child w) in
  (ok, mk_world (w_clock w) p (w_player_file w) (w_banned_file w)).


(* ===================================================================== *)
(** ** player_list.cpp: the ban registry and the log classifier *)
(* ===================================================================== *)

Module PlayerList.
Import Str.

Record OnlinePlayerInfo := mk_online {
  o_name : str;
  join_time : Z;
  o_client_info : str
}.

Record BannedPlayerInfo := mk_banned {
  name : str;
  reason : str;
  ban_time : Z;
  unban_time : Z;
  is_permanent : bool
}.

(** [ban_hours] is a [uint64_t]: a value in [0, 2^64). *)
Record ForbiddenCommand := mk_forbidden {
  command : str;
  ban_hours : Z
}.

Inductive LogEventType :=
  NONE | PLAYER_JOIN | PLAYER_LEAVE | PLAYER_COMMAND | PLAYER_CHAT.

Record LogEvent := mk_event {
  type : LogEventType;
  player_name : str;
  content : str;
  client_info : str;
  timestamp : Z
}.

(** The members of [dl::PlayerList] that hold data. The three file names
    and the reference to the [Program] are fixed at construction; the
    files and the child they name are in the [World]. *)
Record t := mk {
  all_players_ : gset str;
  online_players_ : gmap str OnlinePlayerInfo;
  banned_players_ : gmap str BannedPlayerInfo;
  forbidden_commands_ : list ForbiddenCommand
}.

Definition ESC : ascii := "027"%char.

Definition is_digit (c : ascii) : bool :=
  let n := nat_of_ascii c in (48 <=? n) && (n <=? 57).
Definition is_letter (c : ascii) : bool :=
  let n := nat_of_ascii c in
  ((65 <=? n) && (n <=? 90)) || ((97 <=? n) && (n <=? 122)).

(** The inner loops of [remove_ansi]: skip digits and semicolons. *)
Fixpoint skip_params (s : str) : str :=
  match s with
  | c :: t => if is_digit c || Ascii.eqb c ";" then skip_params t else s
  | [] => []
  end.

(** [remove_ansi]; the index [i] of the source is the start of the list,
    and every round of its loop moves on by at least one character, so
    [length s] rounds are enough. *)
Fixpoint remove_ansi_loop (rounds : nat) (s : str) : str :=
  match rounds, s with
  | O, _ => []
  | _, [] => []
  | S rounds, c :: rest =>
      if Ascii.eqb c ESC then
        match rest with
        | b :: rest' =>
            if Ascii.eqb b "[" then
              match skip_params rest' with
              | l :: r => if is_letter l then remove_ansi_loop rounds r
                          else remove_ansi_loop rounds (l :: r)
              | [] => []
              end
            else remove_ansi_loop rounds rest
        | [] => remove_ansi_loop rounds rest
        end
      else if Ascii.eqb c "[" then
        match rest with
        | d :: _ =>
            if is_digit d then
              match skip_params rest with
              | m :: r => if Ascii.eqb m "m" then remove_ansi_loop rounds r
                          else c :: remove_ansi_loop rounds rest
              | [] => c :: remove_ansi_loop rounds rest
              end
            else c :: remove_ansi_loop rounds rest
        | [] => c :: remove_ansi_loop rounds rest
        end
      else c :: remove_ansi_loop rounds rest
  end.

Definition remove_ansi (s : str) : str := remove_ansi_loop (length s) s.

Definition sentinel_text : str := lit "0000-00-00 00:00:00".

Definition str_eqb (a b : str) : bool := bool_decide (a = b).

(** [s.find(p) != npos] *)
Definition contains (p s : str) : bool :=
  match find p 0 s with Some _ => true | None => false end.

Section WithLibc.
Context {libc : Chrono.Libc}.

Definition time_to_string (tp : Z) (permanent : bool) : str :=
  if permanent then sentinel_text
  else Chrono.put_time_local (Chrono.to_time_t tp).

Definition string_to_time (s : str) : Z :=
  if str_eqb s sentinel_text then Chrono.time_point_max
  else Chrono.from_time_t (Chrono.get_time_local s).

Definition parse_log_time (line : str) (w : World) : Z * World :=
  let '(now, w) := world_now w in
  match find_char "[" 0 line with
  | None => (now, w)
  | Some start =>
      match find_char " " start line with
      | None => (now, w)
      | Some e =>
          let time_str := substr (start + 1) (e - start - 1) line in
          match Chrono.sscanf_hms time_str with
          | Some (h, m, s) =>
              (Chrono.from_time_t (Chrono.today_at (Chrono.to_time_t now) h m s), w)
          | None => (now, w)
          end
      end
  end.

(** *** The two list files *)

Definition players_text (pl : t) : str :=
  concat (map (fun p => p ++ [nl]) (elements (all_players_ pl))).

Definition banned_line (info : BannedPlayerInfo) : str :=
  name info ++ lit "|" ++ reason info ++ lit "|" ++
  time_to_string (ban_time info) false ++ lit "|" ++
  time_to_string (unban_time info) (is_permanent info) ++ [nl].

Definition banned_header : str := lit "# name|reason|ban_time|unban_time".

Definition banned_text (pl : t) : str :=
  banned_header ++ [nl] ++
  concat (map (fun kv => banned_line kv.2) (map_to_list (banned_players_ pl))).

(** [save_files]: both files are rewritten from the maps. *)
Definition save_files (pl : t) (w : World) : World :=
  mk_world (w_clock w) (w_child w) (Some (players_text pl)) (Some (banned_text pl)).

(** One line of the ban file. When a separator is missing the searches
    that follow it find none either, so the line is skipped as soon as
    one of [p1], [p2], [p3] is [npos]. *)
Definition parse_banned_line (raw : str) : option BannedPlayerInfo :=
  let line := trim raw in
  match line with
  | [] => None
  | c :: _ =>
      if Ascii.eqb c "#" then None
      else
        match find_char "|" 0 line with
        | None => None
        | Some p1 =>
            match find_char "|" (p1 + 1) line with
            | None => None
            | Some p2 =>
                match find_char "|" (p2 + 1) line with
                | None => None
                | Some p3 =>
                    let unban_str := substr_from (p3 + 1) line in
                    Some (mk_banned
                            (substr 0 p1 line)
                            (substr (p1 + 1) (p2 - p1 - 1) line)
                            (string_to_time (substr (p2 + 1) (p3 - p2 - 1) line))
                            (string_to_time unban_str)
                            (str_eqb unban_str sentinel_text))
                end
            end
        end
  end.

Definition load_players (text : str) (known : gset str) : gset str :=
  foldl (fun acc raw => match trim raw with
                        | [] => acc
                        | line => {[line]} ∪ acc
                        end) known (getlines text).

Definition load_banned (text : str) (banned : gmap str BannedPlayerInfo)
  : gmap str BannedPlayerInfo :=
  foldl (fun acc raw => match parse_banned_line raw with
                        | Some info => <[name info := info]> acc
                        | None => acc
                        end) banned (getlines text).

(** [load_files], for the player file and the ban file: a file that is
    absent is created empty. The rules of the forbidden-command file are
    taken as already read into [forbidden_commands_] (its parse, a stream
    extraction of a word and a number per line, is not modelled). *)
Definition load_files (pl : t) (w : World) : t * World :=
  let players := match w_player_file w with
                 | Some text => load_players text (all_players_ pl)
                 | None => all_players_ pl
                 end in
  let banned := match w_banned_file w with
                | Some text => load_banned text (banned_players_ pl)
                | None => banned_players_ pl
                end in
  (mk players (online_players_ pl) banned (forbidden_commands_ pl),
   mk_world (w_clock w) (w_child w)
     (Some (default [] (w_player_file w))) (Some (default [] (w_banned_file w)))).

(** The constructor: empty containers, then [load_files]. *)
Definition create (rules : list ForbiddenCommand) (w : World) : t * World :=
  load_files (mk ∅ ∅ ∅ rules) w.

(** *** Ban and pardon *)

Definition ban (player reason : str) (banned_hours : Z) (pl : t) (w : World)
  : bool * t * World :=
  let '(now, w1) := world_now w in
  let permanent := (banned_hours =? 0)%Z in
  let unban := if permanent then Chrono.time_point_max
               else Chrono.plus_hours now (Chrono.hours banned_hours) in
  let info := mk_banned player reason now unban permanent in
  let pl1 := mk (all_players_ pl) (online_players_ pl)
                (<[player := info]> (banned_players_ pl)) (forbidden_commands_ pl) in
  let '(_, w2) := world_send (lit "ban " ++ player ++ lit " " ++ reason ++ [nl]) w1 in
  (true, pl1, save_files pl1 w2).

Definition pardon (player : str) (pl : t) (w : World) : bool * t * World :=
  match banned_players_ pl !! player with
  | None => (false, pl, w)
  | Some _ =>
      let pl1 := mk (all_players_ pl) (online_players_ pl)
                    (delete player (banned_players_ pl)) (forbidden_commands_ pl) in
      let '(_, w1) := world_send (lit "pardon " ++ player ++ [nl]) w in
      (true, pl1, save_files pl1 w1)
  end.

(** *** [process_log_line] *)

Definition keyword (fc : ForbiddenCommand) : str :=
  to_lower (remove_spaces (command fc)).

(** The text of a ban issued for a forbidden action: what was done, until
    when, and where to appeal. *)
Definition notice (opening : str) (what : str) (closing : str)
    (fc : ForbiddenCommand) (time_str : str) : str :=
  opening ++ what ++ closing ++
  (if (ban_hours fc =? 0)%Z then lit "永久封禁。"
   else lit "封禁至" ++ time_str ++ lit "。") ++
  lit "有异议请在服务器管理网站提出解封申请。".

(** The body of both rule loops, from the first rule [fc] that passes the
    loop's test: compose the notice, ban, leave the loop. *)
Definition ban_for_rule (opening what closing : str) (player : str)
    (fc : ForbiddenCommand) (pl : t) (w : World) : t * World :=
  let '(now, w1) := world_now w in
  let unban_time := Chrono.plus_hours now (Chrono.hours (ban_hours fc)) in
  let time_str := time_to_string unban_time false in
  let '(_, pl1, w2) :=
    ban player (notice opening what closing fc time_str) (ban_hours fc) pl w1 in
  (pl1, w2).

(** The search of the known players for the one that occurs first in the
    line; [None] as position is [npos], which every position is below. *)
Definition earliest_player (content : str) (players : list str) : str * option nat :=
  foldl (fun '(found, earliest) player =>
           match find player 0 content with
           | Some player_pos =>
               if match earliest with
                  | None => true
                  | Some e => player_pos <? e
                  end
               then (player, Some player_pos)
               else (found, earliest)
           | None => (found, earliest)
           end) ([], None) players.

Definition is_empty (s : str) : bool := match s with [] => true | _ => false end.

Definition process_log_line (log_line : str) (pl : t) (w : World)
  : LogEvent * t * World :=
  let clean_line := remove_ansi log_line in
  let '(ts, w) := parse_log_time clean_line w in
  let none := mk_event NONE [] [] [] ts in
  match find (lit "]: ") 0 clean_line with
  | None => (none, pl, w)
  | Some content_start =>
  let content := substr_from (content_start + 3) clean_line in
  let joined_with :=
    match find (lit " joined with ") 0 content with
    | None => None
    | Some pos =>
        match rfind (lit "Player ") pos content with
        | None => None
        | Some player_pos =>
            let name_start := player_pos + 7 in
            (* [pos - name_start] wraps below zero to a length no string has *)
            let who := trim (if name_start <=? pos
                             then substr name_start (pos - name_start) content
                             else substr_from name_start content) in
            let client := strip_trailing_nl (trim (substr_from (pos + 13) content)) in
            Some (mk_event PLAYER_JOIN who [] client ts)
        end
    end in
  match joined_with with
  | Some event =>
      (event,
       mk ({[player_name event]} ∪ all_players_ pl)
          (<[player_name event :=
               mk_online (player_name event) ts (client_info event)]> (online_players_ pl))
          (banned_players_ pl) (forbidden_commands_ pl),
       w)
  | None =>
  match find (lit " joined the game") 0 content with
  | Some pos =>
      let who := trim (substr 0 pos content) in
      (mk_event PLAYER_JOIN who [] (lit "vanilla") ts,
       mk ({[who]} ∪ all_players_ pl)
          (<[who := mk_online who ts (lit "vanilla")]> (online_players_ pl))
          (banned_players_ pl) (forbidden_commands_ pl),
       w)
  | None =>
  match find (lit " left the game") 0 content with
  | Some pos =>
      let who := trim (substr 0 pos content) in
      (mk_event PLAYER_LEAVE who [] [] ts,
       mk (all_players_ pl) (delete who (online_players_ pl))
          (banned_players_ pl) (forbidden_commands_ pl),
       w)
  | None =>
  match find (lit " issued server command: /") 0 content with
  | Some pos =>
      let who := trim (substr 0 pos content) in
      let what := strip_trailing_nl (substr_from (pos + 25) content) in
      let match_str := to_lower (remove_spaces content) in
      let '(pl1, w1) :=
        match List.find (fun fc => contains (keyword fc) match_str)
                        (forbidden_commands_ pl) with
        | Some fc =>
            ban_for_rule (lit "执行被禁止的指令: /") what (lit ", 将被") who fc pl w
        | None => (pl, w)
        end in
      (mk_event PLAYER_COMMAND who (lit "/" ++ what) [] ts, pl1, w1)
  | None =>
  let bracket :=
    match content with
    | c :: _ =>
        if Ascii.eqb c "[" then
          match find_char "]" 0 content, find_char ":" 0 content with
          | Some end_bracket, Some colon_pos =>
              if colon_pos <? end_bracket then Some end_bracket else None
          | _, _ => None
          end
        else None
    | [] => None
    end in
  match bracket with
  | Some end_bracket =>
      let bracket_content := substr 1 (end_bracket - 1) content in
      let match_str := to_lower (remove_spaces bracket_content) in
      let found_player := (earliest_player content (elements (all_players_ pl))).1 in
      let what := strip_trailing_nl bracket_content in
      let '(pl1, w1) :=
        match List.find (fun fc => contains (keyword fc) match_str
                                   && negb (is_empty found_player))
                        (forbidden_commands_ pl) with
        | Some fc =>
            ban_for_rule (lit "执行被禁止的操作: [") what (lit "], 将被") found_player fc pl w
        | None => (pl, w)
        end in
      (mk_event PLAYER_COMMAND found_player (lit "[" ++ what ++ lit "]") [] ts, pl1, w1)
  | None =>
  let chat :=
    match content with
    | c :: _ =>
        if Ascii.eqb c "<" then
          match find_char ">" 0 content with
          | Some e =>
              Some (mk_event PLAYER_CHAT (substr 1 (e - 1) content)
                      (strip_trailing_nl (trim (substr_from (e + 1) content))) [] ts)
          | None => None
          end
        else None
    | [] => None
    end in
  match chat with
  | Some event => (event, pl, w)
  | None => (none, pl, w)
  end end end end end end end.

(** *** Queries *)

Definition is_banned (player : str) (pl : t) : bool :=
  bool_decide (is_Some (banned_players_ pl !! player)).

Definition is_online (player : str) (pl : t) : bool :=
  bool_decide (is_Some (online_players_ pl !! player)).

Definition list_player (pl : t) : list str := elements (all_players_ pl).

Definition list_banned_player (pl : t) : list str :=
  (map_to_list (banned_players_ pl)).*1.

Definition list_banned_player_info (pl : t) : list BannedPlayerInfo :=
  (map_to_list (banned_players_ pl)).*2.

Definition list_online_player (pl : t) : list OnlinePlayerInfo :=
  (map_to_list (online_players_ pl)).*2.

(** *** One round of [ban_checker_thread_func]

    The records that are due at one reading of the clock are collected
    under the lock; then each is pardoned. *)

Definition due (now : Z) (info : BannedPlayerInfo) : bool :=
  negb (is_permanent info) && (unban_time info <=? now)%Z.

Definition pardon_each (players : list str) (pl : t) (w : World) : t * World :=
  foldl (fun '(pl, w) player => let '(_, pl1, w1) := pardon player pl w in (pl1, w1))
        (pl, w) players.

Definition ban_checker_round (pl : t) (w : World) : t * World :=
  let '(now, w1) := world_now w in
  let to_unban :=
    (List.filter (fun kv => due now kv.2) (map_to_list (banned_players_ pl))).*1 in
  pardon_each to_unban pl w1.

End WithLibc.

End PlayerList.


(* ===================================================================== *)
(** ** command_request.cpp: the vote engine *)
(* ===================================================================== *)

Module CommandRequest.
Import Str.

Record RequestInfo := mk_request {
  id : str;
  applicant : str;
  command : str;
  reason : str;
  image_path : str;
  voted_ips : gset str;
  created_at : Z;
  executed_at : Z;
  executed : bool
}.

Definition vote_count (r : RequestInfo) : nat := size (voted_ips r).

(** [CommandExecuteCallback]: what a call with a command and an applicant
    does to the world; [None] is an empty [std::function]. *)
Definition CommandExecuteCallback : Type := option (str -> str -> World -> World).

(** The members of [dl::CommandRequestManager] that hold data. *)
Record t := mk {
  vote_threshold_ : nat;
  execute_callback_ : CommandExecuteCallback;
  requests_ : gmap str RequestInfo
}.

Definition set_requests (m : t) (rs : gmap str RequestInfo) : t :=
  mk (vote_threshold_ m) (execute_callback_ m) rs.

Definition is_self_pardon (applicant command : str) : bool :=
  let cmd_lower := to_lower (remove_spaces command) in
  let applicant_lower := to_lower applicant in
  let cmd_lower :=
    match cmd_lower with
    | c :: _ => if Ascii.eqb c "/" then substr_from 1 cmd_lower else cmd_lower
    | [] => cmd_lower
    end in
  match find (lit "pardon") 0 cmd_lower with
  | Some O =>
      let rest := substr_from 6 cmd_lower in
      match find applicant_lower 0 rest with
      | Some _ => true
      | None => false
      end
  | _ => false
  end.

Definition add_vote (ip : str) (r : RequestInfo) : RequestInfo :=
  mk_request (id r) (applicant r) (command r) (reason r) (image_path r)
             ({[ip]} ∪ voted_ips r) (created_at r) (executed_at r) (executed r).

(** [vote]: the status code and the manager afterwards. *)
Definition vote (request_id ip : str) (m : t) : Z * t :=
  match requests_ m !! request_id with
  | None => (2%Z, m)
  | Some r =>
      if executed r then (3%Z, m)
      else if bool_decide (ip ∈ voted_ips r) then (1%Z, m)
      else (0%Z, set_requests m (<[request_id := add_vote ip r]> (requests_ m)))
  end.

(** The test of the executor's loop, and what it does to a request that
    passes. *)
Definition ready (threshold : nat) (r : RequestInfo) : bool :=
  negb (executed r) && (threshold <=? vote_count r).

Definition mark_executed (now : Z) (r : RequestInfo) : RequestInfo :=
  mk_request (id r) (applicant r) (command r) (reason r) (image_path r)
             (voted_ips r) (created_at r) now true.

(** The locked loop of [check_and_execute] over the entries of
    [requests_], in container order: the entries as the loop leaves them,
    the copies pushed to [to_execute], and the world (the clock is read
    once for each request that passes). *)
Fixpoint sweep (threshold : nat) (entries : list (str * RequestInfo)) (w : World)
  : list (str * RequestInfo) * list RequestInfo * World :=
  match entries with
  | [] => ([], [], w)
  | (k, r) :: rest =>
      if ready threshold r then
        let '(now, w1) := world_now w in
        let r1 := mark_executed now r in
        let '(entries1, to_execute, w2) := sweep threshold rest w1 in
        ((k, r1) :: entries1, r1 :: to_execute, w2)
      else
        let '(entries1, to_execute, w2) := sweep threshold rest w in
        ((k, r) :: entries1, to_execute, w2)
  end.

(** [check_and_execute]: the manager afterwards, the arguments of the
    callback's invocations in order, and the world afterwards. The
    rewrite of the data file that follows is not modelled. *)
Definition check_and_execute (m : t) (w : World)
  : t * list (str * str) * World :=
  let '(entries, to_execute, w1) :=
    sweep (vote_threshold_ m) (map_to_list (requests_ m)) w in
  let m1 := set_requests m (list_to_map entries) in
  match execute_callback_ m with
  | Some callback =>
      (m1,
       map (fun r => (command r, applicant r)) to_execute,
       foldl (fun w r => callback (command r) (applicant r) w) w1 to_execute)
  | None => (m1, [], w1)
  end.


(** [get_request]: the copy handed out, if the request exists. *)
Definition get_request (request_id : str) (m : t) : option RequestInfo :=
  requests_ m !! request_id.

(** Numbers in base sixteen as a stream in [std::hex] mode prints a
    64-bit value: lower case, no leading zeros. *)
Definition hex_digit (n : Z) : ascii :=
  if (n <? 10)%Z then ascii_of_nat (Z.to_nat (48 + n))
  else ascii_of_nat (Z.to_nat (87 + n)).

Fixpoint hex_digits (count : nat) (n : Z) : str :=
  match count with
  | O => []
  | S count => hex_digits count (n / 16) ++ [hex_digit (n mod 16)]
  end.

Fixpoint drop_zeros (s : str) : str :=
  match s with
  | c :: (_ :: _) as t => if Ascii.eqb c "0" then drop_zeros t else s
  | _ => s
  end.

Definition to_hex (n : Z) : str := drop_zeros (hex_digits 16 (n mod 2 ^ 64)).

(** [generate_id]: the clock in milliseconds and the number drawn from
    [uniform_int_distribution<>(1000, 9999)], here [drawn]; the stream
    stays in [std::hex] mode, so both are printed in base sixteen. *)
Definition generate_id (drawn : Z) (w : World) : str * World :=
  let '(now, w1) := world_now w in
  let ms := Z.quot now 1000000 in
  (to_hex ms ++ lit "-" ++ to_hex drawn, w1).

(** [create_request]. [drawn] is the random number of [generate_id] and
    [opened] tells whether the image file could be opened for writing.
    The result is the new id, the image file written (name and bytes), the
    manager and the world. The rewrite of the data file is not modelled. *)
Definition create_request (drawn : Z) (opened : bool)
    (applicant command reason image_data image_ext : str) (m : t) (w : World)
  : str * option (str * str) * t * World :=
  let '(new_id, w1) := generate_id drawn w in
  let '(created, w2) := world_now w1 in
  let stored :=
    match image_data with
    | [] => None
    | _ => if opened then Some (new_id ++ image_ext, image_data) else None
    end in
  let info := mk_request new_id (trim applicant) (trim command) (trim reason)
                (match stored with Some (filename, _) => filename | None => [] end)
                ∅ created 0 false in
  (new_id, stored, set_requests m (<[new_id := info]> (requests_ m)), w2).

(** [cleanup_expired]: the hours since execution are the difference of
    the two times, in whole hours towards zero. The requests to remove
    are noted by their [id] field and erased by it; the result lists the
    images handed to [delete_image]. *)
Definition elapsed_hours (now executed_at : Z) : Z :=
  Z.quot (Chrono.wrap64 (now - executed_at)) Chrono.ns_per_hour.

Definition expired (now : Z) (r : RequestInfo) : bool :=
  executed r && (24 <=? elapsed_hours now (executed_at r))%Z.

Definition cleanup_expired (m : t) (w : World) : t * list str * World :=
  let '(now, w1) := world_now w in
  let old := List.filter (fun kv => expired now kv.2) (map_to_list (requests_ m)) in
  let to_remove := map (fun kv => id kv.2) old in
  let images_to_delete :=
    List.filter (fun p => match p with [] => false | _ => true end)
                (map (fun kv => image_path kv.2) old) in
  (set_requests m (foldl (fun acc i => delete i acc) (requests_ m) to_remove),
   images_to_delete, w1).

End CommandRequest.

(* ===================================================================== *)
(** ** server_manager.cpp: the supervisor's command path *)
(* ===================================================================== *)

Module ServerManager.
Import Str.

(** Of [dl::ServerManager], the [running_] flag; the child it points to
    is the one of the [World]. The log cache and the operator list play
    no part in [execute_command]. *)
Record t := mk { running_ : bool }.

Definition execute_command (command : str) (sm : t) (w : World) : t * World :=
  if negb (running_ sm) then (sm, w)
  else
    let cmd :=
      match command with
      | c :: _ => if Ascii.eqb c "/" then substr_from 1 command else command
      | [] => command
      end in
    let '(_, w1) := world_send (cmd ++ [nl]) w in
    (sm, w1).

End ServerManager.


(* ===================================================================== *)
(** ** server_manager.cpp: the log cache *)
(* ===================================================================== *)

Module ServerLog.
Import Str.

Record ServerLogEntry := mk_entry {
  timestamp : str;
  type : str;
  player : str;
  content : str;
  time_point : Z
}.

Definition MAX_LOG_CACHE : nat := 1000.

(** [add_log_entry]: push at the back, and drop the front entry when the
    cache has grown beyond its cap. *)
Definition add_log_entry (entry : ServerLogEntry) (log_cache : list ServerLogEntry)
  : list ServerLogEntry :=
  let pushed := log_cache ++ [entry] in
  if MAX_LOG_CACHE <? length pushed then drop 1 pushed else pushed.

(** [get_logs(limit)] *)
Definition get_logs (limit : nat) (log_cache : list ServerLogEntry) : list ServerLogEntry :=
  if (limit =? 0) || (length log_cache <=? limit) then log_cache
  else drop (length log_cache - limit) log_cache.

Section WithLibc.
Context {libc : Chrono.Libc}.

(** [get_current_time_string] *)
Definition get_current_time_string (w : World) : str * World :=
  let '(now, w1) := world_now w in
  (Chrono.put_time_local (Chrono.to_time_t now), w1).

(** The body of the loop of [log_reader_thread_func] for the line it has
    read: an empty line means there was none; otherwise the line is
    classified and, unless it is of no kind, cached. *)
Definition log_line (line : str) (pl : PlayerList.t) (log_cache : list ServerLogEntry)
    (w : World) : PlayerList.t * list ServerLogEntry * World :=
  match line with
  | [] => (pl, log_cache, w)
  | _ =>
      let '(event, pl1, w1) := PlayerList.process_log_line line pl w in
      let '(stamp, w2) := get_current_time_string w1 in
      let entry kind what :=
        mk_entry stamp kind (PlayerList.player_name event) what
                 (PlayerList.timestamp event) in
      match PlayerList.type event with
      | PlayerList.PLAYER_JOIN =>
          (pl1, add_log_entry (entry (lit "join") (PlayerList.client_info event)) log_cache, w2)
      | PlayerList.PLAYER_LEAVE =>
          (pl1, add_log_entry (entry (lit "leave") []) log_cache, w2)
      | PlayerList.PLAYER_COMMAND =>
          (pl1, add_log_entry (entry (lit "command") (PlayerList.content event)) log_cache, w2)
      | PlayerList.PLAYER_CHAT =>
          (pl1, add_log_entry (entry (lit "chat") (PlayerList.content event)) log_cache, w2)
      | PlayerList.NONE => (pl1, log_cache, w2)
      end
  end.

(** The loop over the lines the child prints, one after the other. *)
Definition log_lines (lines : list str) (pl : PlayerList.t)
    (log_cache : list ServerLogEntry) (w : World)
  : PlayerList.t * list ServerLogEntry * World :=
  foldl (fun '(pl, cache, w) line => log_line line pl cache w) (pl, log_cache, w) lines.

End WithLibc.
End ServerLog.

(* ===================================================================== *)
(** ** web_server.cpp: helpers and the vote handler *)
(* ===================================================================== *)

Module WebServer.
Import Str.

(** [get_file_extension]: from the last dot on. *)
Fixpoint rfind_char_from (c : ascii) (s : str) (i : nat) : option nat :=
  match s with
  | [] => None
  | x :: t => match rfind_char_from c t (S i) with
              | Some k => Some k
              | None => if Ascii.eqb x c then Some i else None
              end
  end.

Definition get_file_extension (filename : str) : str :=
  match rfind_char_from "." filename 0 with
  | None => []
  | Some pos => substr_from pos filename
  end.

(** Of an [httplib::Request], what [get_client_ip] reads: the first value
    of each of the two headers, if present, and the peer's address. *)
Record Request := mk_req {
  x_forwarded_for : option str;
  x_real_ip : option str;
  remote_addr : str
}.

Definition get_client_ip (req : Request) : str :=
  match x_forwarded_for req with
  | Some xff =>
      match find_char "," 0 xff with
      | Some comma => substr 0 comma xff
      | None => xff
      end
  | None =>
      match x_real_ip req with
      | Some ip => ip
      | None => remote_addr req
      end
  end.

(** [escape_json]. A [char] is signed: the bytes from 128 on are
    negative and take the last branch. A control character without a
    short form is printed as a backslash, 'u' and four hexadecimal
    digits. *)
Definition escape_char (c : ascii) : str :=
  let n := nat_of_ascii c in
  if n =? 34 then lit "\" ++ [c]
  else if n =? 92 then lit "\\"
  else if n =? 8 then lit "\b"
  else if n =? 12 then lit "\f"
  else if n =? 10 then lit "\n"
  else if n =? 13 then lit "\r"
  else if n =? 9 then lit "\t"
  else if n <=? 31 then
    lit "\u00" ++ [CommandRequest.hex_digit (Z.of_nat (n / 16));
                   CommandRequest.hex_digit (Z.of_nat (n mod 16))]
  else [c].

Definition escape_json (s : str) : str := concat (map escape_char s).

(** A word between double quotes, as the handlers write their JSON. *)
Definition dq : ascii := "034"%char.
Definition quoted (word : string) : str := [dq] ++ lit word ++ [dq].

Definition vote_failure (message : string) : str :=
  lit "{" ++ quoted "success" ++ lit ":false," ++ quoted "error" ++ lit ":" ++
  quoted message ++ lit "}".

(** [handle_post_vote], for the request id of the path and the client
    address: the status the handler sets ([None] when it leaves the
    library's default, success), the body, and the manager. *)
Definition handle_post_vote (request_id ip : str) (m : CommandRequest.t)
  : option nat * str * CommandRequest.t :=
  let '(result, m1) := CommandRequest.vote request_id ip m in
  if (result =? 0)%Z then
    (None,
     lit "{" ++ quoted "success" ++ lit ":true," ++ quoted "message" ++ lit ":" ++
     quoted "Vote recorded" ++ lit "}",
     m1)
  else if (result =? 1)%Z then (Some 400, vote_failure "Already voted", m1)
  else if (result =? 2)%Z then (Some 404, vote_failure "Request not found", m1)
  else if (result =? 3)%Z then (Some 400, vote_failure "Request already executed", m1)
  else (Some 500, vote_failure "Unknown error", m1).

End WebServer.

(* ===================================================================== *)
(** ** web_server.cpp: the request form *)
(* ===================================================================== *)

Module WebForms.
Import Str WebServer.









Section WithLibc.
Context {libc : Chrono.Libc}.

Definition get_current_time_string (w : World) : str * World :=
  let '(now, w1) := world_now w in
  (Chrono.put_time_local (Chrono.to_time_t now), w1).



End WithLibc.
End WebForms.

(* ===================================================================== *)
(** ** command_request.cpp: the data file *)
(* ===================================================================== *)

Module RequestFile.
Import Str CommandRequest.

(** Whether [iss >> std::get_time(&tm, "%Y-%m-%d %H:%M:%S")] leaves the
    stream failed on a text; like the calendar functions, this is the C++
    library's and not the repository's. *)
Class GetTime := { get_time_fails : str -> bool }.

(** An instance to go with [Chrono.utc]: the text must have the shape
    [dddd-dd-dd dd:dd:dd]. *)
Definition utc_get_time_fails (s : str) : bool :=
  match Chrono.number (take 4 s), Chrono.number (take 2 (drop 5 s)),
        Chrono.number (take 2 (drop 8 s)), Chrono.number (take 2 (drop 11 s)),
        Chrono.number (take 2 (drop 14 s)), Chrono.number (take 2 (drop 17 s)) with
  | Some _, Some _, Some _, Some _, Some _, Some _ => negb (length s =? 19)
  | _, _, _, _, _, _ => true
  end.

Definition utc_get_time : GetTime := {| get_time_fails := utc_get_time_fails |}.

(** [std::getline(iss, field, delim)] until it fails. *)
Fixpoint getfields_aux (delim : ascii) (cur : str) (s : str) : list str :=
  match s with
  | [] => match cur with [] => [] | _ => [rev cur] end
  | c :: t => if Ascii.eqb c delim then rev cur :: getfields_aux delim [] t
              else getfields_aux delim (c :: cur) t
  end.
Definition getfields (delim : ascii) (s : str) : list str := getfields_aux delim [] s.

(** [RequestInfo()] *)
Definition empty_request : RequestInfo := mk_request [] [] [] [] [] ∅ 0 0 false.

Section WithLibc.
Context {libc : Chrono.Libc} {ios : GetTime}.

Definition time_to_string (tp : Z) : str :=
  Chrono.put_time_local (Chrono.to_time_t tp).

(** [string_to_time]: the clock is read when the text does not parse. *)
Definition string_to_time (s : str) (w : World) : Z * World :=
  if get_time_fails s then world_now w
  else (Chrono.from_time_t (Chrono.get_time_local s), w).

(** The list of voters as [save_data] writes it. *)
Fixpoint write_ips (first : bool) (ips : list str) : str :=
  match ips with
  | [] => []
  | ip :: rest => (if first then [] else lit ",") ++ ip ++ write_ips false rest
  end.

(** The lines [save_data] writes for one request, without their line
    ends. *)
Definition request_lines (req : RequestInfo) : list str :=
  [ lit "=== REQUEST ===";
    lit "id|" ++ id req;
    lit "applicant|" ++ applicant req;
    lit "command|" ++ command req;
    lit "reason|" ++ reason req;
    lit "image|" ++ image_path req;
    lit "created|" ++ time_to_string (created_at req);
    lit "executed|" ++ (if executed req then lit "1" else lit "0");
    lit "executed_at|" ++ (if executed req then time_to_string (executed_at req) else []);
    lit "votes|" ++ write_ips true (elements (voted_ips req));
    lit "=== END ===" ].

(** [save_data]: the content of the data file, when it could be opened
    for writing. *)
Definition save_data (opened : bool) (m : t) : option str :=
  if opened
  then Some (concat (map (fun kv => concat (map (fun line => line ++ [nl])
                                              (request_lines kv.2)))
                         (map_to_list (requests_ m))))
  else None.

(** The voters of a "votes" line added to a set. *)
Definition load_votes (value : str) (voted : gset str) : gset str :=
  foldl (fun acc raw => match trim raw with
                        | [] => acc
                        | ip => {[ip]} ∪ acc
                        end) voted (getfields "," value).

(** The chain of comparisons on the key of a line. *)
Definition load_field (key value : str) (current : RequestInfo) (w : World)
  : RequestInfo * World :=
  if PlayerList.str_eqb key (lit "id") then
    (mk_request value (applicant current) (command current) (reason current)
       (image_path current) (voted_ips current) (created_at current)
       (executed_at current) (executed current), w)
  else if PlayerList.str_eqb key (lit "applicant") then
    (mk_request (id current) value (command current) (reason current)
       (image_path current) (voted_ips current) (created_at current)
       (executed_at current) (executed current), w)
  else if PlayerList.str_eqb key (lit "command") then
    (mk_request (id current) (applicant current) value (reason current)
       (image_path current) (voted_ips current) (created_at current)
       (executed_at current) (executed current), w)
  else if PlayerList.str_eqb key (lit "reason") then
    (mk_request (id current) (applicant current) (command current) value
       (image_path current) (voted_ips current) (created_at current)
       (executed_at current) (executed current), w)
  else if PlayerList.str_eqb key (lit "image") then
    (mk_request (id current) (applicant current) (command current) (reason current)
       value (voted_ips current) (created_at current)
       (executed_at current) (executed current), w)
  else if PlayerList.str_eqb key (lit "created") then
    let '(tp, w1) := string_to_time value w in
    (mk_request (id current) (applicant current) (command current) (reason current)
       (image_path current) (voted_ips current) tp
       (executed_at current) (executed current), w1)
  else if PlayerList.str_eqb key (lit "executed") then
    (mk_request (id current) (applicant current) (command current) (reason current)
       (image_path current) (voted_ips current) (created_at current)
       (executed_at current) (PlayerList.str_eqb value (lit "1")), w)
  else if PlayerList.str_eqb key (lit "executed_at") then
    match value with
    | [] => (current, w)
    | _ =>
        let '(tp, w1) := string_to_time value w in
        (mk_request (id current) (applicant current) (command current) (reason current)
           (image_path current) (voted_ips current) (created_at current)
           tp (executed current), w1)
    end
  else if PlayerList.str_eqb key (lit "votes") then
    match value with
    | [] => (current, w)
    | _ =>
        (mk_request (id current) (applicant current) (command current) (reason current)
           (image_path current) (load_votes value (voted_ips current))
           (created_at current) (executed_at current) (executed current), w)
    end
  else (current, w).

(** The state of the loop of [load_data]: [current], [in_request], the
    map being filled, and the world. *)
Definition loader : Type := RequestInfo * bool * gmap str RequestInfo * World.

(** One round of the loop, for the line read. *)
Definition load_line (st : loader) (raw : str) : loader :=
  let '(current, in_request, requests, w) := st in
  let line := trim raw in
  if PlayerList.str_eqb line (lit "=== REQUEST ===") then
    (empty_request, true, requests, w)
  else if PlayerList.str_eqb line (lit "=== END ===") then
    (current, false,
     if in_request && negb (PlayerList.is_empty (id current))
     then <[id current := current]> requests else requests,
     w)
  else if negb in_request then st
  else
    match find_char "|" 0 line with
    | None => st
    | Some sep =>
        let '(current1, w1) :=
          load_field (substr 0 sep line) (substr_from (sep + 1) line) current w in
        (current1, in_request, requests, w1)
    end.

(** [load_data], for the content of the data file ([None] when it cannot
    be opened, and then nothing changes). *)
Definition load_data (file : option str) (m : t) (w : World) : t * World :=
  match file with
  | None => (m, w)
  | Some text =>
      let '(_, _, requests, w1) :=
        foldl load_line (empty_request, false, ∅, w) (getlines text) in
      (set_requests m requests, w1)
  end.

End WithLibc.
End RequestFile.

(* ===================================================================== *)
(** ** Concrete states used in the examples *)
(* ===================================================================== *)

Module Samples.
Open Scope Z_scope.

(** A clock that stands at 2023-11-14 22:13:20.123456789 UTC. *)
Definition t0 : Z := 1700000000123456789.
Definition clock0 : Chrono.clock := Chrono.mk_clock (fun _ => t0) 0.

(** A live child with its standard input on descriptor 5, and one that
    has exited. *)
Definition child_live : Program.t := Program.mk true 5 [].
Definition child_gone : Program.t := Program.mk false 5 [].

Definition world0 : World := mk_world clock0 child_live None None.
Definition world_gone : World := mk_world clock0 child_gone None None.

(** The callback main.cpp installs: forward the command to the
    supervisor, which is running. *)
Definition forward : str -> str -> World -> World :=
  fun command _ w => (ServerManager.execute_command command (ServerManager.mk true) w).2.

(** Three requests under a threshold of two votes: [r1] has two votes,
    [r2] has one, [r3] has two and was executed before. *)
Definition r1 : CommandRequest.RequestInfo :=
  CommandRequest.mk_request (lit "r1") (lit "Bob") (lit "/pardon bob") (lit "sorry") []
    ({[lit "1.2.3.4"]} ∪ {[lit "1.2.3.5"]}) 0 0 false.
Definition r2 : CommandRequest.RequestInfo :=
  CommandRequest.mk_request (lit "r2") (lit "Carol") (lit "/time set day") (lit "dark") []
    {[lit "1.2.3.4"]} 0 0 false.
Definition r3 : CommandRequest.RequestInfo :=
  CommandRequest.mk_request (lit "r3") (lit "Dave") (lit "/weather clear") (lit "rain") []
    ({[lit "1.2.3.4"]} ∪ {[lit "1.2.3.5"]}) 0 5 true.

Definition engine : CommandRequest.t :=
  CommandRequest.mk 2 (Some forward)
    (<[lit "r1" := r1]> (<[lit "r2" := r2]> (<[lit "r3" := r3]> ∅))).

(** A registry with one rule, twenty-four hours for "killall", and no
    player seen so far. *)
Definition registry : PlayerList.t :=
  PlayerList.mk ∅ ∅ ∅ [PlayerList.mk_forbidden (lit "killall") 24].

(** A ban map with one permanent and one temporary record, times in
    whole seconds. *)
Definition alice : PlayerList.BannedPlayerInfo :=
  PlayerList.mk_banned (lit "Alice") (lit "griefing") 1700000000000000000
    Chrono.time_point_max true.
Definition mallory : PlayerList.BannedPlayerInfo :=
  PlayerList.mk_banned (lit "Mallory") (lit "spam in chat") 1700000000000000000
    1700086400000000000 false.
Definition banned_ok : gmap str PlayerList.BannedPlayerInfo :=
  <[lit "Alice" := alice]> (<[lit "Mallory" := mallory]> ∅).

(** The record [ban] makes at [t0], a time with a fraction of a second. *)
Definition eve : PlayerList.BannedPlayerInfo :=
  PlayerList.mk_banned (lit "Eve") (lit "griefing") t0 Chrono.time_point_max true.

End Samples.


(* ===================================================================== *)
(** ** Vocabulary of the properties *)
(* ===================================================================== *)

(** *** The line buffer *)

Module BufferSpec.
Import Buffer.

(** The cursor never passes the end of the buffered bytes. *)
Definition wf (b : t) : Prop := buffer_ptr_ b <= length (buffer_ b).

(** The sentence of the specification, read for an arbitrary sequence of
    operations on a fresh buffer: the lines handed out are the appended
    bytes up to the last newline, the unread rest is what follows it. *)
Definition lines_reach_last_newline (thr : nat) (ops : list op) : Prop :=
  (concat (run ops (make thr)).2, unread (run ops (make thr)).1)
  = split_last_nl (appended ops).

(** The sentence of the specification on the boundary: a read that
    leaves exactly the threshold's number of consumed bytes does not
    compact; the bytes are dropped by the next read. *)
Definition compacts_on_next_read (b : t) : Prop :=
  buffer_ptr_ b + length (read_line b).1 = MAX_DELETED_BUFFER_SIZE b ->
  (read_line b).2 = mk (MAX_DELETED_BUFFER_SIZE b) (buffer_ b) (MAX_DELETED_BUFFER_SIZE b).

End BufferSpec.

(** *** The vote engine *)

Module VoteSpec.
Import CommandRequest.

(** The requests the pass finds ready, with their keys, in the order of
    the container. *)
Definition ready_entries (m : t) : list (str * RequestInfo) :=
  List.filter (fun kv => ready (vote_threshold_ m) kv.2) (map_to_list (requests_ m)).

(** The command as the self-pardon check computes it. *)
Definition folded_command (command : str) : str :=
  match Str.to_lower (Str.remove_spaces command) with
  | c :: rest => if Ascii.eqb c "/" then rest else c :: rest
  | [] => []
  end.

(** The words of the specification, each on its own. Case folding puts
    the small letter in the place of a capital one and leaves every other
    character. *)
Definition capitals : str := lit "ABCDEFGHIJKLMNOPQRSTUVWXYZ".
Definition smalls : str := lit "abcdefghijklmnopqrstuvwxyz".

Fixpoint fold_letter (uppers lowers : str) (c : ascii) : ascii :=
  match uppers, lowers with
  | u :: uppers, l :: lowers => if Ascii.eqb c u then l else fold_letter uppers lowers c
  | _, _ => c
  end.

Definition case_fold (s : str) : str := map (fold_letter capitals smalls) s.

(** Stripping: the characters of [s] that are not among [dropped], in
    their order. *)
Fixpoint strip (dropped : str) (s : str) : str :=
  match s with
  | [] => []
  | c :: rest =>
      if existsb (Ascii.eqb c) dropped then strip dropped rest
      else c :: strip dropped rest
  end.

(** White space as [isspace] has it in the "C" locale (blank, tab, line
    feed, vertical tab, form feed, carriage return), and the two
    characters among them that are blank on a line. *)
Definition white_space : str :=
  [" "; "009"; "010"; "011"; "012"; "013"]%char.
Definition blank_and_tab : str := [" "; "009"]%char.

Definition drop_slash (s : str) : str :=
  match s with
  | "/"%char :: rest => rest
  | _ => s
  end.

(** The sentence of the specification, for a given set of stripped
    characters: the command, stripped, case-folded and without a leading
    slash, begins with "pardon", and what follows contains the applicant's
    case-folded name. With [white_space] it is the sentence as written. *)
Definition self_pardon_spec (dropped : str) (applicant command : str) : Prop :=
  exists rest,
    drop_slash (case_fold (strip dropped command)) = lit "pardon" ++ rest /\
    exists pre post, rest = pre ++ case_fold applicant ++ post.

End VoteSpec.

(** *** Ban records that the text format of the ban file can hold *)

Module BanFile.
Import Str PlayerList.

Definition no_char (c : ascii) (s : str) : bool :=
  forallb (fun x => negb (Ascii.eqb x c)) s.

(** A field that cannot be mistaken for a separator or a line end. *)
Definition plain_field (s : str) : bool := no_char "|" s && no_char nl s.

(** A first field that [trim] leaves alone and that does not open a
    comment line. *)
Definition plain_start (s : str) : bool :=
  match s with
  | c :: _ => negb (is_trim_ws c) && negb (Ascii.eqb c "#")
  | [] => true
  end.

(** A last field that [trim] leaves alone. *)
Definition plain_end (s : str) : bool :=
  match last s with
  | Some c => negb (is_trim_ws c)
  | None => true
  end.

Section WithLibc.
Context {libc : Chrono.Libc}.

(** The text of a record without its line end. *)
Definition banned_body (info : BannedPlayerInfo) : str :=
  name info ++ lit "|" ++ reason info ++ lit "|" ++
  time_to_string (ban_time info) false ++ lit "|" ++
  time_to_string (unban_time info) (is_permanent info).

(** The record [info] filed under [key] survives the file: it is filed
    under its own name; the name and the reason are plain; the two times
    print as plain text that reads back as the same time (so they are
    whole seconds); and the record is permanent exactly when its unban
    time prints as the sentinel text. *)
Definition survives (key : str) (info : BannedPlayerInfo) : bool :=
  let bt := time_to_string (ban_time info) false in
  let ut := time_to_string (unban_time info) (is_permanent info) in
  str_eqb key (name info) &&
  plain_field (name info) && plain_start (name info) &&
  plain_field (reason info) &&
  plain_field bt && (string_to_time bt =? ban_time info)%Z &&
  no_char nl ut && plain_end ut && (string_to_time ut =? unban_time info)%Z &&
  Bool.eqb (str_eqb ut sentinel_text) (is_permanent info).

(** A ban time the file can give back: the sentinel, or a whole number
    of seconds, which is an even count of nanoseconds. *)
Definition coarse (info : BannedPlayerInfo) : Prop :=
  ban_time info = Chrono.time_point_max \/ Z.even (ban_time info) = true.

(** The sentence of the specification for a registry [pl]: write its
    files with [save_files], construct a fresh registry from them, and
    find the same ban map. *)
Definition round_trips (pl : t) (w : World) : Prop :=
  banned_players_ (create (forbidden_commands_ pl) (save_files pl w)).1
  = banned_players_ pl.

End WithLibc.
End BanFile.


(** *** Names the player file can hold *)

Module PlayersFile.
Import Str.

(** A name that [load_files] reads back as it was written: not empty,
    on one line, with no white space at either end. *)
Definition plain_name (s : str) : bool :=
  match s with
  | [] => false
  | c :: _ => negb (is_trim_ws c)
  end
  && BanFile.no_char nl s && BanFile.plain_end s.

End PlayersFile.

(** The text of a file made of the given lines. *)
Definition lines_text (lines : list str) : str :=
  concat (map (fun l => l ++ [Str.nl]) lines).

(** *** Proof steps used more than once *)

(** Re-associate concatenations to the right. *)
Ltac app_norm := repeat (progress (simpl; rewrite <- ?app_assoc, ?app_nil_r)).

(** Rewrite with a lemma [field] about a line made of the key [c :: k],
    a separator and a value; [absent] turns a computed test that a
    character does not occur into the statement that it does not. *)
Ltac field_line field absent key c k :=
  rewrite (field key _ c k);
  [ | reflexivity | reflexivity | discriminate | apply absent; reflexivity
    | reflexivity | try done ].

(** The two powers of two as numerals, for [lia]. *)
Ltac pow64 :=
  change (2 ^ 63)%Z with 9223372036854775808%Z in *;
  change (2 ^ 64)%Z with 18446744073709551616%Z in *.

(** *** Sequences of votes, requests filed under their id *)

Module RequestSpec.
Import CommandRequest.

(** The votes of a list of addresses on one request, one call of [vote]
    after the other: the status codes and the manager afterwards. *)
Fixpoint votes (request_id : str) (ips : list str) (m : t) : list Z * t :=
  match ips with
  | [] => ([], m)
  | ip :: rest =>
      let '(code, m1) := vote request_id ip m in
      let '(codes, m2) := votes request_id rest m1 in
      (code :: codes, m2)
  end.

(** Every request is filed under its own id. *)
Definition keyed (m : t) : Prop := map_Forall (fun k r => id r = k) (requests_ m).

(** A command as the supervisor sends it: without one leading slash. *)
Definition without_slash (command : str) : str :=
  match command with
  | c :: rest => if Ascii.eqb c "/" then rest else command
  | [] => []
  end.

End RequestSpec.

(** *** Hexadecimal numerals *)

Module HexSpec.

Definition is_hex (c : ascii) : bool :=
  let n := nat_of_ascii c in ((48 <=? n) && (n <=? 57)) || ((97 <=? n) && (n <=? 102)).

(** The value of a digit and of a numeral. *)
Definition hex_val (c : ascii) : Z :=
  let n := Z.of_nat (nat_of_ascii c) in
  if (n <? 58)%Z then (n - 48)%Z else (n - 87)%Z.

Definition value (s : str) : Z := fold_left (fun acc c => (16 * acc + hex_val c)%Z) s 0%Z.

End HexSpec.

(** *** Reading an escaped text back *)

Module JsonSpec.
Import WebServer.

Definition hex_nat (c : ascii) : nat :=
  let n := nat_of_ascii c in if n <? 58 then n - 48 else n - 87.

(** The first character an escaped text stands for, and the rest of the
    text. *)
Definition unescape_one (s : str) : option (ascii * str) :=
  match s with
  | [] => None
  | c :: rest =>
      if Ascii.eqb c "\" then
        match rest with
        | e :: rest1 =>
            if Ascii.eqb e dq then Some (dq, rest1)
            else if Ascii.eqb e "\" then Some ("\"%char, rest1)
            else if Ascii.eqb e "b" then Some ("008"%char, rest1)
            else if Ascii.eqb e "f" then Some ("012"%char, rest1)
            else if Ascii.eqb e "n" then Some ("010"%char, rest1)
            else if Ascii.eqb e "r" then Some ("013"%char, rest1)
            else if Ascii.eqb e "t" then Some ("009"%char, rest1)
            else if Ascii.eqb e "u" then
              match rest1 with
              | _ :: _ :: x :: y :: rest2 =>
                  Some (ascii_of_nat (16 * hex_nat x + hex_nat y), rest2)
              | _ => None
              end
            else None
        | [] => None
        end
      else Some (c, rest)
  end.

End JsonSpec.


(** *** Requests that the text format of the data file can hold *)

Module RequestFileSpec.
Import Str CommandRequest RequestFile.

(** A value that a line of the file gives back: on one line, and not
    ending with white space. *)
Definition plain_value (s : str) : bool := BanFile.no_char nl s && BanFile.plain_end s.

(** An address that the list of voters gives back: not empty, on one
    line, without a comma, with no white space at either end. *)
Definition plain_ip (ip : str) : bool :=
  match ip with
  | [] => false
  | c :: _ => negb (is_trim_ws c)
  end
  && BanFile.no_char nl ip && BanFile.no_char "," ip && BanFile.plain_end ip.

Section WithLibc.
Context {libc : Chrono.Libc} {ios : GetTime}.

(** A time that is written as a text that reads back as the same time
    (so it is a whole number of seconds). *)
Definition plain_time (tp : Z) : bool :=
  let s := time_to_string tp in
  negb (PlayerList.is_empty s) && plain_value s && negb (get_time_fails s)
  && (Chrono.from_time_t (Chrono.get_time_local s) =? tp)%Z.

(** The request [r] filed under [key] survives the file. *)
Definition file_safe (key : str) (r : RequestInfo) : bool :=
  PlayerList.str_eqb key (id r) && negb (PlayerList.is_empty (id r)) &&
  plain_value (id r) && plain_value (applicant r) && plain_value (command r) &&
  plain_value (reason r) && plain_value (image_path r) &&
  plain_time (created_at r) &&
  (if executed r then plain_time (executed_at r) else (executed_at r =? 0)%Z) &&
  forallb plain_ip (elements (voted_ips r)).

End WithLibc.
End RequestFileSpec.

(* ===================================================================== *)
(** * Properties *)
(* ===================================================================== *)

(** ** [std::string] searches *)

Lemma ascii_eqb_true (a b : ascii) : Ascii.eqb a b = true <-> a = b.
Proof. apply Ascii.eqb_eq. Qed.

Lemma ascii_eqb_false (a b : ascii) : Ascii.eqb a b = false <-> a <> b.
Proof. apply Ascii.eqb_neq. Qed.

Lemma find_char_from_Some c s i k :
  Str.find_char_from c s i = Some k ->
  exists pre post, s = pre ++ c :: post /\ (c ∉ pre) /\ k = i + length pre.
Proof.
  revert i. induction s as [|x t IH]; intros i; simpl; [discriminate|].
  destruct (Ascii.eqb x c) eqn:E.
  - intros [= <-]. apply ascii_eqb_true in E as ->.
    exists [], t. split_and!; [done | apply not_elem_of_nil | simpl; lia].
  - intros H. apply IH in H as (pre & post & -> & Hpre & ->).
    apply ascii_eqb_false in E.
    exists (x :: pre), post. split_and!; [done | | simpl; lia].
    rewrite elem_of_cons. intros [->|?]; [done | contradiction].
Qed.

Lemma find_char_from_None c s i :
  Str.find_char_from c s i = None -> c ∉ s.
Proof.
  revert i. induction s as [|x t IH]; intros i; simpl.
  - intros _. apply not_elem_of_nil.
  - destruct (Ascii.eqb x c) eqn:E; [discriminate|].
    intros H. apply ascii_eqb_false in E. apply IH in H.
    rewrite elem_of_cons. intros [->|?]; [done | contradiction].
Qed.

Lemma find_char_from_split c pre post i :
  c ∉ pre -> Str.find_char_from c (pre ++ c :: post) i = Some (i + length pre).
Proof.
  revert i. induction pre as [|x pre IH]; intros i Hpre; simpl.
  - rewrite (proj2 (ascii_eqb_true c c) eq_refl). f_equal. lia.
  - apply not_elem_of_cons in Hpre as [Hx Hpre].
    rewrite (proj2 (ascii_eqb_false x c)) by congruence.
    rewrite IH by done. f_equal. lia.
Qed.

Lemma find_char_from_absent c s i :
  c ∉ s -> Str.find_char_from c s i = None.
Proof.
  revert i. induction s as [|x t IH]; intros i Hs; simpl; [done|].
  apply not_elem_of_cons in Hs as [Hx Hs].
  rewrite (proj2 (ascii_eqb_false x c)) by congruence. by apply IH.
Qed.

(** ** The line buffer *)

Module BufferFacts.
Import Buffer BufferSpec.

Lemma wf_make thr : wf (make thr).
Proof. unfold wf; simpl; lia. Qed.

Lemma wf_append data b : wf b -> wf (append data b).
Proof. unfold wf; simpl. rewrite length_app. lia. Qed.

Lemma unread_append data b :
  wf b -> unread (append data b) = unread b ++ data.
Proof. unfold wf, unread; simpl. intros H. by rewrite drop_app_le. Qed.

(** No newline among the unread bytes: [read_line] hands out nothing and
    changes nothing. *)
Lemma read_line_none b :
  Str.nl ∉ unread b -> read_line b = ([], b).
Proof.
  intros H. unfold read_line.
  destruct (length (buffer_ b) <=? buffer_ptr_ b); [done|].
  unfold Str.find_char. fold (unread b).
  by rewrite find_char_from_absent.
Qed.

(** A newline among the unread bytes: [read_line] hands out the bytes up
    to and including the first one; the unread rest is what followed it,
    whether or not the call compacts. *)
Lemma read_line_some b body rest :
  wf b -> unread b = body ++ Str.nl :: rest -> Str.nl ∉ body ->
  exists b', read_line b = (body ++ [Str.nl], b') /\
             unread b' = rest /\ wf b' /\
             MAX_DELETED_BUFFER_SIZE b' = MAX_DELETED_BUFFER_SIZE b.
Proof.
  intros Hwf Hun Hbody. unfold read_line.
  assert (Hlen : length (unread b) = length (buffer_ b) - buffer_ptr_ b)
    by (unfold unread; apply length_drop).
  rewrite Hun, length_app in Hlen; simpl in Hlen.
  destruct (Nat.leb_spec (length (buffer_ b)) (buffer_ptr_ b)); [lia|].
  unfold Str.find_char. fold (unread b). rewrite Hun.
  rewrite find_char_from_split by done.
  assert (Hres : Str.substr (buffer_ptr_ b)
                   (buffer_ptr_ b + length body - buffer_ptr_ b + 1) (buffer_ b)
                 = body ++ [Str.nl]).
  { unfold Str.substr. fold (unread b). rewrite Hun.
    replace (buffer_ptr_ b + length body - buffer_ptr_ b + 1)
      with (length (body ++ [Str.nl])) by (rewrite length_app; simpl; lia).
    change (body ++ Str.nl :: rest) with (body ++ [Str.nl] ++ rest).
    rewrite app_assoc. apply take_app_length. }
  assert (Hrest : drop (buffer_ptr_ b + length body + 1) (buffer_ b) = rest).
  { rewrite <- Nat.add_assoc, <- drop_drop. fold (unread b). rewrite Hun.
    change (body ++ Str.nl :: rest) with (body ++ [Str.nl] ++ rest).
    rewrite app_assoc.
    replace (length body + 1) with (length (body ++ [Str.nl]))
      by (rewrite length_app; simpl; lia).
    apply drop_app_length. }
  rewrite Hres.
  destruct (MAX_DELETED_BUFFER_SIZE b <=? buffer_ptr_ b + length body + 1).
  - eexists; split; [reflexivity|].
    unfold unread, wf, Str.substr_from; simpl. rewrite drop_0.
    split_and!; [done | lia | done].
  - eexists; split; [reflexivity|].
    unfold unread, wf; simpl. split_and!; [done | lia | done].
Qed.

(** The unread bytes split at their first newline, if any. *)
Lemma split_first_nl (s : str) :
  Str.nl ∉ s \/ exists body rest, s = body ++ Str.nl :: rest /\ Str.nl ∉ body.
Proof.
  destruct (Str.find_char_from Str.nl s 0) eqn:E.
  - right. apply find_char_from_Some in E as (pre & post & ? & ? & _). eauto.
  - left. by eapply find_char_from_None.
Qed.

Lemma read_line_cases b :
  wf b ->
  (read_line b = ([], b) /\ (Str.nl ∉ unread b)) \/
  (exists body rest b',
      unread b = body ++ Str.nl :: rest /\ (Str.nl ∉ body) /\
      read_line b = (body ++ [Str.nl], b') /\ unread b' = rest /\ wf b' /\
      MAX_DELETED_BUFFER_SIZE b' = MAX_DELETED_BUFFER_SIZE b).
Proof.
  intros Hwf. destruct (split_first_nl (unread b)) as [H|(body & rest & H & Hb)].
  - left. split; [by apply read_line_none | done].
  - right. destruct (read_line_some b body rest Hwf H Hb) as (b' & ? & ? & ? & ?).
    exists body, rest, b'. done.
Qed.

(** An empty result means that no complete line is left. *)
Lemma read_line_empty_drained b :
  wf b -> (read_line b).1 = [] -> Str.nl ∉ unread b.
Proof.
  intros Hwf H. destruct (read_line_cases b Hwf) as [[_ ?]|(body & rest & b' & _ & _ & E & _)];
    [done|].
  rewrite E in H; simpl in H. by destruct body.
Qed.

Lemma run_invariant ops : forall b,
  wf b ->
  (concat (run ops b).2 ++ unread (run ops b).1 = unread b ++ appended ops) /\
  Forall (fun l => l = [] \/ is_line l) (run ops b).2 /\
  wf (run ops b).1.
Proof.
  induction ops as [|[data|] ops IH]; intros b Hwf; simpl.
  - rewrite app_nil_r. split_and!; [done | constructor | done].
  - destruct (IH (append data b) (wf_append _ _ Hwf)) as (H1 & H2 & H3).
    rewrite H1, unread_append by done. by rewrite app_assoc.
  - destruct (read_line_cases b Hwf)
      as [[E Hno]|(body & rest & b' & Hun & Hbody & E & Hrest & Hwf' & _)];
      rewrite E.
    + destruct (IH b Hwf) as (H1 & H2 & H3).
      destruct (run ops b) as [b2 lines]; simpl in *.
      split_and!; [done | constructor; [by left | done] | done].
    + destruct (IH b' Hwf') as (H1 & H2 & H3).
      destruct (run ops b') as [b2 lines]; simpl in *.
      split_and!; [| constructor; [right; by exists body | done] | done].
      rewrite <- !app_assoc, H1, Hrest, Hun. simpl. by rewrite <- !app_assoc.
Qed.

Lemma split_last_nl_no_nl r :
  Str.nl ∉ r -> split_last_nl r = ([], r).
Proof.
  induction r as [|c r IH]; intros H; simpl; [done|].
  apply not_elem_of_cons in H as [Hc Hr]. rewrite IH by done.
  by rewrite (proj2 (ascii_eqb_false c Str.nl)) by congruence.
Qed.

Lemma split_last_nl_app q r :
  Str.nl ∉ r -> split_last_nl (q ++ Str.nl :: r) = (q ++ [Str.nl], r).
Proof.
  intros Hr. induction q as [|c q IH]; simpl.
  - by rewrite split_last_nl_no_nl.
  - rewrite IH. by destruct q.
Qed.

(** A concatenation of complete lines and empty results is empty or ends
    in a newline. *)
Lemma concat_lines_shape lines :
  Forall (fun l => l = [] \/ is_line l) lines ->
  concat lines = [] \/ exists q, concat lines = q ++ [Str.nl].
Proof.
  induction 1 as [|l lines Hl _ IH]; simpl; [by left|].
  destruct IH as [->|[q ->]].
  - rewrite app_nil_r. destruct Hl as [->|(body & -> & _)]; [by left | right; eauto].
  - right. exists (l ++ q). by rewrite app_assoc.
Qed.

End BufferFacts.

Section BufferClaims.
Import Buffer BufferSpec BufferFacts.

(** C1, counterexample: two lines are appended and one is read. The call
    returns the first line only, and the second stays in the buffer. *)
Lemma C1_single_read_leaves_a_line :
  ~ lines_reach_last_newline 4096
      [Append (lit "a" ++ [Str.nl] ++ lit "b" ++ [Str.nl]); ReadLine].
Proof. unfold lines_reach_last_newline. vm_compute. discriminate. Qed.

(** C1 (amended): for every sequence of [append] and [read_line] calls on
    a fresh buffer with any compaction threshold, the results of the
    [read_line] calls followed by the unread bytes are exactly the appended
    bytes, and every result is empty or one complete line; so compaction
    never alters the unread bytes. Once [read_line] has nothing to return,
    the results are the appended bytes up to and including their last
    newline and the unread bytes are those after it. *)
Theorem C1_read_lines_partition (thr : nat) (ops : list op) :
  concat (run ops (make thr)).2 ++ unread (run ops (make thr)).1 = appended ops /\
  Forall (fun l => l = [] \/ is_line l) (run ops (make thr)).2 /\
  ((read_line (run ops (make thr)).1).1 = [] ->
   (concat (run ops (make thr)).2, unread (run ops (make thr)).1)
   = split_last_nl (appended ops)).
Proof.
  destruct (run_invariant ops (make thr) (wf_make thr)) as (H1 & H2 & H3).
  change (unread (make thr)) with (@nil ascii) in H1; simpl in H1.
  split_and!; [done | done |].
  intros Hempty. apply read_line_empty_drained in Hempty; [|done].
  rewrite <- H1.
  destruct (concat_lines_shape _ H2) as [->|[q ->]]; simpl.
  - by rewrite split_last_nl_no_nl.
  - rewrite <- app_assoc. simpl. by rewrite split_last_nl_app.
Qed.

(** A run that ends drained: two appends, the second completing the
    first line, and three reads. *)
Lemma C1_read_lines_partition_witness :
  let ops := [Append (lit "ab"); Append (lit "c" ++ [Str.nl] ++ lit "de" ++ [Str.nl] ++ lit "f");
              ReadLine; ReadLine; ReadLine] in
  (concat (run ops (make 4)).2, unread (run ops (make 4)).1)
  = (lit "abc" ++ [Str.nl] ++ lit "de" ++ [Str.nl], lit "f").
Proof.
  intros ops.
  rewrite (proj2 (proj2 (C1_read_lines_partition 4 ops))); reflexivity.
Defined.

(** A read that finds a line and leaves the cursor at the threshold or
    beyond compacts before it returns. *)
Lemma read_line_compacts b body rest :
  wf b -> unread b = body ++ Str.nl :: rest -> Str.nl ∉ body ->
  MAX_DELETED_BUFFER_SIZE b <= buffer_ptr_ b + length body + 1 ->
  read_line b = (body ++ [Str.nl], mk (MAX_DELETED_BUFFER_SIZE b) rest 0).
Proof.
  intros Hwf Hun Hbody Hmax.
  destruct (read_line_some b body rest Hwf Hun Hbody) as (b' & E & Hrest & _ & _).
  rewrite E. f_equal. revert E. unfold read_line.
  destruct (length (buffer_ b) <=? buffer_ptr_ b) eqn:E0.
  { intros [= Hb _]. by destruct body. }
  unfold Str.find_char. fold (unread b). rewrite Hun.
  rewrite find_char_from_split by done.
  destruct (Nat.leb_spec (MAX_DELETED_BUFFER_SIZE b) (buffer_ptr_ b + length body + 1)); [|lia].
  intros [= _ <-]. f_equal.
  unfold Str.substr_from. rewrite <- Hrest. unfold unread. simpl. by rewrite drop_0.
Qed.

(** A read that finds a line and leaves the cursor below the threshold
    moves the cursor and keeps the bytes. *)
Lemma read_line_keeps b body rest :
  wf b -> unread b = body ++ Str.nl :: rest -> Str.nl ∉ body ->
  buffer_ptr_ b + length body + 1 < MAX_DELETED_BUFFER_SIZE b ->
  read_line b = (body ++ [Str.nl],
                 mk (MAX_DELETED_BUFFER_SIZE b) (buffer_ b) (buffer_ptr_ b + length body + 1)).
Proof.
  intros Hwf Hun Hbody Hmax.
  destruct (read_line_some b body rest Hwf Hun Hbody) as (b' & E & _).
  rewrite E. f_equal. revert E. unfold read_line.
  destruct (length (buffer_ b) <=? buffer_ptr_ b) eqn:E0.
  { intros [= Hb _]. by destruct body. }
  unfold Str.find_char. fold (unread b). rewrite Hun.
  rewrite find_char_from_split by done.
  destruct (Nat.leb_spec (MAX_DELETED_BUFFER_SIZE b) (buffer_ptr_ b + length body + 1)); [lia|].
  by intros [= _ <-].
Qed.

(** C8, counterexample: a buffer with threshold 4 holds "abc\nxyz" and
    one line is read. The four bytes of the line are exactly the
    threshold; the same call already drops them and rewinds the cursor,
    and nothing is left for the next read to compact. *)
Lemma C8_compacts_in_same_read :
  read_line (append (lit "abc" ++ [Str.nl] ++ lit "xyz") (make 4))
  = (lit "abc" ++ [Str.nl], mk 4 (lit "xyz") 0) /\
  ~ compacts_on_next_read (append (lit "abc" ++ [Str.nl] ++ lit "xyz") (make 4)).
Proof.
  split; [reflexivity|].
  unfold compacts_on_next_read. intros H. specialize (H eq_refl). discriminate H.
Qed.

(** C8 (amended): a [read_line] call that finds a line hands it out and
    leaves the bytes after it unread. When the consumed prefix then
    reaches the threshold, also when it equals it exactly, that same call
    compacts: the consumed prefix is dropped, the cursor is back at 0 and
    the buffer holds the unread bytes and nothing else. Below the
    threshold the call moves the cursor and keeps every byte. *)
Theorem C8_read_line_compaction (b : t) (body rest : str) :
  wf b -> unread b = body ++ Str.nl :: rest -> Str.nl ∉ body ->
  (read_line b).1 = body ++ [Str.nl] /\
  unread (read_line b).2 = rest /\
  (MAX_DELETED_BUFFER_SIZE b <= buffer_ptr_ b + length body + 1 ->
   (read_line b).2 = mk (MAX_DELETED_BUFFER_SIZE b) rest 0) /\
  (buffer_ptr_ b + length body + 1 < MAX_DELETED_BUFFER_SIZE b ->
   (read_line b).2
   = mk (MAX_DELETED_BUFFER_SIZE b) (buffer_ b) (buffer_ptr_ b + length body + 1)).
Proof.
  intros Hwf Hun Hbody.
  destruct (read_line_some b body rest Hwf Hun Hbody) as (b' & E & Hrest & _).
  split_and!.
  - by rewrite E.
  - by rewrite E.
  - intros Hmax. by rewrite (read_line_compacts b body rest).
  - intros Hmax. by rewrite (read_line_keeps b body rest).
Qed.

(** The line "abc\n" read from "abc\nxyz": with threshold 4 the read
    compacts, with threshold 5 it does not. *)
Lemma C8_read_line_compaction_witness :
  (read_line (append (lit "abc" ++ [Str.nl] ++ lit "xyz") (make 4))).2 = mk 4 (lit "xyz") 0 /\
  (read_line (append (lit "abc" ++ [Str.nl] ++ lit "xyz") (make 5))).2
  = mk 5 (lit "abc" ++ [Str.nl] ++ lit "xyz") 4.
Proof.
  assert (Hbody : Str.nl ∉ lit "abc").
  { intros H. repeat (apply elem_of_cons in H as [H|H]; [discriminate H|]).
    by apply elem_of_nil in H. }
  split.
  - apply (C8_read_line_compaction
             (append (lit "abc" ++ [Str.nl] ++ lit "xyz") (make 4)) (lit "abc") (lit "xyz"));
      [unfold wf; simpl; lia | reflexivity | exact Hbody | simpl; lia].
  - apply (C8_read_line_compaction
             (append (lit "abc" ++ [Str.nl] ++ lit "xyz") (make 5)) (lit "abc") (lit "xyz"));
      [unfold wf; simpl; lia | reflexivity | exact Hbody | simpl; lia].
Defined.

End BufferClaims.

(** ** Substring search *)

Lemma starts_with_spec p s :
  Str.starts_with p s = true <-> exists rest, s = p ++ rest.
Proof.
  revert s. induction p as [|a p IH]; intros s; simpl.
  - split; [intros _; by exists s | done].
  - destruct s as [|b s].
    + split; [done | intros [rest [=]]].
    + rewrite andb_true_iff, ascii_eqb_true, IH. split.
      * intros [-> [rest ->]]. by exists rest.
      * intros [rest [= -> ->]]. eauto.
Qed.

Lemma find_from_ge p s i k : Str.find_from p s i = Some k -> i <= k.
Proof.
  revert i. induction s as [|x s IH]; intros i; simpl.
  - destruct (Str.starts_with p []); [intros [= <-]; lia | done].
  - destruct (Str.starts_with p (x :: s)); [intros [= <-]; lia|].
    intros H. apply IH in H. lia.
Qed.

Lemma find_from_here p s i :
  Str.find_from p s i = Some i <-> Str.starts_with p s = true.
Proof.
  destruct s as [|x s]; simpl.
  - destruct (Str.starts_with p []); [done | split; done].
  - destruct (Str.starts_with p (x :: s)); [done|].
    split; [|done]. intros H. apply find_from_ge in H. lia.
Qed.

Lemma find_from_Some p s i k :
  Str.find_from p s i = Some k ->
  exists pre post, s = pre ++ p ++ post /\ k = i + length pre.
Proof.
  revert i. induction s as [|x s IH]; intros i; simpl.
  - destruct (Str.starts_with p []) eqn:E; [|done].
    intros [= <-]. apply starts_with_spec in E as [rest E].
    exists [], rest. split; [done | simpl; lia].
  - destruct (Str.starts_with p (x :: s)) eqn:E.
    + intros [= <-]. apply starts_with_spec in E as [rest E].
      exists [], rest. split; [done | simpl; lia].
    + intros H. apply IH in H as (pre & post & -> & ->).
      exists (x :: pre), post. split; [done | simpl; lia].
Qed.

Lemma find_from_occurs p pre post i :
  is_Some (Str.find_from p (pre ++ p ++ post) i).
Proof.
  revert i. induction pre as [|x pre IH]; intros i; simpl.
  - assert (E : Str.starts_with p (p ++ post) = true)
      by (apply starts_with_spec; eauto).
    destruct (p ++ post); simpl; rewrite E; eauto.
  - destruct (Str.starts_with p (x :: pre ++ p ++ post)); eauto.
Qed.

Lemma find_0 p s : Str.find p 0 s = Str.find_from p s 0.
Proof. unfold Str.find. by rewrite drop_0. Qed.

(** [s.find(p) != npos] exactly when [p] occurs in [s]. *)
Lemma find_is_Some p s :
  is_Some (Str.find p 0 s) <-> exists pre post, s = pre ++ p ++ post.
Proof.
  rewrite find_0. split.
  - intros [k H]. apply find_from_Some in H as (pre & post & ? & _). eauto.
  - intros (pre & post & ->). apply find_from_occurs.
Qed.

(** [s.find(p) == 0] exactly when [s] begins with [p]. *)
Lemma find_at_0 p s :
  Str.find p 0 s = Some 0 <-> exists rest, s = p ++ rest.
Proof. by rewrite find_0, find_from_here, starts_with_spec. Qed.

(** ** The escape-sequence filter *)

Section RemoveAnsi.
Import PlayerList.

Lemma skip_params_length s : length (skip_params s) <= length s.
Proof.
  induction s as [|c s IH]; simpl; [lia|].
  destruct (is_digit c || Ascii.eqb c ";"); simpl; lia.
Qed.

(** Any number of rounds from the length of the text on gives the same
    result: [remove_ansi] runs its loop to the end of the text. *)
Lemma remove_ansi_loop_enough n : forall m s,
  length s <= n -> length s <= m -> remove_ansi_loop n s = remove_ansi_loop m s.
Proof.
  induction n as [|n IH]; intros m s Hn Hm.
  - destruct s; [|simpl in Hn; lia]. by destruct m.
  - destruct s as [|c rest]; [by destruct m|].
    destruct m as [|m]; [simpl in Hm; lia|]. simpl in Hn, Hm.
    cbn [remove_ansi_loop].
    pose proof (skip_params_length rest) as Hsk.
    destruct (Ascii.eqb c ESC).
    + destruct rest as [|b rest']; [apply IH; simpl; lia|].
      destruct (Ascii.eqb b "["); [|apply IH; simpl in *; lia].
      pose proof (skip_params_length rest') as Hsk'.
      destruct (skip_params rest') as [|l r]; [done|]. simpl in *.
      destruct (is_letter l); apply IH; simpl; lia.
    + destruct (Ascii.eqb c "["); [|f_equal; apply IH; lia].
      destruct rest as [|d rest']; [f_equal; apply IH; simpl; lia|].
      destruct (is_digit d); [|f_equal; apply IH; simpl in *; lia].
      destruct (skip_params (d :: rest')) as [|x r]; [f_equal; apply IH; simpl in *; lia|].
      simpl in *.
      destruct (Ascii.eqb x "m"); [apply IH; lia | f_equal; apply IH; simpl; lia].
Qed.

Lemma remove_ansi_rounds s k : remove_ansi_loop (length s + k) s = remove_ansi s.
Proof. apply remove_ansi_loop_enough; lia. Qed.

End RemoveAnsi.

(** ** The vote engine *)

Section VoteClaims.
Import CommandRequest.


(** C9: the checks of [vote] come in a fixed order. A request that does
    not exist gives 2 whatever the address; a request already executed
    gives 3, also when the address is among its voters; only then does a
    repeated address give 1. *)
Theorem C9_vote_priority (request_id ip : str) (m : t) :
  (requests_ m !! request_id = None -> (vote request_id ip m).1 = 2%Z) /\
  (forall r, requests_ m !! request_id = Some r -> executed r = true ->
             (vote request_id ip m).1 = 3%Z) /\
  (forall r, requests_ m !! request_id = Some r -> executed r = false ->
             ip ∈ voted_ips r -> (vote request_id ip m).1 = 1%Z).
Proof.
  unfold vote. split_and!.
  - by intros ->.
  - intros r -> ->. done.
  - intros r -> -> Hip. by rewrite bool_decide_eq_true_2.
Qed.

End VoteClaims.

Section VoteWitnesses.
Import CommandRequest.


(** The executed request [r3] holds the address 1.2.3.4: the answer is 3,
    not 1; and a request that does not exist gives 2. *)
Lemma C9_vote_priority_witness :
  (vote (lit "r3") (lit "1.2.3.4") Samples.engine).1 = 3%Z /\
  (vote (lit "r9") (lit "1.2.3.4") Samples.engine).1 = 2%Z.
Proof.
  split.
  - apply (proj1 (proj2 (C9_vote_priority (lit "r3") (lit "1.2.3.4") Samples.engine))
             Samples.r3); reflexivity.
  - apply (proj1 (C9_vote_priority (lit "r9") (lit "1.2.3.4") Samples.engine)).
    reflexivity.
Defined.

End VoteWitnesses.

(** ** Self-pardon *)

Section SelfPardon.
Import CommandRequest VoteSpec.

Lemma is_self_pardon_folded applicant command :
  is_self_pardon applicant command =
  match Str.find (lit "pardon") 0 (folded_command command) with
  | Some O =>
      match Str.find (Str.to_lower applicant) 0 (drop 6 (folded_command command)) with
      | Some _ => true
      | None => false
      end
  | _ => false
  end.
Proof.
  unfold is_self_pardon, folded_command, Str.substr_from.
  destruct (Str.to_lower (Str.remove_spaces command)) as [|c rest]; [done|].
  by destruct (Ascii.eqb c "/").
Qed.

Lemma tolower_case_fold s : Str.to_lower s = case_fold s.
Proof.
  unfold Str.to_lower, case_fold. apply map_ext. intros c.
  by destruct c as [[] [] [] [] [] [] [] []].
Qed.

Lemma remove_spaces_strip s : Str.remove_spaces s = strip blank_and_tab s.
Proof.
  unfold Str.remove_spaces. induction s as [|c s IH]; [done|].
  cbn [strip existsb blank_and_tab]. rewrite <- IH.
  destruct (Ascii.eqb c " ") eqn:E1.
  { apply ascii_eqb_true in E1 as ->. done. }
  destruct (Ascii.eqb c "009") eqn:E2.
  { apply ascii_eqb_true in E2 as ->. done. }
  apply ascii_eqb_false in E1, E2. cbn [orb].
  rewrite filter_cons_True; [done|]. by split.
Qed.

Lemma folded_command_spec command :
  folded_command command = drop_slash (case_fold (strip blank_and_tab command)).
Proof.
  unfold folded_command. rewrite remove_spaces_strip, tolower_case_fold.
  destruct (case_fold (strip blank_and_tab command)) as [|c rest]; [done|].
  by destruct c as [[] [] [] [] [] [] [] []].
Qed.

(** C7, counterexample: a line feed inside the word. White space
    stripped, "/par<LF>don bob" reads "/pardonbob", a pardon of Bob by the
    sentence of the specification; [is_self_pardon] keeps the line feed
    and answers false. *)
Lemma C7_line_feed_is_kept :
  self_pardon_spec white_space (lit "Bob") (lit "/par" ++ [Str.nl] ++ lit "don bob") /\
  is_self_pardon (lit "Bob") (lit "/par" ++ [Str.nl] ++ lit "don bob") = false.
Proof.
  split; [|reflexivity].
  exists (lit "bob"). split; [reflexivity|]. by exists [], [].
Qed.

(** C7 (amended): [is_self_pardon] answers true exactly when the command,
    with its blanks and tabs removed (no other white space), case-folded
    and without a leading slash, begins with "pardon" and continues with
    a text that contains the applicant's case-folded name. "/pardon bob"
    is a self-pardon of Bob, "/pardon carol" is not. *)
Theorem C7_is_self_pardon :
  (forall applicant command,
      is_self_pardon applicant command = true
      <-> self_pardon_spec blank_and_tab applicant command) /\
  is_self_pardon (lit "Bob") (lit "/pardon bob") = true /\
  is_self_pardon (lit "Bob") (lit "/pardon carol") = false.
Proof.
  split; [|split; reflexivity].
  intros applicant command. rewrite is_self_pardon_folded. unfold self_pardon_spec.
  rewrite <- folded_command_spec, <- tolower_case_fold.
  split.
  - destruct (Str.find (lit "pardon") 0 (folded_command command)) as [[|n]|] eqn:E;
      [|done|done].
    apply find_at_0 in E as [rest E]. rewrite E.
    change (drop 6 (lit "pardon" ++ rest)) with rest.
    destruct (Str.find (Str.to_lower applicant) 0 rest) eqn:E2; [|done].
    intros _. exists rest. split; [done|].
    apply find_is_Some. by rewrite E2.
  - intros (rest & E & Hocc).
    rewrite (proj2 (find_at_0 (lit "pardon") (folded_command command)))
      by (by exists rest).
    rewrite E. change (drop 6 (lit "pardon" ++ rest)) with rest.
    apply find_is_Some in Hocc as [k ->]. done.
Qed.

End SelfPardon.

(** ** The supervisor's command path *)

Section Supervisor.
Import ServerManager.

(** C10: when the supervisor is not running, [execute_command] leaves the
    supervisor and the world as they are. When it is running, the command
    without one leading slash (if it has one) and with one newline after
    it is handed to the child's [send_string], and nothing else changes;
    with the child alive these bytes are added to its standard input. *)
Theorem C10_execute_command (command : str) (sm : t) (w : World) :
  (running_ sm = false -> execute_command command sm w = (sm, w)) /\
  (running_ sm = true ->
   exists cmd,
     (command = "/"%char :: cmd \/ (cmd = command /\ forall rest, command <> "/"%char :: rest)) /\
     execute_command command sm w = (sm, (world_send (cmd ++ [Str.nl]) w).2) /\
     (Program.running_ (w_child w) = true -> Program.stdin_pipe_w (w_child w) <> (-1)%Z ->
      (execute_command command sm w).2
      = mk_world (w_clock w)
          (Program.mk true (Program.stdin_pipe_w (w_child w))
             (Program.stdin_written (w_child w) ++ cmd ++ [Str.nl]))
          (w_player_file w) (w_banned_file w))).
Proof.
  unfold execute_command. split; [by intros ->|].
  intros ->. cbn [negb].
  set (cmd := match command with
              | c :: _ => if Ascii.eqb c "/" then Str.substr_from 1 command else command
              | [] => command
              end).
  exists cmd. split_and!.
  - subst cmd. destruct command as [|c rest]; [right; by split|].
    destruct (Ascii.eqb c "/") eqn:E.
    + apply ascii_eqb_true in E as ->. by left.
    + apply ascii_eqb_false in E. right. split; [done|]. intros rest' [= ? _]. done.
  - by destruct (world_send (cmd ++ [Str.nl]) w).
  - intros Hrun Hfd. unfold world_send, Program.send_string.
    rewrite Hrun. apply Z.eqb_neq in Hfd. rewrite Hfd. done.
Qed.

(** A running supervisor with a live child is asked for "/say hi": the
    child reads "say hi" and a newline. A second slash would stay. *)
Lemma C10_execute_command_witness :
  Program.stdin_written
    (w_child (execute_command (lit "/say hi") (mk true) Samples.world0).2)
  = lit "say hi" ++ [Str.nl] /\
  execute_command (lit "/say hi") (mk false) Samples.world0 = (mk false, Samples.world0).
Proof.
  destruct (C10_execute_command (lit "/say hi") (mk true) Samples.world0) as [_ Hon].
  destruct (Hon eq_refl) as (cmd & [Hcmd|[_ Hno]] & _ & Hlive).
  - injection Hcmd as <-. split.
    + rewrite Hlive; [reflexivity | reflexivity | discriminate].
    + apply (proj1 (C10_execute_command (lit "/say hi") (mk false) Samples.world0)).
      reflexivity.
  - exfalso. by apply (Hno (lit "say hi")).
Defined.

End Supervisor.

(** ** The executor *)

Section Executor.
Import CommandRequest VoteSpec.

Lemma world_now_clock w :
  (world_now w).1 = Chrono.readings (w_clock w) (Chrono.taken (w_clock w)) /\
  Chrono.readings (w_clock (world_now w).2) = Chrono.readings (w_clock w) /\
  Chrono.taken (w_clock (world_now w).2) = S (Chrono.taken (w_clock w)).
Proof. done. Qed.

Lemma sweep_cons threshold k r rest w :
  sweep threshold ((k, r) :: rest) w =
  if ready threshold r
  then ((k, mark_executed (world_now w).1 r)
          :: (sweep threshold rest (world_now w).2).1.1,
        mark_executed (world_now w).1 r
          :: (sweep threshold rest (world_now w).2).1.2,
        (sweep threshold rest (world_now w).2).2)
  else ((k, r) :: (sweep threshold rest w).1.1,
        (sweep threshold rest w).1.2,
        (sweep threshold rest w).2).
Proof.
  cbn [sweep]. destruct (ready threshold r).
  - destruct (world_now w) as [now w1]; cbn [fst snd].
    by destruct (sweep threshold rest w1) as [[? ?] ?].
  - by destruct (sweep threshold rest w) as [[? ?] ?].
Qed.

(** The locked loop: keys stay, every entry that passes the test is
    marked with a reading of the clock taken in the loop and copied once,
    every other entry stays as it is. *)
Lemma sweep_spec threshold entries : forall w,
  let passing := List.filter (fun kv => ready threshold kv.2) entries in
  (sweep threshold entries w).1.1.*1 = entries.*1 /\
  map (fun r => (command r, applicant r)) (sweep threshold entries w).1.2
    = map (fun kv => (command kv.2, applicant kv.2)) passing /\
  Chrono.readings (w_clock (sweep threshold entries w).2) = Chrono.readings (w_clock w) /\
  Chrono.taken (w_clock (sweep threshold entries w).2)
    = Chrono.taken (w_clock w) + length passing /\
  (forall k r, (k, r) ∈ entries ->
     if ready threshold r
     then exists n, Chrono.taken (w_clock w) <= n < Chrono.taken (w_clock w) + length passing /\
                    (k, mark_executed (Chrono.readings (w_clock w) n) r)
                      ∈ (sweep threshold entries w).1.1
     else (k, r) ∈ (sweep threshold entries w).1.1).
Proof.
  induction entries as [|[k0 r0] rest IH]; intros w; cbv zeta.
  { simpl. split_and!; try done. intros k r H. by apply elem_of_nil in H. }
  rewrite sweep_cons. cbn [List.filter snd].
  destruct (ready threshold r0) eqn:Hr0.
  - destruct (world_now_clock w) as (Hnow & Hrd & Htk).
    specialize (IH (world_now w).2). cbv zeta in IH.
    destruct IH as (IH1 & IH2 & IH3 & IH4 & IH5).
    cbn [fst snd fmap list_fmap map length].
    split_and!.
    + by rewrite <- IH1.
    + by rewrite IH2.
    + by rewrite IH3.
    + rewrite IH4, Htk. lia.
    + intros k r [[= -> ->]|Hin]%elem_of_cons.
      * rewrite Hr0. exists (Chrono.taken (w_clock w)). split; [lia|].
        rewrite <- Hnow. apply elem_of_cons. by left.
      * specialize (IH5 k r Hin). destruct (ready threshold r).
        -- destruct IH5 as (n & Hn & Hin'). exists n. split; [lia|].
           rewrite <- Hrd. apply elem_of_cons. by right.
        -- apply elem_of_cons. by right.
  - specialize (IH w). cbv zeta in IH.
    destruct IH as (IH1 & IH2 & IH3 & IH4 & IH5).
    cbn [fst snd fmap list_fmap map length].
    split_and!; try done.
    + by rewrite <- IH1.
    + intros k r [[= -> ->]|Hin]%elem_of_cons.
      * rewrite Hr0. apply elem_of_cons. by left.
      * specialize (IH5 k r Hin). destruct (ready threshold r).
        -- destruct IH5 as (n & Hn & Hin'). exists n. split; [lia|].
           apply elem_of_cons. by right.
        -- apply elem_of_cons. by right.
Qed.

Lemma check_and_execute_requests m w :
  requests_ (check_and_execute m w).1.1
  = list_to_map (sweep (vote_threshold_ m) (map_to_list (requests_ m)) w).1.1.
Proof.
  unfold check_and_execute.
  destruct (sweep _ _ w) as [[entries to_execute] w1].
  by destruct (execute_callback_ m).
Qed.

(** The locked loop touches nothing but the clock, which it reads once
    for each entry that passes. *)
Lemma sweep_world threshold entries : forall w,
  (sweep threshold entries w).2
  = mk_world
      (Chrono.mk_clock (Chrono.readings (w_clock w))
         (Chrono.taken (w_clock w)
          + length (List.filter (fun kv => ready threshold kv.2) entries)))
      (w_child w) (w_player_file w) (w_banned_file w).
Proof.
  induction entries as [|[k r] rest IH]; intros w.
  - destruct w as [[readings taken] child pf bf]. simpl. by rewrite Nat.add_0_r.
  - rewrite sweep_cons. cbn [List.filter snd].
    destruct (ready threshold r); cbn [fst snd length]; rewrite IH; [|done].
    destruct w as [[readings taken] child pf bf]. simpl. do 2 f_equal. lia.
Qed.

(** Invocations with the same arguments in the same order do the same to
    the world. *)
Lemma calls_agree (callback : str -> str -> World -> World) (rs : list RequestInfo) :
  forall (kvs : list (str * RequestInfo)) w,
  map (fun r => (command r, applicant r)) rs
  = map (fun kv => (command kv.2, applicant kv.2)) kvs ->
  foldl (fun w r => callback (command r) (applicant r) w) w rs
  = foldl (fun w kv => callback (command kv.2) (applicant kv.2) w) w kvs.
Proof.
  induction rs as [|r rs IH]; intros [|kv kvs] w; simpl; try done.
  intros [= H1 H2 H3]. rewrite H1, H2. by apply IH.
Qed.

(** C3: one pass of the executor, with a callback installed. A request
    that was not executed and had at least [vote_threshold_] voters before
    the pass is afterwards the same request with [executed] set and
    [executed_at] a reading of the clock taken during the pass. A request
    below the threshold or executed before is unchanged, and no request
    appears or disappears. The callback is invoked once for each ready
    entry of the map, with its command and its applicant, and for nothing
    else: the list of its invocations is the list of the ready entries,
    whose keys do not repeat, and the world after the pass is the world
    with the clock read once per ready entry and then the callback applied
    for each ready entry in turn. *)
Theorem C3_check_and_execute (m : t) (w : World) (callback : str -> str -> World -> World) :
  execute_callback_ m = Some callback ->
  (forall k r, requests_ m !! k = Some r -> ready (vote_threshold_ m) r = true ->
     exists n r',
       Chrono.taken (w_clock w) <= n < Chrono.taken (w_clock w) + length (ready_entries m) /\
       requests_ (check_and_execute m w).1.1 !! k = Some r' /\
       r' = mark_executed (Chrono.readings (w_clock w) n) r /\
       executed r' = true /\
       executed_at r' = Chrono.readings (w_clock w) n) /\
  (forall k r, requests_ m !! k = Some r -> ready (vote_threshold_ m) r = false ->
     requests_ (check_and_execute m w).1.1 !! k = Some r) /\
  (forall k, requests_ m !! k = None ->
     requests_ (check_and_execute m w).1.1 !! k = None) /\
  (check_and_execute m w).1.2
    = map (fun kv => (command kv.2, applicant kv.2)) (ready_entries m) /\
  NoDup (ready_entries m).*1 /\
  (check_and_execute m w).2
    = foldl (fun w' kv => callback (command kv.2) (applicant kv.2) w')
        (mk_world
           (Chrono.mk_clock (Chrono.readings (w_clock w))
              (Chrono.taken (w_clock w) + length (ready_entries m)))
           (w_child w) (w_player_file w) (w_banned_file w))
        (ready_entries m).
Proof.
  intros Hcb.
  pose proof (sweep_spec (vote_threshold_ m) (map_to_list (requests_ m)) w) as Hs.
  cbv zeta in Hs. destruct Hs as (Hkeys & Hcalls & _ & _ & Hin).
  assert (Hnd : NoDup (sweep (vote_threshold_ m) (map_to_list (requests_ m)) w).1.1.*1).
  { rewrite Hkeys. apply NoDup_fst_map_to_list. }
  split_and!.
  - intros k r Hk Hready. apply elem_of_map_to_list in Hk.
    specialize (Hin k r Hk). rewrite Hready in Hin. destruct Hin as (n & Hn & Hin).
    exists n, (mark_executed (Chrono.readings (w_clock w) n) r).
    split; [exact Hn|]. split; [|done].
    rewrite check_and_execute_requests. by apply elem_of_list_to_map_1.
  - intros k r Hk Hready. apply elem_of_map_to_list in Hk.
    specialize (Hin k r Hk). rewrite Hready in Hin.
    rewrite check_and_execute_requests. by apply elem_of_list_to_map_1.
  - intros k Hk. rewrite check_and_execute_requests.
    apply not_elem_of_list_to_map_1. rewrite Hkeys.
    intros ((k' & r) & -> & Hin')%list_elem_of_fmap.
    apply elem_of_map_to_list in Hin'. simpl in Hk. congruence.
  - unfold check_and_execute, ready_entries. rewrite Hcb.
    destruct (sweep _ _ w) as [[entries to_execute] w1]. simpl in *. done.
  - unfold ready_entries.
    assert (Hg : forall (l : list (str * RequestInfo)) f, NoDup l.*1 -> NoDup (List.filter f l).*1).
    { intros l f. induction l as [|x l IH]; simpl; [done|].
      rewrite NoDup_cons. intros [Hx Hl]. destruct (f x); simpl; [|by apply IH].
      apply NoDup_cons. split; [|by apply IH].
      intros ((k' & r') & E & Hin')%list_elem_of_fmap. apply Hx.
      apply list_elem_of_fmap. exists (k', r'). split; [done|].
      apply list_elem_of_In. apply list_elem_of_In in Hin'.
      apply List.filter_In in Hin'. tauto. }
    apply Hg, NoDup_fst_map_to_list.
  - pose proof (sweep_world (vote_threshold_ m) (map_to_list (requests_ m)) w) as Hw.
    unfold check_and_execute, ready_entries. rewrite Hcb.
    destruct (sweep _ _ w) as [[entries to_execute] w1]. cbn [fst snd] in *.
    rewrite <- Hw. by apply calls_agree.
Qed.

End Executor.

Section ExecutorWitness.
Import CommandRequest VoteSpec.

(** Scenario 4 of the specification on the sample engine: of the three
    requests only [r1] is ready; it is marked, and its command reaches
    the child through the supervisor, once. *)
Lemma C3_check_and_execute_witness :
  (check_and_execute Samples.engine Samples.world0).1.2 = [(lit "/pardon bob", lit "Bob")] /\
  (exists r', requests_ (check_and_execute Samples.engine Samples.world0).1.1 !! lit "r1"
              = Some r' /\ executed r' = true /\ executed_at r' = Samples.t0) /\
  requests_ (check_and_execute Samples.engine Samples.world0).1.1 !! lit "r2"
    = Some Samples.r2 /\
  Program.stdin_written (w_child (check_and_execute Samples.engine Samples.world0).2)
    = lit "pardon bob" ++ [Str.nl].
Proof.
  destruct (C3_check_and_execute Samples.engine Samples.world0 Samples.forward eq_refl)
    as (Hready & Hother & _ & Hcalls & _ & Hworld).
  split_and!.
  - rewrite Hcalls. reflexivity.
  - destruct (Hready (lit "r1") Samples.r1) as (n & r' & _ & Hl & _ & He & Ht);
      [reflexivity | reflexivity |].
    exists r'. split_and!; [exact Hl | exact He | exact Ht].
  - apply Hother; reflexivity.
  - rewrite Hworld. reflexivity.
Defined.

End ExecutorWitness.

(** ** 64-bit time arithmetic *)

Section ChronoFacts.
Import Chrono.
Open Scope Z_scope.

Lemma wrap64_small z : - 2 ^ 63 <= z < 2 ^ 63 -> wrap64 z = z.
Proof. intros H. unfold wrap64. pow64. rewrite Z.mod_small; lia. Qed.

Lemma wrap64_range z : - 2 ^ 63 <= wrap64 z <= time_point_max.
Proof.
  unfold wrap64, time_point_max. pow64.
  pose proof (Z.mod_pos_bound (z + 9223372036854775808) 18446744073709551616 ltac:(lia)).
  lia.
Qed.

(** For a time after the epoch and while the sum stays in the clock's
    range, adding hours is exact. *)
Lemma plus_hours_exact now h :
  0 <= now -> 0 <= h -> now + h * ns_per_hour <= time_point_max ->
  plus_hours now (hours h) = now + h * ns_per_hour.
Proof.
  unfold plus_hours, hours, time_point_max, ns_per_hour, ns_per_second.
  intros Hnow Hh Hsum.
  rewrite (wrap64_small h) by (pow64; lia).
  rewrite (wrap64_small (h * _)) by (pow64; lia).
  apply wrap64_small. pow64. lia.
Qed.

(** A time made from whole seconds is an even count of nanoseconds. *)
Lemma from_time_t_even x : Z.even (from_time_t x) = true.
Proof.
  unfold from_time_t, wrap64, ns_per_second. pow64.
  rewrite Z.mod_eq by lia.
  replace (x * 1000000000 + 9223372036854775808
           - 18446744073709551616
             * ((x * 1000000000 + 9223372036854775808) / 18446744073709551616)
           - 9223372036854775808)
    with (2 * (x * 500000000
               - 9223372036854775808
                 * ((x * 1000000000 + 9223372036854775808) / 18446744073709551616)))
    by lia.
  apply Z.even_mul.
Qed.

(** An hour count beyond the signed range is read as a negative one. *)
Lemma hours_wraps : hours uint64_max = -1.
Proof. reflexivity. Qed.

End ChronoFacts.

(** ** Ban *)

Section BanClaims.
Context {libc : Chrono.Libc}.
Import PlayerList.
Open Scope Z_scope.

(** What [ban] does, for every input: the record it makes replaces any
    record under that name, the line goes to the child's [send_string],
    and both files are rewritten. *)
Lemma ban_effect (player reason : str) (banned_hours : Z) (pl : t) (w : World) :
  let now := (world_now w).1 in
  let info := mk_banned player reason now
                (if banned_hours =? 0 then Chrono.time_point_max
                 else Chrono.plus_hours now (Chrono.hours banned_hours))
                (banned_hours =? 0) in
  let line := lit "ban " ++ player ++ lit " " ++ reason ++ [Str.nl] in
  (ban player reason banned_hours pl w).1.1 = true /\
  banned_players_ (ban player reason banned_hours pl w).1.2
    = <[player := info]> (banned_players_ pl) /\
  all_players_ (ban player reason banned_hours pl w).1.2 = all_players_ pl /\
  w_child (ban player reason banned_hours pl w).2
    = (Program.send_string line (w_child w)).2.
Proof.
  unfold ban, world_now, world_send, save_files; simpl.
  destruct (Program.send_string _ (w_child w)); simpl. done.
Qed.

(** A permanent ban holds the largest time the clock can represent; a
    ban for a number of hours that the clock's range can hold ends that
    many hours after it began; with the child alive the ban line is added
    to its standard input in both cases. *)
Lemma ban_in_range (player reason : str) (banned_hours : Z) (pl : t) (w : World) :
  let now := (world_now w).1 in
  0 <= now <= Chrono.time_point_max ->
  0 <= banned_hours ->
  now + banned_hours * Chrono.ns_per_hour <= Chrono.time_point_max ->
  exists info,
    banned_players_ (ban player reason banned_hours pl w).1.2 !! player = Some info /\
    name info = player /\ PlayerList.reason info = reason /\ ban_time info = now /\
    (banned_hours = 0 ->
       is_permanent info = true /\ unban_time info = Chrono.time_point_max /\
       now <= unban_time info) /\
    (0 < banned_hours ->
       is_permanent info = false /\
       unban_time info = now + banned_hours * Chrono.ns_per_hour) /\
    (Program.running_ (w_child w) = true -> Program.stdin_pipe_w (w_child w) <> -1 ->
       Program.stdin_written (w_child (ban player reason banned_hours pl w).2)
       = Program.stdin_written (w_child w)
           ++ lit "ban " ++ player ++ lit " " ++ reason ++ [Str.nl]).
Proof.
  intros now Hnow Hh Hsum.
  destruct (ban_effect player reason banned_hours pl w) as (_ & Hb & _ & Hc).
  eexists. split; [rewrite Hb; apply lookup_insert_eq|]. simpl.
  split_and!; try done.
  - intros ->. simpl. split_and!; [done | done | lia].
  - intros Hpos. destruct (Z.eqb_spec banned_hours 0) as [->|_]; [lia|].
    split; [done|]. apply plus_hours_exact; lia.
  - intros Hrun Hfd. rewrite Hc. unfold Program.send_string.
    rewrite Hrun. apply Z.eqb_neq in Hfd. rewrite Hfd. done.
Qed.

End BanClaims.

(** ** The rule scan of [process_log_line] *)

Section Moderation.
Context {libc : Chrono.Libc}.
Import Str PlayerList.

Lemma parse_log_time_world line w :
  w_child (parse_log_time line w).2 = w_child w /\
  w_player_file (parse_log_time line w).2 = w_player_file w /\
  w_banned_file (parse_log_time line w).2 = w_banned_file w.
Proof.
  unfold parse_log_time, world_now. simpl.
  destruct (find_char "[" 0 line); [|done].
  destruct (find_char " " _ line); [|done].
  destruct (Chrono.sscanf_hms _) as [[[h m] s]|]; done.
Qed.

Lemma find_never {A} (f : A -> bool) l : (forall x, f x = false) -> List.find f l = None.
Proof. intros H. induction l as [|x l IH]; simpl; [done|]. by rewrite H. Qed.

(** First rule wins: the rule a scan returns passes the test, and no rule
    loaded before it does. *)
Lemma find_first {A} (f : A -> bool) l x :
  List.find f l = Some x ->
  exists before after, l = before ++ x :: after /\ f x = true /\
                       Forall (fun y => f y = false) before.
Proof.
  induction l as [|y l IH]; simpl; [done|].
  destruct (f y) eqn:E.
  - intros [= ->]. exists [], l. split_and!; [done | done | constructor].
  - intros H. destruct (IH H) as (before & after & -> & Hx & Hb).
    exists (y :: before), after. split_and!; [done | done | by constructor].
Qed.

Lemma ban_for_rule_banned opening what closing player fc pl w :
  exists info,
    banned_players_ (ban_for_rule opening what closing player fc pl w).1
    = <[player := info]> (banned_players_ pl) /\
    name info = player /\
    w_child (ban_for_rule opening what closing player fc pl w).2
    = (Program.send_string
         (lit "ban " ++ player ++ lit " " ++ reason info ++ [nl]) (w_child w)).2.
Proof.
  unfold ban_for_rule.
  destruct (world_now w) as [now w1] eqn:Hnow.
  set (r := notice _ _ _ _ _).
  destruct (ban_effect player r (ban_hours fc) pl w1) as (_ & Hb & _ & Hc).
  destruct (ban player r (ban_hours fc) pl w1) as [[ok pl1] w2]. simpl in *.
  eexists. split; [exact Hb|]. split; [done|]. simpl. rewrite Hc.
  unfold world_now in Hnow. injection Hnow as _ <-. done.
Qed.

(** The branch for issued commands: as soon as a rule's key occurs in the
    match string, whatever stands before the marker is banned, be it
    empty or the name of nobody seen before. *)
Lemma issued_command_bans (log_line : str) (pl : t) (w : World) cs pos fc :
  let clean_line := remove_ansi log_line in
  let content := substr_from (cs + 3) clean_line in
  find (lit "]: ") 0 clean_line = Some cs ->
  find (lit " joined with ") 0 content = None ->
  find (lit " joined the game") 0 content = None ->
  find (lit " left the game") 0 content = None ->
  find (lit " issued server command: /") 0 content = Some pos ->
  List.find (fun fc => contains (keyword fc) (to_lower (remove_spaces content)))
            (forbidden_commands_ pl) = Some fc ->
  type (process_log_line log_line pl w).1.1 = PLAYER_COMMAND /\
  player_name (process_log_line log_line pl w).1.1 = trim (substr 0 pos content) /\
  is_Some (banned_players_ (process_log_line log_line pl w).1.2
             !! trim (substr 0 pos content)).
Proof.
  intros clean_line content Hcs Hj1 Hj2 Hl Hc Hf.
  unfold process_log_line. fold clean_line.
  destruct (parse_log_time clean_line w) as [ts w0].
  rewrite Hcs. fold content. rewrite Hj1, Hj2, Hl, Hc, Hf.
  set (who := trim (substr 0 pos content)).
  set (what := strip_trailing_nl _).
  destruct (ban_for_rule_banned (lit "执行被禁止的指令: /") what (lit ", 将被") who fc pl w0)
    as (info & Hb & _).
  destruct (ban_for_rule _ _ _ _ _ _ _) as [pl1 w1]. simpl in *.
  split_and!; [done | done |]. rewrite Hb, lookup_insert_eq. eauto.
Qed.

(** The branch for bracketed operations: when no known player occurs in
    the line, no rule passes the test; the registry and the child are
    left as they are. *)
Lemma bracket_without_player (log_line : str) (pl : t) (w : World) cs rest e c :
  let clean_line := remove_ansi log_line in
  let content := substr_from (cs + 3) clean_line in
  find (lit "]: ") 0 clean_line = Some cs ->
  find (lit " joined with ") 0 content = None ->
  find (lit " joined the game") 0 content = None ->
  find (lit " left the game") 0 content = None ->
  find (lit " issued server command: /") 0 content = None ->
  content = "["%char :: rest ->
  find_char "]" 0 content = Some e -> find_char ":" 0 content = Some c -> c < e ->
  (earliest_player content (elements (all_players_ pl))).1 = [] ->
  type (process_log_line log_line pl w).1.1 = PLAYER_COMMAND /\
  player_name (process_log_line log_line pl w).1.1 = [] /\
  (process_log_line log_line pl w).1.2 = pl /\
  w_child (process_log_line log_line pl w).2 = w_child w.
Proof.
  intros clean_line content Hcs Hj1 Hj2 Hl Hc Hshape He Hcolon Hlt Hnobody.
  destruct (parse_log_time_world clean_line w) as (Hchild & _ & _).
  assert (E : process_log_line log_line pl w
             = (mk_event PLAYER_COMMAND []
                  (lit "[" ++ strip_trailing_nl (substr 1 (e - 1) content) ++ lit "]") []
                  (parse_log_time clean_line w).1,
                pl, (parse_log_time clean_line w).2)).
  { unfold process_log_line. fold clean_line.
    destruct (parse_log_time clean_line w) as [ts w0].
    rewrite Hcs. fold content. rewrite Hj1, Hj2, Hl, Hc.
    rewrite He, Hcolon, Hnobody.
    rewrite Hshape at 1.
    change (Ascii.eqb "[" "[") with true. cbv iota.
    rewrite (proj2 (Nat.ltb_lt c e) Hlt).
    by rewrite find_never by (intros x; apply andb_false_r). }
  rewrite E. done.
Qed.

End Moderation.

Section BanEvaluation.
Import PlayerList.
Open Scope Z_scope.

(** C6, the code on the largest hour count: [ban] for 2^64-1 hours at
    the time [t0]. The count does not fit the signed hours of the clock
    and is read as -1: the record is not permanent and its unban time is
    one hour before its ban time, not 2^64-1 hours after it. *)
Lemma C6_ban_hours_wrap :
  exists info,
    banned_players_
      (ban (libc := Chrono.utc) (lit "Alice") (lit "griefing") Chrono.uint64_max
         Samples.registry Samples.world0).1.2 !! lit "Alice" = Some info /\
    is_permanent info = false /\
    ban_time info = Samples.t0 /\
    unban_time info = Samples.t0 - Chrono.ns_per_hour /\
    unban_time info < ban_time info.
Proof. eexists. split; [vm_compute; reflexivity|]. vm_compute. done. Qed.

(** The same for an hour count meant as "practically for ever": 9999999
    hours are more nanoseconds than 64 bits hold, and the unban time
    lands some twenty-eight years before the ban. *)
Lemma ban_9999999_hours_wraps :
  exists info,
    banned_players_
      (ban (libc := Chrono.utc) (lit "Alice") (lit "griefing") 9999999
         Samples.registry Samples.world0).1.2 !! lit "Alice" = Some info /\
    unban_time info = Samples.t0 - 893491747419103232 /\
    unban_time info < ban_time info.
Proof. eexists. split; [vm_compute; reflexivity|]. vm_compute. done. Qed.

(** C4, the code on a command line without a player name: the rule
    "killall" matches, and [ban] is invoked for the empty name. A record
    is filed under the empty name and a ban line without a name goes to
    the child. *)
Lemma C4_bans_empty_player_name :
  let line := lit "[12:35:00] [Server thread/INFO]:  issued server command: /kill all"
              ++ [Str.nl] in
  let res := process_log_line (libc := Chrono.utc) line Samples.registry Samples.world0 in
  type res.1.1 = PLAYER_COMMAND /\
  player_name res.1.1 = [] /\
  is_Some (banned_players_ res.1.2 !! []) /\
  Program.stdin_written (w_child res.2)
  = lit "ban  执行被禁止的指令: /kill all, 将被封禁至2023-11-15 22:13:20。有异议请在服务器管理网站提出解封申请。"
    ++ [Str.nl].
Proof. vm_compute. split_and!; try reflexivity. eexists. reflexivity. Qed.

(** The bracket branch on the same rule, with no known player in the
    line: the event is a command, nobody is banned, nothing is sent. *)
Lemma bracket_branch_needs_player :
  let line := lit "[12:35:00] [Server thread/INFO]: [Bob: kill all]" ++ [Str.nl] in
  let res := process_log_line (libc := Chrono.utc) line Samples.registry Samples.world0 in
  type res.1.1 = PLAYER_COMMAND /\
  player_name res.1.1 = [] /\
  banned_players_ res.1.2 = ∅ /\
  Program.stdin_written (w_child res.2) = [].
Proof. vm_compute. done. Qed.

(** Scenario 2 of the specification: Alice joins and then issues
    "/kill all" under the rule "killall", 24 hours. *)
Lemma scenario_forbidden_command :
  let join := lit "[12:34:56] [Server thread/INFO]: Player Alice joined with fabric 0.15"
              ++ [Str.nl] in
  let kill := lit "[12:35:00] [Server thread/INFO]: Alice issued server command: /kill all"
              ++ [Str.nl] in
  let s1 := process_log_line (libc := Chrono.utc) join Samples.registry Samples.world0 in
  let s2 := process_log_line (libc := Chrono.utc) kill s1.1.2 s1.2 in
  (type s1.1.1, player_name s1.1.1, client_info s1.1.1)
    = (PLAYER_JOIN, lit "Alice", lit "fabric 0.15") /\
  (type s2.1.1, player_name s2.1.1, content s2.1.1)
    = (PLAYER_COMMAND, lit "Alice", lit "/kill all") /\
  (unban_time <$> banned_players_ s2.1.2 !! lit "Alice")
    = Some (Samples.t0 + 24 * Chrono.ns_per_hour) /\
  Program.stdin_written (w_child s2.2)
  = lit "ban Alice 执行被禁止的指令: /kill all, 将被封禁至2023-11-15 22:13:20。有异议请在服务器管理网站提出解封申请。"
    ++ [Str.nl].
Proof. vm_compute. done. Qed.

End BanEvaluation.

(** ** The ban file *)

Section TrimFacts.
Import Str.

Lemma find_last_not_ws_from_snoc s c i :
  is_trim_ws c = false ->
  find_last_not_ws_from (s ++ [c]) i = Some (i + length s).
Proof.
  intros Hc. revert i. induction s as [|x s IH]; intros i; simpl.
  - rewrite Hc. f_equal. lia.
  - rewrite IH. f_equal. lia.
Qed.

(** [trim] leaves a text alone that neither begins nor ends with one of
    its four characters. *)
Lemma trim_plain c s d :
  is_trim_ws c = false -> is_trim_ws d = false ->
  trim (c :: s ++ [d]) = c :: s ++ [d].
Proof.
  intros Hc Hd. unfold trim, find_first_not_ws, find_last_not_ws. simpl.
  rewrite Hc, find_last_not_ws_from_snoc by done.
  unfold substr. rewrite drop_0.
  replace (1 + length s - 0 + 1) with (length (c :: s ++ [d]))
    by (simpl; rewrite length_app; simpl; lia).
  apply firstn_all.
Qed.

Lemma trim_single c : is_trim_ws c = false -> trim [c] = [c].
Proof.
  intros Hc. unfold trim, find_first_not_ws, find_last_not_ws. simpl.
  by rewrite Hc.
Qed.

Lemma find_char_after c pre body post :
  c ∉ body ->
  find_char c (length pre) (pre ++ body ++ c :: post) = Some (length pre + length body).
Proof.
  intros H. unfold find_char. rewrite drop_app_length.
  by apply find_char_from_split.
Qed.

Lemma substr_middle pre body post :
  substr (length pre) (length body) (pre ++ body ++ post) = body.
Proof. unfold substr. by rewrite drop_app_length, take_app_length. Qed.

Lemma substr_from_app pre post : substr_from (length pre) (pre ++ post) = post.
Proof. apply drop_app_length. Qed.

Lemma getlines_aux_line cur body rest :
  nl ∉ body ->
  getlines_aux cur (body ++ nl :: rest) = (rev cur ++ body) :: getlines_aux [] rest.
Proof.
  revert cur. induction body as [|c body IH]; intros cur H; simpl.
  - by rewrite app_nil_r.
  - apply not_elem_of_cons in H as [Hc Hb].
    rewrite (proj2 (ascii_eqb_false c nl)) by congruence.
    rewrite IH by done. simpl. by rewrite <- app_assoc.
Qed.

(** A text made of lines, each closed by a newline, reads back as those
    lines. *)
Lemma getlines_concat (bodies : list str) :
  Forall (fun b => nl ∉ b) bodies ->
  getlines (concat (map (fun b => b ++ [nl]) bodies)) = bodies.
Proof.
  unfold getlines. induction 1 as [|b bodies Hb _ IH]; simpl; [done|].
  rewrite <- app_assoc. simpl. rewrite getlines_aux_line by done.
  simpl. by rewrite IH.
Qed.

End TrimFacts.

Section BanFileFacts.
Context {libc : Chrono.Libc}.
Import Str PlayerList BanFile.

Lemma no_char_spec c s : no_char c s = true <-> c ∉ s.
Proof.
  unfold no_char. induction s as [|x s IH]; simpl.
  - split; [intros _; apply not_elem_of_nil | done].
  - rewrite andb_true_iff, IH, not_elem_of_cons, negb_true_iff, ascii_eqb_false.
    split; intros [? ?]; split; congruence.
Qed.

Lemma str_eqb_true a b : str_eqb a b = true <-> a = b.
Proof. unfold str_eqb. apply bool_decide_eq_true. Qed.

Lemma banned_line_body info : banned_line info = banned_body info ++ [nl].
Proof. unfold banned_line, banned_body. by rewrite <- !app_assoc. Qed.

Lemma survives_no_nl key info :
  survives key info = true -> nl ∉ banned_body info.
Proof.
  unfold survives, plain_field. rewrite !andb_true_iff, !no_char_spec.
  intros H. destruct H as [[[[[[[[[_ [_ H1]] _] [_ H2]] [_ H3]] _] H4] _] _] _].
  unfold banned_body. rewrite !not_elem_of_app. split_and!; try done;
    (intros Hin; apply list_elem_of_singleton in Hin; discriminate).
Qed.

Lemma survives_trim key info :
  survives key info = true -> trim (banned_body info) = banned_body info.
Proof.
  unfold survives. rewrite !andb_true_iff.
  intros H. destruct H as [[[[[[[[[_ _] Hs] _] _] _] _] He] _] _].
  unfold banned_body.
  set (ut := time_to_string (unban_time info) (is_permanent info)) in *.
  set (mid := reason info ++ lit "|" ++ time_to_string (ban_time info) false).
  assert (Hbar : is_trim_ws "|" = false) by reflexivity.
  assert (Hshape : exists c s d, is_trim_ws c = false /\ is_trim_ws d = false /\
            name info ++ lit "|" ++ reason info ++ lit "|" ++
            time_to_string (ban_time info) false ++ lit "|" ++ ut = c :: s ++ [d]).
  { destruct (name info) as [|c nm]; simpl in Hs.
    - destruct (decide (ut = [])) as [->|Hne].
      + exists "|"%char, mid, "|"%char. split_and!; [done | done |].
        unfold mid. by app_norm.
      + destruct (exists_last Hne) as (ut' & d & E).
        rewrite E in He. unfold plain_end in He. rewrite last_snoc in He.
        apply negb_true_iff in He.
        exists "|"%char, (mid ++ lit "|" ++ ut'), d. split_and!; [done | done |].
        unfold mid. rewrite E. by app_norm.
    - apply andb_true_iff in Hs as [Hc%negb_true_iff _].
      destruct (decide (ut = [])) as [->|Hne].
      + exists c, (nm ++ lit "|" ++ mid), "|"%char. split_and!; [done | done |].
        unfold mid. by app_norm.
      + destruct (exists_last Hne) as (ut' & d & E).
        rewrite E in He. unfold plain_end in He. rewrite last_snoc in He.
        apply negb_true_iff in He.
        exists c, (nm ++ lit "|" ++ mid ++ lit "|" ++ ut'), d.
        split_and!; [done | done |].
        unfold mid. rewrite E. by app_norm. }
  destruct Hshape as (c & s & d & Hc & Hd & ->). by apply trim_plain.
Qed.

End BanFileFacts.

Section ParseFacts.
Import Str.

(** The three separator searches and the four field extractions of
    [parse_banned_line] on a line of four fields, the first three of
    which hold no separator. *)
Lemma fields_of_line (n r b u : str) :
  "|"%char ∉ n -> "|"%char ∉ r -> "|"%char ∉ b ->
  let line := n ++ "|"%char :: r ++ "|"%char :: b ++ "|"%char :: u in
  let p1 := length n in
  let p2 := length n + 1 + length r in
  let p3 := length n + 1 + length r + 1 + length b in
  find_char "|" 0 line = Some p1 /\
  find_char "|" (p1 + 1) line = Some p2 /\
  find_char "|" (p2 + 1) line = Some p3 /\
  substr 0 p1 line = n /\
  substr (p1 + 1) (p2 - p1 - 1) line = r /\
  substr (p2 + 1) (p3 - p2 - 1) line = b /\
  substr_from (p3 + 1) line = u.
Proof.
  intros Hn Hr Hb line p1 p2 p3.
  assert (L1 : length (n ++ ["|"%char]) = p1 + 1)
    by (rewrite length_app; simpl; lia).
  assert (L2 : length (n ++ "|"%char :: r ++ ["|"%char]) = p2 + 1)
    by (rewrite !length_app; simpl; rewrite !length_app; simpl; lia).
  assert (L3 : length (n ++ "|"%char :: r ++ "|"%char :: b ++ ["|"%char]) = p3 + 1)
    by (rewrite !length_app; simpl; rewrite !length_app; simpl;
        rewrite !length_app; simpl; lia).
  assert (E1 : line = (n ++ ["|"%char]) ++ r ++ "|"%char :: b ++ "|"%char :: u)
    by (unfold line; by app_norm).
  assert (E2 : line = (n ++ "|"%char :: r ++ ["|"%char]) ++ b ++ "|"%char :: u)
    by (unfold line; by app_norm).
  assert (E3 : line = (n ++ "|"%char :: r ++ "|"%char :: b ++ ["|"%char]) ++ u)
    by (unfold line; by app_norm).
  split_and!.
  - apply (find_char_after "|" [] n _ Hn).
  - rewrite <- L1, E1. rewrite find_char_after by done. f_equal. unfold p2. lia.
  - rewrite <- L2, E2. rewrite find_char_after by done. f_equal. unfold p3. lia.
  - apply (substr_middle [] n).
  - replace (p2 - p1 - 1) with (length r) by (unfold p1, p2; lia).
    rewrite <- L1, E1. apply substr_middle.
  - replace (p3 - p2 - 1) with (length b) by (unfold p2, p3; lia).
    rewrite <- L2, E2. apply substr_middle.
  - rewrite <- L3, E3. apply substr_from_app.
Qed.

End ParseFacts.

Section BanFileRoundTrip.
Context {libc : Chrono.Libc}.
Import Str PlayerList BanFile.

(** A record that survives the file is read back from its own line. *)
Lemma parse_banned_body key info :
  survives key info = true ->
  parse_banned_line (banned_body info) = Some info /\ key = name info.
Proof.
  intros Hs. pose proof (survives_trim key info Hs) as Htrim.
  unfold parse_banned_line. rewrite Htrim.
  unfold survives, plain_field in Hs. rewrite !andb_true_iff in Hs.
  destruct Hs as [[[[[[[[[Hk [Hn _]] Hst] [Hr _]] [Hb _]] Hbt] _] _] Hut] Hperm].
  apply str_eqb_true in Hk. apply no_char_spec in Hn, Hr, Hb.
  apply Z.eqb_eq in Hbt, Hut. apply Bool.eqb_prop in Hperm.
  split; [|done].
  destruct (fields_of_line (name info) (reason info)
              (time_to_string (ban_time info) false)
              (time_to_string (unban_time info) (is_permanent info)) Hn Hr Hb)
    as (F1 & F2 & F3 & G1 & G2 & G3 & G4).
  change (name info ++ "|"%char :: reason info ++ "|"%char ::
          time_to_string (ban_time info) false ++ "|"%char ::
          time_to_string (unban_time info) (is_permanent info))
    with (banned_body info) in *.
  assert (Hhead : exists c rest, banned_body info = c :: rest /\ Ascii.eqb c "#" = false).
  { unfold banned_body. destruct (name info) as [|c nm]; simpl.
    - eexists _, _. split; [reflexivity | reflexivity].
    - simpl in Hst. apply andb_true_iff in Hst as [_ Hc%negb_true_iff].
      eexists _, _. split; [reflexivity | done]. }
  destruct Hhead as (c & rest & Hbody & Hc).
  rewrite Hbody at 1. rewrite Hc.
  rewrite F1, F2, F3, G1, G2, G3, G4, Hbt, Hut, Hperm.
  by destruct info.
Qed.

(** Filing a list of entries one after the other, each under its key:
    with keys that do not repeat, an entry of the list wins over what the
    map held before. *)
Lemma foldl_insert_lookup {A} (l : list (str * A)) : forall (acc : gmap str A) k,
  NoDup l.*1 ->
  foldl (fun acc kv => <[kv.1 := kv.2]> acc) acc l !! k
  = match (list_to_map l : gmap str A) !! k with
    | Some v => Some v
    | None => acc !! k
    end.
Proof.
  induction l as [|[k0 v0] l IH]; intros acc k Hnd; simpl.
  - by rewrite lookup_empty.
  - apply NoDup_cons in Hnd as [Hk0 Hnd]. rewrite IH by done.
    destruct (decide (k = k0)) as [->|Hne].
    + rewrite (not_elem_of_list_to_map_1 l k0 Hk0). by rewrite !lookup_insert_eq.
    + by rewrite !lookup_insert_ne by done.
Qed.

(** Reading the lines of surviving records files each record under its
    key. *)
Lemma load_surviving (l : list (str * BannedPlayerInfo)) :
  forall acc : gmap str BannedPlayerInfo,
  Forall (fun kv => survives kv.1 kv.2 = true) l ->
  foldl (fun acc raw => match parse_banned_line raw with
                        | Some info => <[name info := info]> acc
                        | None => acc
                        end) acc (map (fun kv => banned_body kv.2) l)
  = foldl (fun acc kv => <[kv.1 := kv.2]> acc) acc l.
Proof.
  induction l as [|[k v] l IH]; intros acc Hl; simpl; [done|].
  apply Forall_cons in Hl as [Hkv Hl]. simpl in Hkv.
  destruct (parse_banned_body k v Hkv) as [-> ->]. by apply IH.
Qed.

Lemma banned_text_lines (pl : t) :
  map_Forall (fun k info => survives k info = true) (banned_players_ pl) ->
  getlines (banned_text pl)
  = banned_header :: map (fun kv => banned_body kv.2) (map_to_list (banned_players_ pl)).
Proof.
  intros Hall. unfold banned_text.
  replace (banned_header ++ [nl] ++
           concat (map (fun kv => banned_line kv.2) (map_to_list (banned_players_ pl))))
    with (concat (map (fun b => b ++ [nl])
            (banned_header :: map (fun kv => banned_body kv.2)
                                (map_to_list (banned_players_ pl))))).
  - apply getlines_concat. constructor.
    + apply no_char_spec. reflexivity.
    + apply Forall_map, Forall_forall. intros [k info] Hin. simpl.
      apply elem_of_map_to_list in Hin.
      apply (survives_no_nl k). by apply Hall.
  - cbn [map concat]. rewrite <- app_assoc. do 3 f_equal.
    rewrite map_map. apply map_ext. intros [k info]. simpl.
    by rewrite banned_line_body.
Qed.

End BanFileRoundTrip.

Section BanFileLoss.
Context {libc : Chrono.Libc}.
Import Str PlayerList BanFile.

Lemma parse_banned_line_coarse raw info :
  parse_banned_line raw = Some info -> coarse info.
Proof.
  unfold parse_banned_line.
  destruct (trim raw) as [|c l]; [done|].
  destruct (Ascii.eqb c "#"); [done|].
  destruct (find_char "|" 0 _) as [p1|]; [|done].
  destruct (find_char "|" (p1 + 1) _) as [p2|]; [|done].
  destruct (find_char "|" (p2 + 1) _) as [p3|]; [|done].
  intros [= <-]. unfold coarse, string_to_time; simpl.
  destruct (str_eqb _ sentinel_text); [by left | right; apply from_time_t_even].
Qed.

Lemma load_banned_coarse text : forall k info,
  load_banned text ∅ !! k = Some info -> coarse info.
Proof.
  unfold load_banned.
  assert (H : forall lines (acc : gmap str BannedPlayerInfo),
             map_Forall (fun _ v => coarse v) acc ->
             map_Forall (fun _ v => coarse v)
               (foldl (fun acc raw => match parse_banned_line raw with
                                      | Some info => <[name info := info]> acc
                                      | None => acc
                                      end) acc lines)).
  { induction lines as [|raw lines IH]; intros acc Hacc; simpl; [done|].
    apply IH. destruct (parse_banned_line raw) as [info|] eqn:E; [|done].
    apply map_Forall_insert_2; [by eapply parse_banned_line_coarse | done]. }
  intros k info. apply (H (getlines text) ∅). apply map_Forall_empty.
Qed.

(** Whatever the C library and the time zone: a registry that holds a
    ban time with an odd count of nanoseconds does not come back from its
    files. *)
Lemma fraction_lost_any_libc (pl : t) (w : World) k info :
  banned_players_ pl !! k = Some info ->
  Z.even (ban_time info) = false -> ban_time info <> Chrono.time_point_max ->
  ~ round_trips pl w.
Proof.
  intros Hk Hodd Hmax Hrt. unfold round_trips, create, load_files, save_files in Hrt.
  simpl in Hrt. rewrite <- Hrt in Hk.
  apply load_banned_coarse in Hk as [?|?]; congruence.
Qed.

End BanFileLoss.

Section BanFileClaims.
Import Str PlayerList BanFile.

Lemma parse_banned_header {libc : Chrono.Libc} : parse_banned_line banned_header = None.
Proof. reflexivity. Qed.

(** C5, counterexample: Eve is banned for good at a time that is not a
    whole second, which is what the clock returns. [ban] writes the
    files; a registry constructed from them holds Eve's ban time without
    its fraction of a second. *)
Lemma C5_ban_time_loses_fraction :
  ~ round_trips (libc := Chrono.utc)
      (ban (libc := Chrono.utc) (lit "Eve") (lit "griefing") 0
         Samples.registry Samples.world0).1.2
      Samples.world0.
Proof.
  unfold round_trips. intros H.
  apply (f_equal (fun m => ban_time <$> m !! lit "Eve")) in H.
  vm_compute in H. discriminate.
Qed.

(** C5 (amended): take any registry whose ban records survive the text
    format, that is, each is filed under its own name, its name and
    reason hold no '|' and no newline, its name does not begin with
    white space or '#', its times are printed by the C library as text
    that reads back as the same times, and it is permanent exactly when
    its unban time prints as "0000-00-00 00:00:00". Then [save_files]
    followed by the construction of a fresh registry from the files gives
    the same ban map, record for record. The unban time of a permanent
    record is written as "0000-00-00 00:00:00", whatever it is, and that
    text is read as the largest time of the clock. *)
Theorem C5_ban_file_round_trip {libc : Chrono.Libc} (pl : t) (w : World) :
  map_Forall (fun k info => survives k info = true) (banned_players_ pl) ->
  round_trips pl w /\
  (forall tp, time_to_string tp true = sentinel_text) /\
  string_to_time sentinel_text = Chrono.time_point_max.
Proof.
  intros Hall. split; [|split; [done | reflexivity]].
  unfold round_trips, create, load_files, save_files. simpl.
  unfold load_banned. rewrite banned_text_lines by done.
  cbn [foldl]. rewrite parse_banned_header.
  rewrite load_surviving.
  - apply map_eq. intros k.
    rewrite foldl_insert_lookup by apply NoDup_fst_map_to_list.
    rewrite list_to_map_to_list, lookup_empty. by destruct (banned_players_ pl !! k).
  - apply Forall_forall. intros [k info] Hin. simpl.
    apply elem_of_map_to_list in Hin. by apply Hall.
Qed.

(** The sample map, one permanent and one temporary record with times in
    whole seconds, in the UTC time zone. *)
Lemma C5_ban_file_round_trip_witness :
  round_trips (libc := Chrono.utc) (mk ∅ ∅ Samples.banned_ok []) Samples.world0.
Proof.
  apply (C5_ban_file_round_trip (libc := Chrono.utc)). simpl.
  unfold Samples.banned_ok.
  apply map_Forall_insert_2; [vm_compute; reflexivity|].
  apply map_Forall_insert_2; [vm_compute; reflexivity|].
  apply map_Forall_empty.
Defined.

End BanFileClaims.

(* ===================================================================== *)
(** * Further properties of the code *)
(* ===================================================================== *)

(** ** The line buffer: bounded cursor, lines in order *)

Section BufferMore.
Import Buffer BufferSpec BufferFacts.

Lemma read_line_cursor b :
  (read_line b).2 = b \/
  (MAX_DELETED_BUFFER_SIZE (read_line b).2 = MAX_DELETED_BUFFER_SIZE b /\
   (buffer_ptr_ (read_line b).2 = 0 \/
    buffer_ptr_ (read_line b).2 < MAX_DELETED_BUFFER_SIZE b)).
Proof.
  unfold read_line.
  destruct (length (buffer_ b) <=? buffer_ptr_ b); [by left|].
  destruct (Str.find_char Str.nl (buffer_ptr_ b) (buffer_ b)) as [p|]; [|by left].
  right. destruct (Nat.leb_spec (MAX_DELETED_BUFFER_SIZE b) (p + 1)); simpl.
  - split; [done | by left].
  - split; [done | right; lia].
Qed.

Lemma run_cursor ops : forall b,
  buffer_ptr_ b = 0 \/ buffer_ptr_ b < MAX_DELETED_BUFFER_SIZE b ->
  MAX_DELETED_BUFFER_SIZE (run ops b).1 = MAX_DELETED_BUFFER_SIZE b /\
  (buffer_ptr_ (run ops b).1 = 0 \/
   buffer_ptr_ (run ops b).1 < MAX_DELETED_BUFFER_SIZE b).
Proof.
  induction ops as [|[data|] ops IH]; intros b Hb; simpl;
    [done | exact (IH (append data b) Hb) |].
  destruct (read_line_cursor b) as [E|[Hmax Hptr]].
  - destruct (read_line b) as [line b1]; simpl in *; subst b1.
    specialize (IH b Hb). by destruct (run ops b).
  - destruct (read_line b) as [line b1]; simpl in *.
    rewrite <- Hmax in Hptr. specialize (IH b1 Hptr). rewrite Hmax in IH.
    by destruct (run ops b1).
Qed.

(** X1: whatever is appended and read, the consumed bytes a buffer still
    holds are fewer than its threshold: the cursor is 0 or below the
    threshold after every operation, and the bytes before it and the
    unread bytes make up the whole string. *)
Theorem buffer_cursor_below_threshold (thr : nat) (ops : list op) :
  (buffer_ptr_ (run ops (make thr)).1 = 0 \/ buffer_ptr_ (run ops (make thr)).1 < thr) /\
  length (buffer_ (run ops (make thr)).1)
  = buffer_ptr_ (run ops (make thr)).1 + length (unread (run ops (make thr)).1).
Proof.
  split.
  - apply (run_cursor ops (make thr)). by left.
  - destruct (run_invariant ops (make thr) (wf_make thr)) as (_ & _ & Hwf).
    unfold unread, wf in *. rewrite length_drop. lia.
Qed.

Lemma run_app ops1 ops2 b :
  run (ops1 ++ ops2) b
  = ((run ops2 (run ops1 b).1).1, (run ops1 b).2 ++ (run ops2 (run ops1 b).1).2).
Proof.
  revert b. induction ops1 as [|[data|] ops1 IH]; intros b; simpl.
  - by destruct (run ops2 b).
  - apply IH.
  - destruct (read_line b) as [line b1]. rewrite IH.
    by destruct (run ops1 b1) as [b2 lines].
Qed.

Lemma run_appends chunks : forall b,
  wf b ->
  (run (map Append chunks) b).2 = [] /\
  wf (run (map Append chunks) b).1 /\
  unread (run (map Append chunks) b).1 = unread b ++ concat chunks.
Proof.
  induction chunks as [|c chunks IH]; intros b Hwf; simpl.
  - by rewrite app_nil_r.
  - destruct (IH (append c b) (wf_append _ _ Hwf)) as (H1 & H2 & H3).
    split_and!; [done | done |]. rewrite H3, unread_append by done.
    by rewrite app_assoc.
Qed.

Lemma run_reads bodies : forall b rest,
  wf b -> Forall (fun body => Str.nl ∉ body) bodies ->
  unread b = concat (map (fun body => body ++ [Str.nl]) bodies) ++ rest ->
  (run (repeat ReadLine (length bodies)) b).2 = map (fun body => body ++ [Str.nl]) bodies /\
  unread (run (repeat ReadLine (length bodies)) b).1 = rest.
Proof.
  induction bodies as [|body bodies IH]; intros b rest Hwf Hb Hun; simpl; [done|].
  apply Forall_cons in Hb as [Hbody Hb].
  simpl in Hun. rewrite <- !app_assoc in Hun. simpl in Hun.
  destruct (read_line_some b body _ Hwf Hun Hbody) as (b1 & E & Hun1 & Hwf1 & _).
  rewrite E. destruct (IH b1 rest Hwf1 Hb Hun1) as [H1 H2].
  destruct (run (repeat ReadLine (length bodies)) b1) as [b2 lines]. simpl in *.
  by rewrite H1.
Qed.

(** X2: lines come out first in, first out and whole. Bytes that make
    up complete lines followed by a partial one are appended in chunks
    cut anywhere; as many reads as there are lines return exactly those
    lines, in order, and the partial line stays unread. *)
Theorem buffer_lines_in_order (thr : nat) (chunks bodies : list str) (partial : str) :
  Forall (fun body => Str.nl ∉ body) bodies ->
  concat chunks = concat (map (fun body => body ++ [Str.nl]) bodies) ++ partial ->
  (run (map Append chunks ++ repeat ReadLine (length bodies)) (make thr)).2
  = map (fun body => body ++ [Str.nl]) bodies /\
  unread (run (map Append chunks ++ repeat ReadLine (length bodies)) (make thr)).1
  = partial.
Proof.
  intros Hb Hc. rewrite run_app. simpl.
  destruct (run_appends chunks (make thr) (wf_make thr)) as (H1 & H2 & H3).
  change (unread (make thr)) with (@nil ascii) in H3. simpl in H3. rewrite Hc in H3.
  destruct (run_reads bodies _ partial H2 Hb H3) as [H4 H5].
  by rewrite H1, H4, H5.
Qed.

(** Two lines and a half arrive in three chunks that cut a line in two. *)
Lemma buffer_lines_in_order_witness :
  (run (map Append [lit "ab"; lit "c" ++ [Str.nl] ++ lit "d"; lit "e" ++ [Str.nl] ++ lit "f"]
        ++ repeat ReadLine 2) (make 4)).2
  = [lit "abc" ++ [Str.nl]; lit "de" ++ [Str.nl]].
Proof.
  apply (buffer_lines_in_order 4
           [lit "ab"; lit "c" ++ [Str.nl] ++ lit "d"; lit "e" ++ [Str.nl] ++ lit "f"]
           [lit "abc"; lit "de"] (lit "f")).
  - repeat (constructor; [apply no_char_spec; reflexivity|]). constructor.
  - reflexivity.
Defined.

End BufferMore.

(** ** [trim] *)

Section TrimMore.
Import Str.

Lemma find_first_not_ws_from_Some s : forall i k,
  find_first_not_ws_from s i = Some k ->
  exists pre c rest, s = pre ++ c :: rest /\ Forall (fun x => is_trim_ws x = true) pre /\
                     is_trim_ws c = false /\ k = i + length pre.
Proof.
  induction s as [|x s IH]; intros i k; simpl; [done|].
  destruct (is_trim_ws x) eqn:E.
  - intros H. destruct (IH _ _ H) as (pre & c & rest & -> & Hpre & Hc & ->).
    exists (x :: pre), c, rest. split_and!; [done | by constructor | done | simpl; lia].
  - intros [= <-]. exists [], x, s. split_and!; [done | constructor | done | simpl; lia].
Qed.

Lemma find_first_not_ws_from_None s i :
  find_first_not_ws_from s i = None -> Forall (fun x => is_trim_ws x = true) s.
Proof.
  revert i. induction s as [|x s IH]; intros i; simpl; [constructor|].
  destruct (is_trim_ws x) eqn:E; [|done]. intros H. constructor; [done | by eapply IH].
Qed.

Lemma find_last_not_ws_from_Some s : forall i k,
  find_last_not_ws_from s i = Some k ->
  exists pre c post, s = pre ++ c :: post /\ Forall (fun x => is_trim_ws x = true) post /\
                     is_trim_ws c = false /\ k = i + length pre.
Proof.
  induction s as [|x s IH]; intros i k; simpl; [done|].
  destruct (find_last_not_ws_from s (S i)) as [k'|] eqn:E.
  - intros [= <-]. destruct (IH _ _ E) as (pre & c & post & -> & Hpost & Hc & ->).
    exists (x :: pre), c, post. split_and!; [done | done | done | simpl; lia].
  - destruct (is_trim_ws x) eqn:Ex; [done|]. intros [= <-].
    exists [], x, s. split_and!; [done | | done | simpl; lia].
    clear IH. revert E. generalize (S i). induction s as [|y s IH]; intros j; simpl;
      [constructor|].
    destruct (find_last_not_ws_from s (S j)) eqn:E'; [done|].
    destruct (is_trim_ws y) eqn:Ey; [|done]. intros _. constructor; [done | by eapply IH].
Qed.

Lemma find_last_not_ws_from_None s i :
  find_last_not_ws_from s i = None -> Forall (fun x => is_trim_ws x = true) s.
Proof.
  revert i. induction s as [|y s IH]; intros j; simpl; [constructor|].
  destruct (find_last_not_ws_from s (S j)) eqn:E'; [done|].
  destruct (is_trim_ws y) eqn:Ey; [|done]. intros _. constructor; [done | by eapply IH].
Qed.

(** The shape of a text that has a character [trim] keeps: what [trim]
    returns lies between a first and a last such character. *)
Lemma trim_middle s start :
  find_first_not_ws s = Some start ->
  exists pre mid post c d,
    s = pre ++ mid ++ post /\ trim s = mid /\
    Forall (fun x => is_trim_ws x = true) pre /\
    Forall (fun x => is_trim_ws x = true) post /\
    is_trim_ws c = false /\ is_trim_ws d = false /\
    (mid = [c] /\ c = d \/ exists t, mid = c :: t ++ [d]).
Proof.
  intros Hf. unfold trim. rewrite Hf.
  destruct (find_first_not_ws_from_Some _ _ _ Hf) as (pre1 & c1 & rest1 & Hs1 & Hpre1 & Hc1 & ->).
  simpl. destruct (find_last_not_ws s) as [e|] eqn:Hl.
  2:{ apply find_last_not_ws_from_None in Hl. rewrite Hs1 in Hl.
      apply Forall_app in Hl as [_ Hl]. apply Forall_cons in Hl as [Hl _]. congruence. }
  destruct (find_last_not_ws_from_Some _ _ _ Hl) as (pre2 & c2 & post2 & Hs2 & Hpost2 & Hc2 & ->).
  simpl.
  assert (Hle : length pre1 <= length pre2).
  { destruct (Nat.le_gt_cases (length pre1) (length pre2)) as [|Hlt]; [done|].
    assert (H1 : s !! length pre2 = Some c2) by (rewrite Hs2; apply list_lookup_middle; done).
    rewrite Hs1, lookup_app_l in H1 by done.
    rewrite Forall_lookup in Hpre1. specialize (Hpre1 _ _ H1). congruence. }
  set (mid := drop (length pre1) pre2 ++ [c2]).
  assert (Hdrop : drop (length pre1) s = mid ++ post2).
  { rewrite Hs2. change (pre2 ++ c2 :: post2) with (pre2 ++ [c2] ++ post2).
    rewrite drop_app_le by done. unfold mid. by rewrite <- app_assoc. }
  assert (Hmid : substr (length pre1) (length pre2 - length pre1 + 1) s = mid).
  { unfold substr. rewrite Hdrop.
    replace (length pre2 - length pre1 + 1) with (length mid).
    - apply take_app_length.
    - unfold mid. rewrite length_app, length_drop. simpl. lia. }
  assert (Hhead : exists t, mid ++ post2 = c1 :: t).
  { rewrite <- Hdrop, Hs1, drop_app_length. eauto. }
  exists pre1, mid, post2, c1, c2. split_and!; try done.
  - rewrite <- Hdrop. rewrite <- (take_drop (length pre1) s) at 1.
    f_equal. rewrite Hs1. apply take_app_length.
  - destruct Hhead as [t Ht]. unfold mid in *.
    destruct (drop (length pre1) pre2) as [|x u]; simpl in *.
    + injection Ht as -> _. by left.
    + injection Ht as -> _. right. by exists u.
Qed.

(** X3: [trim] returns the text between the first and the last
    character that is not a blank, tab, carriage return or newline: what
    it cuts off on either side is made of these four characters only, what
    it returns neither begins nor ends with one, and trimming again changes
    nothing. *)
Theorem trim_strips_both_ends (s : str) :
  (exists pre post,
      s = pre ++ trim s ++ post /\
      Forall (fun x => is_trim_ws x = true) pre /\
      Forall (fun x => is_trim_ws x = true) post) /\
  match trim s with [] => True | c :: _ => is_trim_ws c = false end /\
  match last (trim s) with None => True | Some d => is_trim_ws d = false end /\
  trim (trim s) = trim s.
Proof.
  destruct (find_first_not_ws s) as [start|] eqn:Hf.
  - destruct (trim_middle s start Hf)
      as (pre & mid & post & c & d & Hs & -> & Hpre & Hpost & Hc & Hd & Hshape).
    split; [by exists pre, post|].
    destruct Hshape as [[-> <-]|[t ->]].
    + split_and!; [done | done | by apply trim_single].
    + split_and!; [done | | by apply trim_plain].
      change (c :: t ++ [d]) with ((c :: t) ++ [d]). by rewrite last_snoc.
  - assert (E : trim s = []) by (unfold trim; by rewrite Hf).
    rewrite E. split_and!; try done.
    exists s, []. split_and!; [by rewrite app_nil_r | | constructor].
    by eapply find_first_not_ws_from_None.
Qed.

End TrimMore.

(** ** The escape-sequence filter, continued *)

Section RemoveAnsiMore.
Import PlayerList.

Lemma remove_ansi_loop_no_escape n : forall s, ESC ∉ remove_ansi_loop n s.
Proof.
  induction n as [|n IH]; intros s; [destruct s; apply not_elem_of_nil|].
  destruct s as [|c rest]; [apply not_elem_of_nil|]. cbn [remove_ansi_loop].
  destruct (Ascii.eqb c ESC) eqn:Ec.
  - destruct rest as [|b rest']; [apply IH|].
    destruct (Ascii.eqb b "["); [|apply IH].
    destruct (skip_params rest') as [|l r]; [apply not_elem_of_nil|].
    destruct (is_letter l); apply IH.
  - apply ascii_eqb_false in Ec.
    assert (Hcons : forall t, ESC ∉ c :: remove_ansi_loop n t).
    { intros t. apply not_elem_of_cons. split; [congruence | apply IH]. }
    destruct (Ascii.eqb c "["); [|apply Hcons].
    destruct rest as [|d rest']; [apply Hcons|].
    destruct (is_digit d); [|apply Hcons].
    destruct (skip_params (d :: rest')) as [|x r]; [apply Hcons|].
    destruct (Ascii.eqb x "m"); [apply IH | apply Hcons].
Qed.

Lemma remove_ansi_loop_length n : forall s,
  length (remove_ansi_loop n s) <= length s.
Proof.
  induction n as [|n IH]; intros s; [destruct s; simpl; lia|].
  destruct s as [|c rest]; [simpl; lia|]. cbn [remove_ansi_loop].
  pose proof (skip_params_length rest) as Hsk.
  destruct (Ascii.eqb c ESC).
  - destruct rest as [|b rest']; [specialize (IH []); simpl in *; lia|].
    destruct (Ascii.eqb b "["); [|specialize (IH (b :: rest')); simpl in *; lia].
    pose proof (skip_params_length rest') as Hsk'.
    destruct (skip_params rest') as [|l r]; [simpl; lia|].
    destruct (is_letter l);
      [specialize (IH r) | specialize (IH (l :: r))]; simpl in *; lia.
  - assert (Hcons : forall t, length t <= length rest ->
                      length (c :: remove_ansi_loop n t) <= length (c :: rest)).
    { intros t Ht. specialize (IH t). simpl. lia. }
    destruct (Ascii.eqb c "["); [|by apply Hcons].
    destruct rest as [|d rest']; [by apply Hcons|].
    destruct (is_digit d); [|by apply Hcons].
    destruct (skip_params (d :: rest')) as [|x r]; [by apply Hcons|].
    destruct (Ascii.eqb x "m"); [|by apply Hcons].
    specialize (IH r). simpl in *. lia.
Qed.

Lemma remove_ansi_loop_plain n : forall s,
  length s <= n -> ESC ∉ s -> "["%char ∉ s -> remove_ansi_loop n s = s.
Proof.
  induction n as [|n IH]; intros s Hn Hesc Hbr.
  - destruct s; [done | simpl in Hn; lia].
  - destruct s as [|c rest]; [done|]. cbn [remove_ansi_loop].
    apply not_elem_of_cons in Hesc as [Hc1 Hesc].
    apply not_elem_of_cons in Hbr as [Hc2 Hbr].
    rewrite (proj2 (ascii_eqb_false c ESC)) by congruence.
    rewrite (proj2 (ascii_eqb_false c "[")) by congruence.
    f_equal. apply IH; [simpl in Hn; lia | done | done].
Qed.

(** X4: what [remove_ansi] returns holds no escape character and is no
    longer than its argument; a text without an escape character and
    without an opening bracket passes unchanged. *)
Theorem remove_ansi_no_escape (s : str) :
  (ESC ∉ remove_ansi s) /\ (length (remove_ansi s) <= length s) /\
  ((ESC ∉ s) -> ("["%char ∉ s) -> remove_ansi s = s).
Proof.
  split_and!.
  - apply remove_ansi_loop_no_escape.
  - apply remove_ansi_loop_length.
  - intros Hesc Hbr. by apply remove_ansi_loop_plain.
Qed.

Lemma remove_ansi_no_escape_witness :
  remove_ansi (lit "Alice joined the game") = lit "Alice joined the game".
Proof.
  apply (proj2 (proj2 (remove_ansi_no_escape (lit "Alice joined the game"))));
    apply no_char_spec; reflexivity.
Defined.

End RemoveAnsiMore.

(** ** The ban registry: pardon, the sweeper, the player file *)

Section RegistryMore.
Context {libc : Chrono.Libc}.
Import Str PlayerList.

Lemma is_banned_true player pl :
  is_banned player pl = true <-> is_Some (banned_players_ pl !! player).
Proof. unfold is_banned. apply bool_decide_eq_true. Qed.

Lemma is_banned_false player pl :
  is_banned player pl = false <-> banned_players_ pl !! player = None.
Proof.
  unfold is_banned. rewrite bool_decide_eq_false. by rewrite eq_None_not_Some.
Qed.

Lemma send_string_live data p :
  Program.running_ p = true -> Program.stdin_pipe_w p <> (-1)%Z ->
  Program.send_string data p
  = (true, Program.mk true (Program.stdin_pipe_w p) (Program.stdin_written p ++ data)).
Proof.
  intros Hrun Hfd. unfold Program.send_string.
  rewrite Hrun. apply Z.eqb_neq in Hfd. by rewrite Hfd.
Qed.

Lemma pardon_effect player pl w :
  banned_players_ (pardon player pl w).1.2 = delete player (banned_players_ pl) /\
  all_players_ (pardon player pl w).1.2 = all_players_ pl /\
  online_players_ (pardon player pl w).1.2 = online_players_ pl /\
  forbidden_commands_ (pardon player pl w).1.2 = forbidden_commands_ pl /\
  w_clock (pardon player pl w).2 = w_clock w /\
  w_child (pardon player pl w).2
  = match banned_players_ pl !! player with
    | Some _ => (Program.send_string (lit "pardon " ++ player ++ [nl]) (w_child w)).2
    | None => w_child w
    end.
Proof.
  unfold pardon. destruct (banned_players_ pl !! player) eqn:E.
  - unfold world_send, save_files.
    destruct (Program.send_string _ (w_child w)). done.
  - simpl. by rewrite delete_id.
Qed.

(** X5: [pardon] answers whether the player was banned. Afterwards the
    player is not banned and every other record is as before. For a
    player who was not banned nothing at all changes (no line is sent, no
    file is written); for a banned one the line "pardon <name>" goes to a
    live child. *)
Theorem pardon_lifts_one_ban (player : str) (pl : t) (w : World) :
  (pardon player pl w).1.1 = is_banned player pl /\
  is_banned player (pardon player pl w).1.2 = false /\
  (forall other, other <> player ->
     banned_players_ (pardon player pl w).1.2 !! other = banned_players_ pl !! other) /\
  (is_banned player pl = false -> pardon player pl w = (false, pl, w)) /\
  (is_banned player pl = true ->
   Program.running_ (w_child w) = true -> Program.stdin_pipe_w (w_child w) <> (-1)%Z ->
   Program.stdin_written (w_child (pardon player pl w).2)
   = Program.stdin_written (w_child w) ++ lit "pardon " ++ player ++ [nl]).
Proof.
  destruct (pardon_effect player pl w) as (Hb & _ & _ & _ & _ & Hc).
  split_and!.
  - unfold pardon, is_banned.
    destruct (banned_players_ pl !! player) eqn:E.
    + rewrite bool_decide_eq_true_2 by eauto.
      unfold world_send. by destruct (Program.send_string _ _).
    + rewrite bool_decide_eq_false_2; [done|]. by intros [? ?].
  - apply is_banned_false. rewrite Hb. apply lookup_delete_eq.
  - intros other Hne. rewrite Hb. by apply lookup_delete_ne.
  - intros Hno%is_banned_false. unfold pardon. by rewrite Hno.
  - intros [info Hyes]%is_banned_true Hrun Hfd. rewrite Hc, Hyes.
    by rewrite send_string_live.
Qed.

(** X6: a ban followed by a pardon of the same player, who was not
    banned before, gives back the ban map as it was; in between the
    player is banned. *)
Theorem ban_then_pardon (player reason : str) (hours : Z) (pl : t) (w w' : World) :
  is_banned player pl = false ->
  is_banned player (ban player reason hours pl w).1.2 = true /\
  (pardon player (ban player reason hours pl w).1.2 w').1.1 = true /\
  banned_players_ (pardon player (ban player reason hours pl w).1.2 w').1.2
  = banned_players_ pl.
Proof.
  intros Hno%is_banned_false.
  destruct (ban_effect player reason hours pl w) as (_ & Hb & _ & _).
  cbv zeta in Hb.
  assert (Hyes : is_banned player (ban player reason hours pl w).1.2 = true).
  { apply is_banned_true. rewrite Hb, lookup_insert_eq. eauto. }
  split_and!; [done | |].
  - unfold pardon. apply is_banned_true in Hyes as [info ->].
    unfold world_send. by destruct (Program.send_string _ _).
  - destruct (pardon_effect player (ban player reason hours pl w).1.2 w') as (Hp & _).
    rewrite Hp, Hb. by apply delete_insert_id.
Qed.

(** X7: a second ban of a player replaces the first: the ban map is the
    one the second ban alone would have made. *)
Theorem ban_overrides (player reason1 reason2 : str) (hours1 hours2 : Z)
    (pl : t) (w w' : World) :
  banned_players_ (ban player reason2 hours2 (ban player reason1 hours1 pl w).1.2 w').1.2
  = banned_players_ (ban player reason2 hours2 pl w').1.2.
Proof.
  destruct (ban_effect player reason1 hours1 pl w) as (_ & Hb1 & _ & _).
  destruct (ban_effect player reason2 hours2 (ban player reason1 hours1 pl w).1.2 w')
    as (_ & Hb2 & _ & _).
  destruct (ban_effect player reason2 hours2 pl w') as (_ & Hb3 & _ & _).
  cbv zeta in *. rewrite Hb2, Hb3, Hb1. apply insert_insert_eq.
Qed.

End RegistryMore.

Section RegistryWitnesses.
Import Str PlayerList.

Lemma pardon_lifts_one_ban_witness :
  let pl := (ban (libc := Chrono.utc) (lit "Alice") (lit "griefing") 24 Samples.registry Samples.world0).1.2 in
  Program.stdin_written (w_child (pardon (libc := Chrono.utc) (lit "Alice") pl Samples.world0).2)
  = lit "pardon Alice" ++ [nl] /\
  pardon (libc := Chrono.utc) (lit "Bob") pl Samples.world0 = (false, pl, Samples.world0).
Proof.
  intros pl.
  destruct (pardon_lifts_one_ban (libc := Chrono.utc) (lit "Alice") pl Samples.world0) as (_ & _ & _ & _ & Hyes).
  destruct (pardon_lifts_one_ban (libc := Chrono.utc) (lit "Bob") pl Samples.world0) as (_ & _ & _ & Hno & _).
  split.
  - rewrite Hyes; [reflexivity | | reflexivity | discriminate].
    apply is_banned_true. eexists. apply lookup_insert_eq.
  - apply Hno. apply is_banned_false. reflexivity.
Defined.

Lemma ban_then_pardon_witness :
  banned_players_
    (pardon (libc := Chrono.utc) (lit "Alice")
       (ban (libc := Chrono.utc) (lit "Alice") (lit "griefing") 24 Samples.registry Samples.world0).1.2
       Samples.world0).1.2
  = banned_players_ Samples.registry.
Proof.
  apply (ban_then_pardon (libc := Chrono.utc) (lit "Alice") (lit "griefing") 24 Samples.registry
           Samples.world0 Samples.world0).
  reflexivity.
Defined.

End RegistryWitnesses.

(** ** The sweeper *)

Section Sweeper.
Context {libc : Chrono.Libc}.
Import Str PlayerList.

Lemma foldl_delete_lookup {A} (ks : list str) : forall (m : gmap str A) k,
  foldl (fun acc i => delete i acc) m ks !! k
  = if bool_decide (k ∈ ks) then None else m !! k.
Proof.
  induction ks as [|a ks IH]; intros m k; simpl; [done|].
  rewrite IH. destruct (decide (k ∈ ks)) as [Hin|Hout].
  - rewrite !bool_decide_eq_true_2; [done | by right | done].
  - rewrite (bool_decide_eq_false_2 (k ∈ ks)) by done.
    destruct (decide (k = a)) as [->|Hne].
    + rewrite bool_decide_eq_true_2 by left. apply lookup_delete_eq.
    + rewrite bool_decide_eq_false_2.
      * by apply lookup_delete_ne.
      * intros [?|?]%elem_of_cons; done.
Qed.

Lemma NoDup_fst_filter {A} (f : str * A -> bool) (l : list (str * A)) :
  NoDup l.*1 -> NoDup (List.filter f l).*1.
Proof.
  induction l as [|x l IH]; simpl; [done|].
  rewrite NoDup_cons. intros [Hx Hl]. destruct (f x); simpl; [|by apply IH].
  apply NoDup_cons. split; [|by apply IH].
  intros ((k' & r') & E & Hin')%list_elem_of_fmap. apply Hx.
  apply list_elem_of_fmap. exists (k', r'). split; [done|].
  apply list_elem_of_In. apply list_elem_of_In in Hin'.
  apply List.filter_In in Hin'. tauto.
Qed.

Lemma elem_of_fst_filter {A} (f : str * A -> bool) (l : list (str * A)) k :
  k ∈ (List.filter f l).*1 <-> exists v, (k, v) ∈ l /\ f (k, v) = true.
Proof.
  rewrite list_elem_of_fmap. split.
  - intros ((k' & v) & -> & Hin). exists v.
    apply list_elem_of_In, List.filter_In in Hin as [Hin Hf].
    split; [by apply list_elem_of_In | done].
  - intros (v & Hin & Hf). exists (k, v). split; [done|].
    apply list_elem_of_In, List.filter_In. split; [by apply list_elem_of_In | done].
Qed.

Lemma send_all_live (lines : list str) : forall p,
  Program.running_ p = true -> Program.stdin_pipe_w p <> (-1)%Z ->
  foldl (fun c l => (Program.send_string l c).2) p lines
  = Program.mk true (Program.stdin_pipe_w p) (Program.stdin_written p ++ concat lines).
Proof.
  induction lines as [|l lines IH]; intros p Hrun Hfd; simpl.
  - rewrite app_nil_r. destruct p; simpl in *. by subst.
  - rewrite send_string_live by done. simpl. rewrite IH by done. simpl.
    by rewrite app_assoc.
Qed.

Lemma pardon_each_spec players : forall pl w,
  NoDup players ->
  (forall p, p ∈ players -> is_Some (banned_players_ pl !! p)) ->
  banned_players_ (pardon_each players pl w).1
  = foldl (fun acc i => delete i acc) (banned_players_ pl) players /\
  all_players_ (pardon_each players pl w).1 = all_players_ pl /\
  online_players_ (pardon_each players pl w).1 = online_players_ pl /\
  forbidden_commands_ (pardon_each players pl w).1 = forbidden_commands_ pl /\
  w_child (pardon_each players pl w).2
  = foldl (fun c l => (Program.send_string l c).2) (w_child w)
          (map (fun p => lit "pardon " ++ p ++ [nl]) players).
Proof.
  unfold pardon_each.
  induction players as [|p players IH]; intros pl w Hnd Hall; simpl; [done|].
  apply NoDup_cons in Hnd as [Hp Hnd].
  destruct (pardon_effect p pl w) as (Hb & Ha & Ho & Hf & _ & Hc).
  destruct (Hall p) as [info Hinfo]; [by left|]. rewrite Hinfo in Hc.
  destruct (pardon p pl w) as [[ok pl1] w1]. simpl in *.
  destruct (IH pl1 w1 Hnd) as (IH1 & IH2 & IH3 & IH4 & IH5).
  { intros q Hq. rewrite Hb, lookup_delete_ne; [apply Hall; by right|].
    intros ->. done. }
  rewrite IH1, IH2, IH3, IH4, IH5, Hb, Ha, Ho, Hf, Hc. done.
Qed.

(** X8: one round of the sweeper, at the time [now] it reads from the
    clock. A record stays exactly when it is permanent or its unban time
    lies after [now]; the known and the online players are untouched; a
    live child receives one line "pardon <name>" for each record removed,
    in the order of the container. *)
Theorem ban_checker_round_spec (pl : t) (w : World) :
  let now := (world_now w).1 in
  let due_players :=
    (List.filter (fun kv => due now kv.2) (map_to_list (banned_players_ pl))).*1 in
  (forall k, banned_players_ (ban_checker_round pl w).1 !! k
             = match banned_players_ pl !! k with
               | Some info => if due now info then None else Some info
               | None => None
               end) /\
  all_players_ (ban_checker_round pl w).1 = all_players_ pl /\
  online_players_ (ban_checker_round pl w).1 = online_players_ pl /\
  (Program.running_ (w_child w) = true -> Program.stdin_pipe_w (w_child w) <> (-1)%Z ->
   Program.stdin_written (w_child (ban_checker_round pl w).2)
   = Program.stdin_written (w_child w)
     ++ concat (map (fun p => lit "pardon " ++ p ++ [nl]) due_players)).
Proof.
  intros now due_players. unfold ban_checker_round.
  change (world_now w) with (now, (world_now w).2). cbv iota. fold due_players.
  assert (Hnd : NoDup due_players) by apply NoDup_fst_filter, NoDup_fst_map_to_list.
  assert (Hin : forall k, k ∈ due_players <->
                          exists info, banned_players_ pl !! k = Some info /\ due now info = true).
  { intros k. unfold due_players. rewrite elem_of_fst_filter.
    by setoid_rewrite elem_of_map_to_list. }
  destruct (pardon_each_spec due_players pl (world_now w).2 Hnd)
    as (Hb & Ha & Ho & _ & Hc).
  { intros p (info & Hp & _)%Hin. eauto. }
  split_and!; [| done | done |].
  - intros k. rewrite Hb, foldl_delete_lookup.
    destruct (banned_players_ pl !! k) as [info|] eqn:Hk.
    + destruct (due now info) eqn:Hd.
      * rewrite bool_decide_eq_true_2; [done|]. apply Hin. eauto.
      * rewrite bool_decide_eq_false_2; [done|].
        intros (info' & Hk' & Hd')%Hin. congruence.
    + by destruct (bool_decide _).
  - intros Hrun Hfd. rewrite Hc. simpl. by rewrite send_all_live.
Qed.

End Sweeper.

Section SweeperWitness.
Import Str PlayerList.

(** The sample ban map a day and a second after Mallory's ban: Mallory's
    record is due, Alice's is permanent. *)
Lemma ban_checker_round_spec_witness :
  let pl := mk ∅ ∅ Samples.banned_ok [] in
  let w := mk_world (Chrono.mk_clock (fun _ => 1700086401000000000%Z) 0)
             Samples.child_live None None in
  Program.stdin_written (w_child (ban_checker_round (libc := Chrono.utc) pl w).2)
  = lit "pardon Mallory" ++ [nl].
Proof.
  intros pl w.
  destruct (ban_checker_round_spec (libc := Chrono.utc) pl w) as (_ & _ & _ & H).
  rewrite H; [reflexivity | reflexivity | discriminate].
Defined.

End SweeperWitness.

(** ** The player file and malformed lines of the ban file *)

Section FilesMore.
Context {libc : Chrono.Libc}.
Import Str PlayerList.

Lemma plain_name_trim p :
  PlayersFile.plain_name p = true ->
  trim p = p /\ (Str.nl ∉ p) /\ exists c t, p = c :: t.
Proof.
  unfold PlayersFile.plain_name. rewrite !andb_true_iff.
  intros [[Hs Hnl] He]. apply no_char_spec in Hnl.
  destruct p as [|c t]; [done|]. apply negb_true_iff in Hs.
  split_and!; [| done | eauto].
  destruct (decide (t = [])) as [->|Hne]; [by apply trim_single|].
  destruct (exists_last Hne) as (t' & d & ->).
  unfold BanFile.plain_end in He.
  change (c :: t' ++ [d]) with ((c :: t') ++ [d]) in He. rewrite last_snoc in He.
  apply negb_true_iff in He. by apply trim_plain.
Qed.

Lemma load_plain_names (names : list str) : forall acc : gset str,
  Forall (fun p => PlayersFile.plain_name p = true) names ->
  foldl (fun acc raw => match trim raw with
                        | [] => acc
                        | line => {[line]} ∪ acc
                        end) acc names
  = list_to_set names ∪ acc.
Proof.
  induction names as [|p names IH]; intros acc Hall; simpl; [set_solver|].
  apply Forall_cons in Hall as [Hp Hall].
  destruct (plain_name_trim p Hp) as (-> & _ & c & t & ->).
  rewrite IH by done. set_solver.
Qed.

(** X9: the player file gives back the set of known players, provided
    every name is not empty, holds no newline and neither begins nor ends
    with white space. *)
Theorem players_file_round_trip (pl : t) (w : World) (rules : list ForbiddenCommand) :
  (forall p, p ∈ all_players_ pl -> PlayersFile.plain_name p = true) ->
  all_players_ (create rules (save_files pl w)).1 = all_players_ pl.
Proof.
  intros Hall. unfold create, load_files, save_files. simpl.
  unfold load_players, players_text.
  assert (Hf : Forall (fun p => PlayersFile.plain_name p = true) (elements (all_players_ pl))).
  { apply Forall_forall. intros p Hp. apply Hall. by apply elem_of_elements. }
  rewrite getlines_concat.
  - rewrite load_plain_names by done. rewrite list_to_set_elements_L. set_solver.
  - eapply Forall_impl; [exact Hf|]. intros p Hp. by apply plain_name_trim.
Qed.

Lemma count_occ_drop (c : ascii) n s :
  count_occ ascii_dec (drop n s) c <= count_occ ascii_dec s c.
Proof.
  pose proof (f_equal (fun l => count_occ ascii_dec l c) (take_drop n s)) as H.
  simpl in H. rewrite count_occ_app in H. lia.
Qed.

Lemma find_char_counts c pos s k :
  find_char c pos s = Some k ->
  1 + count_occ ascii_dec (drop (k + 1) s) c <= count_occ ascii_dec (drop pos s) c.
Proof.
  unfold find_char. intros H.
  apply find_char_from_Some in H as (pre & post & E & _ & ->).
  replace (pos + length pre + 1) with (pos + (length pre + 1)) by lia.
  rewrite <- drop_drop, E.
  change (pre ++ c :: post) with (pre ++ [c] ++ post). rewrite app_assoc.
  replace (length pre + 1) with (length (pre ++ [c])) by (rewrite length_app; simpl; lia).
  rewrite drop_app_length, !count_occ_app. simpl.
  destruct (ascii_dec c c); [lia | done].
Qed.

Lemma parse_banned_line_separators raw info :
  parse_banned_line raw = Some info -> 3 <= count_occ ascii_dec raw "|"%char.
Proof.
  unfold parse_banned_line.
  assert (Htrim : count_occ ascii_dec (trim raw) "|"%char <= count_occ ascii_dec raw "|"%char).
  { destruct (find_first_not_ws raw) as [start|] eqn:Hf.
    - destruct (trim_middle raw start Hf) as (pre & mid & post & c & d & Hs & Ht & _).
      pose proof (f_equal (fun l => count_occ ascii_dec l "|"%char) Hs) as Hc.
      simpl in Hc. rewrite !count_occ_app in Hc. rewrite Ht. lia.
    - unfold trim. rewrite Hf. simpl. lia. }
  destruct (trim raw) as [|c l] eqn:E; [done|].
  destruct (Ascii.eqb c "#"); [done|].
  destruct (find_char "|" 0 (c :: l)) as [p1|] eqn:H1; [|done].
  destruct (find_char "|" (p1 + 1) (c :: l)) as [p2|] eqn:H2; [|done].
  destruct (find_char "|" (p2 + 1) (c :: l)) as [p3|] eqn:H3; [|done].
  intros _.
  apply find_char_counts in H1, H2, H3. rewrite drop_0 in H1. lia.
Qed.

(** X10: a line of the ban file with fewer than three separators is
    skipped, and the records around it are loaded as if it was not
    there. *)
Theorem malformed_ban_line_is_skipped (before after : list str) (raw : str)
    (banned : gmap str BannedPlayerInfo) :
  count_occ ascii_dec raw "|"%char < 3 ->
  Forall (fun l => nl ∉ l) (before ++ raw :: after) ->
  parse_banned_line raw = None /\
  load_banned (lines_text (before ++ raw :: after)) banned
  = load_banned (lines_text (before ++ after)) banned.
Proof.
  intros Hcount Hnl.
  assert (Hnone : parse_banned_line raw = None).
  { destruct (parse_banned_line raw) as [info|] eqn:E; [|done].
    apply parse_banned_line_separators in E. lia. }
  split; [done|].
  unfold load_banned, lines_text. rewrite !getlines_concat.
  - rewrite !foldl_app. simpl. by rewrite Hnone.
  - apply Forall_app in Hnl as [H1 H2]. apply Forall_cons in H2 as [_ H2].
    by apply Forall_app.
  - done.
Qed.

End FilesMore.

Section FilesWitnesses.
Import Str PlayerList.

Lemma players_file_round_trip_witness :
  let pl := mk ({[lit "Alice"]} ∪ {[lit "Bob Smith"]}) ∅ ∅ [] in
  all_players_ (create (libc := Chrono.utc) [] (save_files (libc := Chrono.utc) pl Samples.world0)).1
  = all_players_ pl.
Proof.
  intros pl. apply (players_file_round_trip (libc := Chrono.utc)).
  intros p [H|H]%elem_of_union; apply elem_of_singleton in H; subst p; reflexivity.
Defined.

(** A line without a reason field between two good records. *)
Lemma malformed_ban_line_is_skipped_witness :
  parse_banned_line (libc := Chrono.utc) (lit "Bob|2023-11-14 22:13:20") = None /\
  load_banned (libc := Chrono.utc)
    (lines_text [lit "Alice|griefing|2023-11-14 22:13:20|0000-00-00 00:00:00";
                 lit "Bob|2023-11-14 22:13:20";
                 lit "Mallory|spam in chat|2023-11-14 22:13:20|2023-11-15 22:13:20"]) ∅
  = Samples.banned_ok.
Proof.
  destruct (malformed_ban_line_is_skipped (libc := Chrono.utc)
              [lit "Alice|griefing|2023-11-14 22:13:20|0000-00-00 00:00:00"]
              [lit "Mallory|spam in chat|2023-11-14 22:13:20|2023-11-15 22:13:20"]
              (lit "Bob|2023-11-14 22:13:20") ∅) as [H1 H2].
  - vm_compute. lia.
  - repeat (constructor; [apply no_char_spec; reflexivity|]). constructor.
  - split; [exact H1|]. etransitivity; [exact H2|]. vm_compute. reflexivity.
Defined.

End FilesWitnesses.

(** ** The log classifier: what a line can change *)

Section Classifier.
Context {libc : Chrono.Libc}.
Import Str PlayerList.

Lemma ban_frame player reason hours pl w :
  all_players_ (ban player reason hours pl w).1.2 = all_players_ pl /\
  online_players_ (ban player reason hours pl w).1.2 = online_players_ pl /\
  forbidden_commands_ (ban player reason hours pl w).1.2 = forbidden_commands_ pl /\
  dom (banned_players_ (ban player reason hours pl w).1.2)
  = {[player]} ∪ dom (banned_players_ pl).
Proof.
  unfold ban, world_now, world_send, save_files. simpl.
  destruct (Program.send_string _ _). simpl. split_and!; try done.
  apply dom_insert_L.
Qed.

Lemma ban_for_rule_frame opening what closing player fc pl w :
  all_players_ (ban_for_rule opening what closing player fc pl w).1 = all_players_ pl /\
  online_players_ (ban_for_rule opening what closing player fc pl w).1 = online_players_ pl /\
  forbidden_commands_ (ban_for_rule opening what closing player fc pl w).1
  = forbidden_commands_ pl /\
  dom (banned_players_ (ban_for_rule opening what closing player fc pl w).1)
  = {[player]} ∪ dom (banned_players_ pl).
Proof.
  unfold ban_for_rule. destruct (world_now w) as [now w1].
  set (r := notice _ _ _ _ _).
  pose proof (ban_frame player r (ban_hours fc) pl w1) as H.
  by destruct (ban player r (ban_hours fc) pl w1) as [[ok pl1] w2].
Qed.

(** X11: whatever the line, [process_log_line] leaves the rules as they
    are, forgets no known player and lifts no ban. *)
Theorem process_log_line_keeps (log_line : str) (pl : t) (w : World) :
  forbidden_commands_ (process_log_line log_line pl w).1.2 = forbidden_commands_ pl /\
  all_players_ pl ⊆ all_players_ (process_log_line log_line pl w).1.2 /\
  dom (banned_players_ pl) ⊆ dom (banned_players_ (process_log_line log_line pl w).1.2).
Proof.
  unfold process_log_line.
  repeat case_match; simpl;
    repeat match goal with
    | H : ban_for_rule ?a ?b ?c ?d ?e ?f ?g = _ |- _ =>
        let F := fresh in
        pose proof (ban_for_rule_frame a b c d e f g) as F; rewrite H in F; simpl in F;
        destruct F as (? & ? & ? & ?); clear H
    | H : (_, _) = (_, _) |- _ => injection H as <- <-
    end;
    split_and!; try done; try set_solver.
Qed.

(** X12: what each kind of event does to the registry. A join makes the
    player known and online, with the time of the line and the client it
    names, and changes nothing else; a leave takes the player off the
    online map and changes nothing else, so every other player stays
    online as before; a chat line or a line of no kind changes nothing;
    and only a command line can change the ban map, write to the child or
    rewrite the files. *)
Theorem process_log_line_lifecycle (log_line : str) (pl : t) (w : World) :
  let event := (process_log_line log_line pl w).1.1 in
  let pl' := (process_log_line log_line pl w).1.2 in
  let w' := (process_log_line log_line pl w).2 in
  (type event = PLAYER_JOIN ->
     pl' = mk ({[player_name event]} ∪ all_players_ pl)
              (<[player_name event :=
                   mk_online (player_name event) (timestamp event) (client_info event)]>
                 (online_players_ pl))
              (banned_players_ pl) (forbidden_commands_ pl) /\
     player_name event ∈ all_players_ pl' /\
     online_players_ pl' !! player_name event
       = Some (mk_online (player_name event) (timestamp event) (client_info event)) /\
     (forall other, other <> player_name event ->
        online_players_ pl' !! other = online_players_ pl !! other)) /\
  (type event = PLAYER_LEAVE ->
     pl' = mk (all_players_ pl) (delete (player_name event) (online_players_ pl))
              (banned_players_ pl) (forbidden_commands_ pl) /\
     online_players_ pl' !! player_name event = None /\
     (forall other, other <> player_name event ->
        online_players_ pl' !! other = online_players_ pl !! other) /\
     all_players_ pl' = all_players_ pl) /\
  (type event = PLAYER_CHAT \/ type event = NONE -> pl' = pl) /\
  (type event <> PLAYER_COMMAND ->
     banned_players_ pl' = banned_players_ pl /\
     forbidden_commands_ pl' = forbidden_commands_ pl /\
     w_child w' = w_child w /\ w_player_file w' = w_player_file w /\
     w_banned_file w' = w_banned_file w).
Proof.
  cbv zeta. unfold process_log_line.
  pose proof (parse_log_time_world (remove_ansi log_line) w) as Hw.
  destruct (parse_log_time (remove_ansi log_line) w) as [ts w0]. simpl in Hw.
  destruct Hw as (Hw1 & Hw2 & Hw3).
  repeat case_match; simpl;
    repeat match goal with
    | H : (_, _) = (_, _) |- _ => injection H as <- <-
    | H : Some _ = Some _ |- _ => injection H as <-
    end; simpl;
    (split_and!; [intros ? | intros ? | intros [?|?] | intros ?]); try done;
    try (split_and!; try done; try set_solver;
         try (by simplify_map_eq);
         intros other Hother; by simplify_map_eq).
Qed.

Lemma earliest_player_inv (content : str) (players : list str) :
  forall seen found earliest,
  (match earliest with
   | Some p => found ∈ seen /\ find found 0 content = Some p /\
               (forall q k, q ∈ seen -> find q 0 content = Some k -> p <= k)
   | None => found = [] /\ forall q, q ∈ seen -> find q 0 content = None
   end) ->
  let r := foldl (fun '(found, earliest) player =>
           match find player 0 content with
           | Some player_pos =>
               if match earliest with
                  | None => true
                  | Some e => player_pos <? e
                  end
               then (player, Some player_pos)
               else (found, earliest)
           | None => (found, earliest)
           end) (found, earliest) players in
  match r.2 with
   | Some p => r.1 ∈ seen ++ players /\ find r.1 0 content = Some p /\
               (forall q k, q ∈ seen ++ players -> find q 0 content = Some k -> p <= k)
   | None => r.1 = [] /\ forall q, q ∈ seen ++ players -> find q 0 content = None
   end.
Proof.
  induction players as [|a players IH]; intros dn found earliest Hinv; cbv zeta.
  - simpl. rewrite app_nil_r. done.
  - cbn [foldl].
    replace (dn ++ a :: players) with ((dn ++ [a]) ++ players) by (by rewrite <- app_assoc).
    destruct (find a 0 content) as [pa|] eqn:Ha.
    + destruct earliest as [e|].
      * destruct Hinv as (H1 & H2 & H3).
        destruct (Nat.ltb_spec pa e); apply (IH (dn ++ [a])).
        -- split_and!; [set_solver | done |].
           intros q k [Hq|Hq%list_elem_of_singleton]%elem_of_app Hk.
           ++ specialize (H3 q k Hq Hk). lia.
           ++ subst q. rewrite Ha in Hk. injection Hk as <-. lia.
        -- split_and!; [set_solver | done |].
           intros q k [Hq|Hq%list_elem_of_singleton]%elem_of_app Hk.
           ++ by apply (H3 q k).
           ++ subst q. rewrite Ha in Hk. injection Hk as <-. lia.
      * destruct Hinv as (H1 & H2). apply (IH (dn ++ [a])).
        split_and!; [set_solver | done |].
        intros q k [Hq|Hq%list_elem_of_singleton]%elem_of_app Hk.
        -- rewrite (H2 q Hq) in Hk. done.
        -- subst q. rewrite Ha in Hk. injection Hk as <-. lia.
    + apply (IH (dn ++ [a])). destruct earliest as [e|].
      * destruct Hinv as (H1 & H2 & H3). split_and!; [set_solver | done |].
        intros q k [Hq|Hq%list_elem_of_singleton]%elem_of_app Hk.
        -- by apply (H3 q k).
        -- subst q. congruence.
      * destruct Hinv as (H1 & H2). split; [done|].
        intros q [Hq|Hq%list_elem_of_singleton]%elem_of_app.
        -- by apply H2.
        -- by subst q.
Qed.

(** X13: the search of the bracket branch for the acting player. When it
    finds a position, the player found is a known one, that position is
    where the name first occurs in the line, and no known player occurs
    before it; when it finds none, no known player occurs in the line and
    the name found is empty. *)
Theorem earliest_player_first (content : str) (players : list str) :
  match (earliest_player content players).2 with
  | Some p =>
      (earliest_player content players).1 ∈ players /\
      find (earliest_player content players).1 0 content = Some p /\
      (forall q k, q ∈ players -> find q 0 content = Some k -> p <= k)
  | None =>
      (earliest_player content players).1 = [] /\
      forall q, q ∈ players -> find q 0 content = None
  end.
Proof.
  unfold earliest_player.
  apply (earliest_player_inv content players [] [] None).
  split; [done|]. intros q Hq. by apply elem_of_nil in Hq.
Qed.

(** The queries on the ban map agree: [list_banned_player] lists
    each banned player once, and exactly the players [is_banned] accepts;
    [list_banned_player_info] has one record for each of them, the
    records of the map. *)
Theorem banned_queries_agree (pl : t) :
  NoDup (list_banned_player pl) /\
  (forall p, p ∈ list_banned_player pl <-> is_banned p pl = true) /\
  length (list_banned_player_info pl) = length (list_banned_player pl) /\
  (forall info, info ∈ list_banned_player_info pl <->
                exists p, banned_players_ pl !! p = Some info).
Proof.
  unfold list_banned_player, list_banned_player_info, is_banned. split_and!.
  - apply NoDup_fst_map_to_list.
  - intros p. rewrite bool_decide_eq_true, list_elem_of_fmap. split.
    + intros ((k & v) & -> & Hin). apply elem_of_map_to_list in Hin. eauto.
    + intros [v Hv]. exists (p, v). split; [done|]. by apply elem_of_map_to_list.
  - by rewrite !length_fmap.
  - intros info. rewrite list_elem_of_fmap. split.
    + intros ((k & v) & -> & Hin). apply elem_of_map_to_list in Hin. eauto.
    + intros [p Hp]. exists (p, info). split; [done|]. by apply elem_of_map_to_list.
Qed.

Lemma ban_checker_round_lookup pl w k :
  banned_players_ (ban_checker_round pl w).1 !! k
  = match banned_players_ pl !! k with
    | Some info => if due (world_now w).1 info then None else Some info
    | None => None
    end.
Proof.
  set (now := (world_now w).1). unfold ban_checker_round.
  change (world_now w) with (now, (world_now w).2). cbv iota.
  set (due_players := (List.filter (fun kv => due now kv.2) (map_to_list (banned_players_ pl))).*1).
  assert (Hnd : NoDup due_players) by apply NoDup_fst_filter, NoDup_fst_map_to_list.
  assert (Hin : forall k, k ∈ due_players <->
                          exists info, banned_players_ pl !! k = Some info /\ due now info = true).
  { intros k'. unfold due_players. rewrite elem_of_fst_filter.
    by setoid_rewrite elem_of_map_to_list. }
  destruct (pardon_each_spec due_players pl (world_now w).2 Hnd) as (Hb & _).
  { intros p (info & Hp & _)%Hin. eauto. }
  rewrite Hb, foldl_delete_lookup.
  destruct (banned_players_ pl !! k) as [info|] eqn:Hk.
  - destruct (due now info) eqn:Hd.
    + rewrite bool_decide_eq_true_2; [done|]. apply Hin. eauto.
    + rewrite bool_decide_eq_false_2; [done|].
      intros (info' & Hk' & Hd')%Hin. congruence.
  - by destruct (bool_decide _).
Qed.

(** X14: a ban lasts its hours. After a ban at a time [now] after the
    epoch, for a number of hours the clock's range can hold, a round of
    the sweeper at the time [later] leaves the player banned exactly when
    the ban is permanent (0 hours) or [later] is before [now] plus the
    hours. *)
Theorem ban_lasts_its_hours (player reason : str) (hours : Z) (pl : t) (w w' : World) :
  let now := (world_now w).1 in
  let later := (world_now w').1 in
  let banned := (ban player reason hours pl w).1.2 in
  (0 <= now)%Z -> (0 <= hours)%Z ->
  (now + hours * Chrono.ns_per_hour <= Chrono.time_point_max)%Z ->
  is_banned player (ban_checker_round banned w').1
  = if (hours =? 0)%Z then true else (later <? now + hours * Chrono.ns_per_hour)%Z.
Proof.
  intros now later banned Hnow Hh Hsum.
  destruct (ban_effect player reason hours pl w) as (_ & Hb & _).
  cbv zeta in Hb. fold now banned in Hb.
  unfold is_banned. rewrite ban_checker_round_lookup. fold later.
  rewrite Hb, lookup_insert_eq. unfold due. simpl.
  destruct (Z.eqb_spec hours 0) as [->|Hne]; simpl.
  - done.
  - rewrite plus_hours_exact by lia.
    by destruct (Z.leb_spec (now + hours * Chrono.ns_per_hour) later);
      destruct (Z.ltb_spec later (now + hours * Chrono.ns_per_hour)); try lia.
Qed.

End Classifier.

Section ClassifierWitnesses.
Import Str PlayerList.

(** A vanilla join line, and a leave line read while two players are
    online: the one who leaves is off the map, the other stays. *)
Lemma process_log_line_lifecycle_witness :
  let join := lit "[12:34:56] [Server thread/INFO]: Alice joined the game" ++ [nl] in
  let leave := lit "[12:40:00] [Server thread/INFO]: Alice left the game" ++ [nl] in
  let joined := (process_log_line (libc := Chrono.utc) join Samples.registry Samples.world0).1.2 in
  let both :=
    mk ({[lit "Alice"]} ∪ {[lit "Bob"]})
       (<[lit "Alice" := mk_online (lit "Alice") 0 (lit "vanilla")]>
          (<[lit "Bob" := mk_online (lit "Bob") 0 (lit "vanilla")]> ∅))
       ∅ [] in
  let left := (process_log_line (libc := Chrono.utc) leave both Samples.world0).1.2 in
  (lit "Alice" ∈ all_players_ joined /\ is_online (lit "Alice") joined = true) /\
  (is_online (lit "Alice") left = false /\ is_online (lit "Bob") left = true /\
   all_players_ left = all_players_ both).
Proof.
  intros join leave joined both left. split.
  - destruct (process_log_line_lifecycle (libc := Chrono.utc) join
                Samples.registry Samples.world0) as (Hjoin & _).
    destruct (Hjoin eq_refl) as (_ & Hknown & Honline & _).
    split; [exact Hknown|].
    unfold is_online. apply bool_decide_eq_true_2. eexists. exact Honline.
  - destruct (process_log_line_lifecycle (libc := Chrono.utc) leave both Samples.world0)
      as (_ & Hleave & _).
    destruct (Hleave eq_refl) as (_ & Hgone & Hothers & Hall).
    assert (Hgone' : online_players_ left !! lit "Alice" = None) by exact Hgone.
    assert (Hbob : online_players_ left !! lit "Bob" = online_players_ both !! lit "Bob").
    { apply (Hothers (lit "Bob")). discriminate. }
    split_and!.
    + unfold is_online. apply bool_decide_eq_false_2. rewrite Hgone'. by intros [? ?].
    + unfold is_online. apply bool_decide_eq_true_2. rewrite Hbob. by eexists.
    + exact Hall.
Defined.

(** A day's ban, swept a nanosecond before and at its end. *)
Lemma ban_lasts_its_hours_witness :
  let banned := (ban (libc := Chrono.utc) (lit "Alice") (lit "griefing") 24
                   Samples.registry Samples.world0).1.2 in
  let at_time t := mk_world (Chrono.mk_clock (fun _ => t) 0) Samples.child_live None None in
  is_banned (lit "Alice")
    (ban_checker_round (libc := Chrono.utc) banned
       (at_time (Samples.t0 + 86399999999999)%Z)).1 = true /\
  is_banned (lit "Alice")
    (ban_checker_round (libc := Chrono.utc) banned
       (at_time (Samples.t0 + 86400000000000)%Z)).1 = false.
Proof.
  intros banned at_time. split.
  - apply (ban_lasts_its_hours (libc := Chrono.utc) (lit "Alice") (lit "griefing") 24
             Samples.registry Samples.world0 (at_time (Samples.t0 + 86399999999999)%Z));
      vm_compute; congruence.
  - apply (ban_lasts_its_hours (libc := Chrono.utc) (lit "Alice") (lit "griefing") 24
             Samples.registry Samples.world0 (at_time (Samples.t0 + 86400000000000)%Z));
      vm_compute; congruence.
Defined.

End ClassifierWitnesses.

(** ** The vote engine: sequences of votes, the executor, expiry *)

Section Engine.
Import Str CommandRequest RequestSpec.

Lemma votes_cons request_id ip rest m :
  votes request_id (ip :: rest) m
  = ((vote request_id ip m).1 :: (votes request_id rest (vote request_id ip m).2).1,
     (votes request_id rest (vote request_id ip m).2).2).
Proof.
  cbn [votes]. destruct (vote request_id ip m) as [code m1]. cbn [fst snd].
  by destruct (votes request_id rest m1).
Qed.

Lemma vote_open request_id ip m r :
  requests_ m !! request_id = Some r -> executed r = false ->
  vote request_id ip m
  = if bool_decide (ip ∈ voted_ips r) then (1%Z, m)
    else (0%Z, set_requests m (<[request_id := add_vote ip r]> (requests_ m))).
Proof. intros Hr He. unfold vote. by rewrite Hr, He. Qed.

(** X15: votes count addresses. After the votes of a list of addresses
    on a request that is not executed, the request's voters are the old
    ones and the addresses of the list, and nothing else of the manager
    has changed; every vote returned 0 or 1, and the count of voters grew
    by the number of votes that returned 0. *)
Theorem votes_count_addresses (request_id : str) (ips : list str) (m : t) (r : RequestInfo) :
  requests_ m !! request_id = Some r -> executed r = false ->
  let r' := mk_request (id r) (applicant r) (command r) (reason r) (image_path r)
              (voted_ips r ∪ list_to_set ips) (created_at r) (executed_at r) (executed r) in
  let codes := (votes request_id ips m).1 in
  let m' := (votes request_id ips m).2 in
  requests_ m' = <[request_id := r']> (requests_ m) /\
  vote_threshold_ m' = vote_threshold_ m /\
  execute_callback_ m' = execute_callback_ m /\
  length codes = length ips /\
  Forall (fun code => code = 0%Z \/ code = 1%Z) codes /\
  vote_count r' = vote_count r + count_occ Z.eq_dec codes 0%Z.
Proof.
  revert m r. induction ips as [|ip rest IH]; intros m r Hr He; cbv zeta.
  - simpl. split_and!; try done.
    + symmetry. apply insert_id. rewrite Hr. f_equal.
      rewrite (right_id_L ∅ (∪)). by destruct r.
    + unfold vote_count. simpl. rewrite (right_id_L ∅ (∪)). lia.
  - rewrite votes_cons. cbn [fst snd]. rewrite (vote_open _ _ _ _ Hr He).
    destruct (decide (ip ∈ voted_ips r)) as [Hin|Hout].
    + rewrite bool_decide_eq_true_2 by done. cbn [fst snd].
      destruct (IH m r Hr He) as (H1 & H2 & H3 & H4 & H5 & H6). cbv zeta in *.
      assert (E : voted_ips r ∪ list_to_set (ip :: rest) = voted_ips r ∪ list_to_set rest)
        by set_solver.
      rewrite E.
      split_and!; try done; try (simpl; by rewrite H4); try (constructor; [by right | done]).
    + rewrite bool_decide_eq_false_2 by done. cbn [fst snd].
      set (m1 := set_requests m _).
      destruct (IH m1 (add_vote ip r)) as (H1 & H2 & H3 & H4 & H5 & H6).
      { unfold m1. simpl. apply lookup_insert_eq. }
      { done. }
      cbv zeta in *. simpl in H1, H6.
      assert (E : voted_ips r ∪ list_to_set (ip :: rest) = {[ip]} ∪ voted_ips r ∪ list_to_set rest)
        by set_solver.
      rewrite E.
      split_and!; try done; try (simpl; by rewrite H4); try (constructor; [by left | done]).
      { rewrite H1. apply insert_insert_eq. }
      unfold vote_count in *. simpl in *. rewrite H6.
      rewrite size_union by set_solver. rewrite size_singleton. lia.
Qed.

(** The manager after a sequence of votes. *)
Lemma votes_manager (request_id : str) (ips : list str) : forall (m : t) (r : RequestInfo),
  requests_ m !! request_id = Some r -> executed r = false ->
  requests_ (votes request_id ips m).2
  = <[request_id := mk_request (id r) (applicant r) (command r) (reason r) (image_path r)
                      (voted_ips r ∪ list_to_set ips) (created_at r) (executed_at r)
                      (executed r)]> (requests_ m) /\
  vote_threshold_ (votes request_id ips m).2 = vote_threshold_ m /\
  execute_callback_ (votes request_id ips m).2 = execute_callback_ m.
Proof.
  induction ips as [|ip rest IH]; intros m r Hr He.
  - simpl. split_and!; try done.
    symmetry. apply insert_id. rewrite Hr. f_equal.
    rewrite (right_id_L ∅ (∪)). by destruct r.
  - rewrite votes_cons. cbn [fst snd]. rewrite (vote_open _ _ _ _ Hr He).
    destruct (decide (ip ∈ voted_ips r)) as [Hin|Hout].
    + rewrite bool_decide_eq_true_2 by done. cbn [fst snd].
      destruct (IH m r Hr He) as (H1 & H2 & H3).
      assert (E : voted_ips r ∪ list_to_set (ip :: rest) = voted_ips r ∪ list_to_set rest)
        by set_solver.
      by rewrite E.
    + rewrite bool_decide_eq_false_2 by done. cbn [fst snd].
      set (m1 := set_requests m _).
      destruct (IH m1 (add_vote ip r)) as (H1 & H2 & H3).
      { unfold m1. simpl. apply lookup_insert_eq. }
      { done. }
      simpl in H1.
      assert (E : voted_ips r ∪ list_to_set (ip :: rest) = {[ip]} ∪ voted_ips r ∪ list_to_set rest)
        by set_solver.
      rewrite E. split_and!; try done.
      rewrite H1. apply insert_insert_eq.
Qed.

Lemma sweep_idle threshold entries w :
  Forall (fun kv => ready threshold kv.2 = false) entries ->
  sweep threshold entries w = (entries, [], w).
Proof.
  induction entries as [|[k r] rest IH]; intros Hall; [done|].
  apply Forall_cons in Hall as [Hr Hall]. simpl in Hr.
  rewrite sweep_cons, Hr, IH by done. done.
Qed.

Lemma sweep_child threshold entries : forall w,
  w_child (sweep threshold entries w).2 = w_child w.
Proof.
  induction entries as [|[k r] rest IH]; intros w; [done|].
  rewrite sweep_cons. destruct (ready threshold r); cbn [fst snd]; by rewrite IH.
Qed.

Lemma check_and_execute_lookup m w k :
  vote_threshold_ (check_and_execute m w).1.1 = vote_threshold_ m /\
  execute_callback_ (check_and_execute m w).1.1 = execute_callback_ m /\
  match requests_ m !! k with
  | Some r =>
      if ready (vote_threshold_ m) r
      then exists now, requests_ (check_and_execute m w).1.1 !! k = Some (mark_executed now r)
      else requests_ (check_and_execute m w).1.1 !! k = Some r
  | None => requests_ (check_and_execute m w).1.1 !! k = None
  end.
Proof.
  split_and!.
  - unfold check_and_execute. destruct (sweep _ _ w) as [[entries to_execute] w1].
    by destruct (execute_callback_ m).
  - unfold check_and_execute. destruct (sweep _ _ w) as [[entries to_execute] w1].
    by destruct (execute_callback_ m) eqn:E.
  - pose proof (sweep_spec (vote_threshold_ m) (map_to_list (requests_ m)) w) as Hs.
    cbv zeta in Hs. destruct Hs as (Hkeys & _ & _ & _ & Hin).
    assert (Hnd : NoDup (sweep (vote_threshold_ m) (map_to_list (requests_ m)) w).1.1.*1).
    { rewrite Hkeys. apply NoDup_fst_map_to_list. }
    rewrite check_and_execute_requests.
    destruct (requests_ m !! k) as [r|] eqn:Hk.
    + apply elem_of_map_to_list in Hk. specialize (Hin k r Hk).
      destruct (ready (vote_threshold_ m) r).
      * destruct Hin as (n & _ & Hin). eexists. by apply elem_of_list_to_map_1.
      * by apply elem_of_list_to_map_1.
    + apply not_elem_of_list_to_map_1. rewrite Hkeys.
      intros ((k' & r) & -> & Hin')%list_elem_of_fmap.
      apply elem_of_map_to_list in Hin'. simpl in Hk. congruence.
Qed.

(** X16: a request is executed once. After a pass of the executor no
    request is ready any more; a second pass, whatever the clock, changes
    nothing and calls nothing; and a vote on a request the pass has
    executed is refused with status 3. *)
Theorem check_and_execute_settles (m : t) (w w' : World) :
  let m1 := (check_and_execute m w).1.1 in
  (forall k r, requests_ m1 !! k = Some r -> ready (vote_threshold_ m1) r = false) /\
  check_and_execute m1 w' = (m1, [], w') /\
  (forall k r ip, requests_ m !! k = Some r -> ready (vote_threshold_ m) r = true ->
     vote k ip m1 = (3%Z, m1)).
Proof.
  intros m1.
  assert (Hsettled : forall k r, requests_ m1 !! k = Some r ->
                                 ready (vote_threshold_ m1) r = false).
  { intros k r Hk. destruct (check_and_execute_lookup m w k) as (Ht & _ & Hl).
    fold m1 in Ht, Hl. rewrite Ht.
    destruct (requests_ m !! k) as [r0|]; [|congruence].
    destruct (ready (vote_threshold_ m) r0) eqn:Hr0.
    - destruct Hl as [now Hl]. rewrite Hl in Hk. by injection Hk as <-.
    - congruence. }
  split_and!; [done | |].
  - unfold check_and_execute. rewrite sweep_idle.
    + rewrite list_to_map_to_list.
      assert (E : set_requests m1 (requests_ m1) = m1) by (by destruct m1).
      rewrite E. by destruct (execute_callback_ m1).
    + apply Forall_forall. intros [k r] Hin%elem_of_map_to_list. by apply (Hsettled k).
  - intros k r ip Hk Hr. destruct (check_and_execute_lookup m w k) as (_ & _ & Hl).
    fold m1 in Hl. rewrite Hk, Hr in Hl. destruct Hl as [now Hl].
    unfold vote. by rewrite Hl.
Qed.

Lemma cleanup_expired_lookup m w k :
  keyed m ->
  requests_ (cleanup_expired m w).1.1 !! k
  = match requests_ m !! k with
    | Some r => if expired (world_now w).1 r then None else Some r
    | None => None
    end.
Proof.
  intros Hkeyed. set (now := (world_now w).1). unfold cleanup_expired.
  change (world_now w) with (now, (world_now w).2). cbv iota. simpl.
  rewrite foldl_delete_lookup.
  destruct (requests_ m !! k) as [r|] eqn:Hk.
  - destruct (expired now r) eqn:He.
    + rewrite bool_decide_eq_true_2; [done|].
      apply list_elem_of_In, in_map_iff. exists (k, r). split.
      * simpl. by apply Hkeyed.
      * apply List.filter_In. split; [|done]. by apply list_elem_of_In, elem_of_map_to_list.
    + rewrite bool_decide_eq_false_2; [done|].
      intros ((k' & r') & Hid & Hin)%list_elem_of_In%in_map_iff.
      apply List.filter_In in Hin as [Hin Hex]. simpl in *.
      apply list_elem_of_In, elem_of_map_to_list in Hin.
      rewrite <- (Hkeyed k' r' Hin) in Hin. rewrite Hid in Hin. congruence.
  - by destruct (bool_decide _).
Qed.

(** X17: every request stays filed under its own id. If that holds of a
    manager, it holds after a vote, after [create_request], after a pass
    of the executor and after [cleanup_expired]. *)
Theorem requests_stay_keyed (m : t) (w : World) :
  keyed m ->
  (forall request_id ip, keyed (vote request_id ip m).2) /\
  (forall drawn opened applicant command reason image_data image_ext,
     keyed (create_request drawn opened applicant command reason image_data image_ext m w).1.2) /\
  keyed (check_and_execute m w).1.1 /\
  keyed (cleanup_expired m w).1.1.
Proof.
  intros Hkeyed. split_and!.
  - intros request_id ip. unfold vote.
    destruct (requests_ m !! request_id) as [r|] eqn:Hr; [|done].
    destruct (executed r); [done|]. destruct (bool_decide _); [done|].
    unfold keyed. simpl. apply map_Forall_insert_2; [|done]. simpl. by apply Hkeyed.
  - intros. unfold create_request, generate_id.
    destruct (world_now w) as [now w1]. destruct (world_now w1) as [created w2].
    unfold keyed. cbn [fst snd requests_ set_requests].
    by apply map_Forall_insert_2.
  - intros k r Hk. destruct (check_and_execute_lookup m w k) as (_ & _ & Hl).
    destruct (requests_ m !! k) as [r0|] eqn:Hr0; [|congruence].
    destruct (ready _ r0).
    + destruct Hl as [now Hl]. rewrite Hl in Hk. injection Hk as <-. simpl. by apply Hkeyed.
    + rewrite Hl in Hk. injection Hk as <-. by apply Hkeyed.
  - intros k r Hk. rewrite cleanup_expired_lookup in Hk by done.
    destruct (requests_ m !! k) as [r0|] eqn:Hr0; [|done].
    destruct (expired _ r0); [done|]. injection Hk as <-. by apply Hkeyed.
Qed.

Lemma expired_spec now r :
  (- 2 ^ 63 <= now - executed_at r < 2 ^ 63)%Z ->
  expired now r = executed r && (24 * Chrono.ns_per_hour <=? now - executed_at r)%Z.
Proof.
  intros Hrange. unfold expired, elapsed_hours. rewrite wrap64_small by done.
  f_equal. unfold Chrono.ns_per_hour, Chrono.ns_per_second.
  set (d := (now - executed_at r)%Z).
  destruct (Z.leb_spec (24 * (3600 * 1000000000)) d) as [H|H].
  - apply Z.leb_le. apply Z.quot_le_lower_bound; lia.
  - apply Z.leb_gt. destruct (Z_lt_le_dec d 0).
    + pose proof (Z.quot_opp_l d (3600 * 1000000000) ltac:(lia)).
      pose proof (Z.quot_pos (- d) (3600 * 1000000000) ltac:(lia) ltac:(lia)). lia.
    + apply Z.quot_lt_upper_bound; lia.
Qed.

(** X18: what [cleanup_expired] removes, in a manager whose requests are
    filed under their ids. A request goes exactly when it is expired at
    the time [now] read from the clock, and every other request stays as
    it is; a request that is not executed never expires; while the
    difference of the two times fits the clock's range, an executed
    request expires exactly when at least 24 hours have passed since its
    execution; and the images handed to [delete_image] are the image
    names, where not empty, of the requests removed. *)
Theorem cleanup_expired_removes (m : t) (w : World) :
  keyed m ->
  let now := (world_now w).1 in
  (forall k, requests_ (cleanup_expired m w).1.1 !! k
             = match requests_ m !! k with
               | Some r => if expired now r then None else Some r
               | None => None
               end) /\
  (forall r, executed r = false -> expired now r = false) /\
  (forall r, (- 2 ^ 63 <= now - executed_at r < 2 ^ 63)%Z ->
     expired now r = executed r && (24 * Chrono.ns_per_hour <=? now - executed_at r)%Z) /\
  (forall p, p ∈ (cleanup_expired m w).1.2 <->
     p <> [] /\ exists k r, requests_ m !! k = Some r /\ expired now r = true /\
                            image_path r = p).
Proof.
  intros Hkeyed now. split_and!.
  - intros k. by apply cleanup_expired_lookup.
  - intros r He. unfold expired. by rewrite He.
  - intros r. apply expired_spec.
  - intros p. unfold cleanup_expired.
    change (world_now w) with (now, (world_now w).2). cbv iota. simpl.
    rewrite list_elem_of_In, List.filter_In, in_map_iff. split.
    + intros [((k & r) & Hp & Hin) Hne]. simpl in *.
      apply List.filter_In in Hin as [Hin Hex]. simpl in *.
      apply list_elem_of_In, elem_of_map_to_list in Hin.
      split; [by destruct p|]. eauto.
    + intros [Hne (k & r & Hk & Hex & Hp)]. split; [|by destruct p].
      exists (k, r). split; [done|]. apply List.filter_In.
      split; [|done]. by apply list_elem_of_In, elem_of_map_to_list.
Qed.

(** X19: a request just created. [create_request] files under the new id
    a request with the trimmed applicant, command and reason, no voter,
    not executed, created at the second reading of the clock; the image
    is stored, under the id followed by the extension, when there is
    image data and the file could be opened, and the request names it
    then; every other id is as before; and a first vote on the new
    request, from any address, is accepted and makes that address its
    only voter. *)
Theorem create_request_fresh (drawn : Z) (opened : bool)
    (applicant command reason image_data image_ext : str) (m : t) (w : World) :
  let result := create_request drawn opened applicant command reason image_data image_ext m w in
  let new_id := result.1.1.1 in
  let stored := result.1.1.2 in
  let m1 := result.1.2 in
  new_id = (generate_id drawn w).1 /\
  stored = (if PlayerList.is_empty image_data || negb opened then None
            else Some (new_id ++ image_ext, image_data)) /\
  get_request new_id m1
  = Some (mk_request new_id (trim applicant) (trim command) (trim reason)
            (if PlayerList.is_empty image_data || negb opened then [] else new_id ++ image_ext)
            ∅ (world_now (generate_id drawn w).2).1 0 false) /\
  (forall other, other <> new_id -> get_request other m1 = get_request other m) /\
  (forall ip, (vote new_id ip m1).1 = 0%Z /\
              exists r, get_request new_id (vote new_id ip m1).2 = Some r /\
                        voted_ips r = {[ip]}).
Proof.
  cbv zeta. unfold create_request, get_request.
  destruct (generate_id drawn w) as [new_id w1]. cbn [fst snd].
  destruct (world_now w1) as [created w2].
  cbn [fst snd requests_ set_requests].
  split_and!.
  - done.
  - by destruct image_data, opened.
  - rewrite lookup_insert_eq. by destruct image_data, opened.
  - intros other Hne. by apply lookup_insert_ne.
  - intros ip. unfold vote. cbn [requests_ set_requests]. rewrite lookup_insert_eq.
    cbn [executed voted_ips]. rewrite bool_decide_eq_false_2 by set_solver.
    cbn [fst snd requests_ set_requests]. split; [done|].
    eexists. split; [apply lookup_insert_eq|]. simpl. set_solver.
Qed.

Lemma filter_nothing {A} (f : A -> bool) (l : list A) :
  (forall x, x ∈ l -> f x = false) -> List.filter f l = [].
Proof.
  induction l as [|a l IH]; intros H; [done|].
  simpl. rewrite (H a) by left. apply IH. intros x Hx. apply H. by right.
Qed.

Lemma filter_unique {A} (f : str * A -> bool) (l : list (str * A)) k v :
  NoDup l.*1 -> (k, v) ∈ l -> f (k, v) = true ->
  (forall k' v', (k', v') ∈ l -> k' <> k -> f (k', v') = false) ->
  List.filter f l = [(k, v)].
Proof.
  induction l as [|[k0 v0] l IH]; intros Hnd Hin Hf Hother.
  - by apply elem_of_nil in Hin.
  - simpl in Hnd. apply NoDup_cons in Hnd as [Hk0 Hnd].
    assert (Hrest : forall k' v', (k', v') ∈ l -> k' <> k0).
    { intros k' v' Hin' ->. apply Hk0. apply list_elem_of_fmap. by exists (k0, v'). }
    apply elem_of_cons in Hin as [[= <- <-]|Hin].
    + simpl. rewrite Hf. f_equal. apply filter_nothing.
      intros [k' v'] Hin'. apply Hother; [by right | by apply (Hrest k' v')].
    + simpl. rewrite (Hother k0 v0).
      * apply IH; try done. intros k' v' Hin' Hne. apply Hother; [by right | done].
      * by left.
      * intros ->. by apply (Hrest k v).
Qed.

(** X20: from the votes to the server console. A request that is not
    executed gets the votes of as many different addresses as the
    threshold asks for, or more, and no other request is ready. With the
    callback that main.cpp installs and a live child, the next pass of
    the executor calls back once, for this request, and the child
    receives the command, without one leading slash, followed by a
    newline. *)
Theorem voted_command_reaches_child (request_id : str) (ips : list str) (m : t)
    (r : RequestInfo) (w : World) :
  requests_ m !! request_id = Some r -> executed r = false ->
  NoDup ips -> vote_threshold_ m <= length ips ->
  (forall k r', k <> request_id -> requests_ m !! k = Some r' ->
     ready (vote_threshold_ m) r' = false) ->
  execute_callback_ m = Some Samples.forward ->
  Program.running_ (w_child w) = true -> Program.stdin_pipe_w (w_child w) <> (-1)%Z ->
  let m' := (votes request_id ips m).2 in
  (check_and_execute m' w).1.2 = [(command r, applicant r)] /\
  Program.stdin_written (w_child (check_and_execute m' w).2)
  = Program.stdin_written (w_child w) ++ without_slash (command r) ++ [nl].
Proof.
  intros Hr He Hnd Hthr Hothers Hcb Hrun Hfd m'.
  destruct (votes_manager request_id ips m r Hr He) as (Hm' & Ht & Hc).
  fold m' in Hm', Ht, Hc.
  set (r' := mk_request _ _ _ _ _ _ _ _ _) in Hm'.
  assert (Hready : ready (vote_threshold_ m') r' = true).
  { unfold ready, vote_count. simpl. rewrite He, Ht. simpl. apply Nat.leb_le.
    etransitivity; [exact Hthr|].
    rewrite <- (size_list_to_set (C := gset str) ips) by done.
    apply subseteq_size. set_solver. }
  assert (Hpass : List.filter (fun kv => ready (vote_threshold_ m') kv.2)
                    (map_to_list (requests_ m')) = [(request_id, r')]).
  { apply filter_unique.
    - apply NoDup_fst_map_to_list.
    - apply elem_of_map_to_list. rewrite Hm'. apply lookup_insert_eq.
    - done.
    - intros k' v' Hin Hne. apply elem_of_map_to_list in Hin.
      rewrite Hm', lookup_insert_ne in Hin by done. simpl. rewrite Ht. by apply (Hothers k'). }
  pose proof (sweep_spec (vote_threshold_ m') (map_to_list (requests_ m')) w) as Hs.
  cbv zeta in Hs. destruct Hs as (_ & Hcalls & _).
  rewrite Hpass in Hcalls. simpl in Hcalls.
  pose proof (sweep_child (vote_threshold_ m') (map_to_list (requests_ m')) w) as Hchild.
  unfold check_and_execute. rewrite Hc, Hcb.
  destruct (sweep _ _ w) as [[entries to_execute] w1]. simpl in *.
  destruct to_execute as [|x [|y rest]]; try done.
  simpl in Hcalls. injection Hcalls as Hx1 Hx2.
  simpl. split; [by rewrite Hx1, Hx2|].
  unfold Samples.forward, ServerManager.execute_command. simpl.
  rewrite Hx1. unfold world_send.
  destruct (command r) as [|c rest] eqn:Ecmd; simpl.
  - rewrite Hchild, send_string_live by done. done.
  - destruct (Ascii.eqb c "/"); rewrite Hchild, send_string_live by done; done.
Qed.

End Engine.

(** ** Request ids *)

Section RequestIds.
Import Str CommandRequest HexSpec.
Open Scope Z_scope.

Lemma hex_digit_cases d :
  0 <= d < 16 -> hex_val (hex_digit d) = d /\ is_hex (hex_digit d) = true.
Proof.
  intros Hd.
  assert (H : forallb (fun i => (hex_val (hex_digit (Z.of_nat i)) =? Z.of_nat i)
                                && is_hex (hex_digit (Z.of_nat i))) (seq 0 16) = true)
    by (vm_compute; reflexivity).
  rewrite forallb_forall in H.
  assert (Hin : In (Z.to_nat d) (seq 0 16)) by (apply in_seq; lia).
  apply H in Hin. rewrite Z2Nat.id in Hin by lia.
  apply andb_true_iff in Hin as [H1 H2]. split; [lia | done].
Qed.

Lemma value_app s c : value (s ++ [c]) = 16 * value s + hex_val c.
Proof. unfold value. by rewrite fold_left_app. Qed.

Lemma value_hex_digits count : forall n,
  0 <= n -> value (hex_digits count n) = n mod 16 ^ Z.of_nat count.
Proof.
  induction count as [|count IH]; intros n Hn.
  - simpl. by rewrite Z.mod_1_r.
  - cbn [hex_digits]. rewrite value_app, IH by (apply Z.div_pos; lia).
    destruct (hex_digit_cases (n mod 16)) as [-> _]; [apply Z.mod_pos_bound; lia|].
    rewrite Nat2Z.inj_succ, Z.pow_succ_r by lia.
    rewrite (Z.rem_mul_r n 16 (16 ^ Z.of_nat count)) by lia. lia.
Qed.

Lemma is_hex_hex_digits count : forall n,
  Forall (fun c => is_hex c = true) (hex_digits count n).
Proof.
  induction count as [|count IH]; intros n; [constructor|].
  cbn [hex_digits]. apply Forall_app. split; [apply IH|].
  constructor; [|constructor]. apply hex_digit_cases, Z.mod_pos_bound. lia.
Qed.

Lemma drop_zeros_spec s :
  value (drop_zeros s) = value s /\
  (Forall (fun c => is_hex c = true) s -> Forall (fun c => is_hex c = true) (drop_zeros s)).
Proof.
  induction s as [|c [|d t] IH]; [done | done |].
  change (drop_zeros (c :: d :: t))
    with (if Ascii.eqb c "0" then drop_zeros (d :: t) else c :: d :: t).
  destruct (Ascii.eqb_spec c "0") as [->|Hne]; [|done].
  destruct IH as [IH1 IH2]. split.
  - rewrite IH1. done.
  - intros [_ H]%Forall_cons. by apply IH2.
Qed.

Lemma to_hex_spec n :
  0 <= n < 2 ^ 64 ->
  value (to_hex n) = n /\ Forall (fun c => is_hex c = true) (to_hex n).
Proof.
  intros Hn. unfold to_hex.
  destruct (drop_zeros_spec (hex_digits 16 (n mod 2 ^ 64))) as [H1 H2].
  split.
  - rewrite H1, value_hex_digits by (apply Z.mod_pos_bound; lia).
    change (16 ^ Z.of_nat 16) with (2 ^ 64). rewrite Z.mod_mod by lia.
    apply Z.mod_small. lia.
  - apply H2, is_hex_hex_digits.
Qed.

Lemma split_at_dash (a a' b b' : str) :
  Forall (fun c => is_hex c = true) a -> Forall (fun c => is_hex c = true) a' ->
  a ++ "-"%char :: b = a' ++ "-"%char :: b' -> a = a' /\ b = b'.
Proof.
  revert a'. induction a as [|x a IH]; intros [|x' a'] Ha Ha' E; simpl in E.
  - by injection E.
  - injection E as <- _. apply Forall_cons in Ha' as [Hx _]. done.
  - injection E as -> _. apply Forall_cons in Ha as [Hx _]. done.
  - injection E as -> E. apply Forall_cons in Ha as [_ Ha]. apply Forall_cons in Ha' as [_ Ha'].
    destruct (IH a' Ha Ha' E) as [-> ->]. done.
Qed.

(** X21: request ids. For a clock after the epoch and a number drawn
    between 1000 and 9999, the id is made of hexadecimal digits and one
    dash, and two ids are equal exactly when they were made in the same
    millisecond from the same number. *)
Theorem generate_id_injective (drawn1 drawn2 : Z) (w1 w2 : World) :
  let ms1 := Z.quot (world_now w1).1 1000000 in
  let ms2 := Z.quot (world_now w2).1 1000000 in
  0 <= (world_now w1).1 <= Chrono.time_point_max ->
  0 <= (world_now w2).1 <= Chrono.time_point_max ->
  1000 <= drawn1 <= 9999 -> 1000 <= drawn2 <= 9999 ->
  Forall (fun c => is_hex c = true \/ c = "-"%char) (generate_id drawn1 w1).1 /\
  ((generate_id drawn1 w1).1 = (generate_id drawn2 w2).1 <-> ms1 = ms2 /\ drawn1 = drawn2).
Proof.
  intros ms1 ms2 H1 H2 Hd1 Hd2. unfold Chrono.time_point_max in *.
  assert (Hms : forall now, 0 <= now <= 2 ^ 63 - 1 -> 0 <= Z.quot now 1000000 < 2 ^ 64).
  { intros now Hnow. rewrite Z.quot_div_nonneg by lia.
    split; [apply Z.div_pos; lia|].
    apply Z.div_lt_upper_bound; [lia|]. pow64. lia. }
  assert (Hd : forall d, 1000 <= d <= 9999 -> 0 <= d < 2 ^ 64) by (intros; pow64; lia).
  unfold generate_id.
  change (world_now w1) with ((world_now w1).1, (world_now w1).2).
  change (world_now w2) with ((world_now w2).1, (world_now w2).2).
  cbv iota. fold ms1 ms2. cbn [fst snd].
  change (lit "-") with ["-"%char]. cbn [app].
  destruct (to_hex_spec ms1 (Hms _ H1)) as [V1 F1].
  destruct (to_hex_spec ms2 (Hms _ H2)) as [V2 F2].
  destruct (to_hex_spec drawn1 (Hd _ Hd1)) as [V3 F3].
  destruct (to_hex_spec drawn2 (Hd _ Hd2)) as [V4 F4].
  split.
  - apply Forall_app. split.
    + eapply Forall_impl; [exact F1|]. by left.
    + constructor; [by right|]. eapply Forall_impl; [exact F3|]. by left.
  - split.
    + intros [Ea Eb]%split_at_dash; [|done|done]. split; congruence.
    + by intros [-> ->].
Qed.

End RequestIds.

Section EngineWitnesses.
Import Str CommandRequest RequestSpec.

(** Three votes on the sample request [r2]: one from its voter, two from
    a new address. *)
Lemma votes_count_addresses_witness :
  let codes := (votes (lit "r2") [lit "1.2.3.4"; lit "9.9.9.9"; lit "9.9.9.9"]
                  Samples.engine).1 in
  length codes = 3 /\ Forall (fun code => code = 0%Z \/ code = 1%Z) codes.
Proof.
  intros codes.
  destruct (votes_count_addresses (lit "r2") [lit "1.2.3.4"; lit "9.9.9.9"; lit "9.9.9.9"]
              Samples.engine Samples.r2 eq_refl eq_refl) as (_ & _ & _ & H4 & H5 & _).
  split; [exact H4 | exact H5].
Defined.

Lemma check_and_execute_settles_witness :
  let m1 := (check_and_execute Samples.engine Samples.world0).1.1 in
  check_and_execute m1 Samples.world0 = (m1, [], Samples.world0) /\
  vote (lit "r1") (lit "9.9.9.9") m1 = (3%Z, m1).
Proof.
  intros m1.
  destruct (check_and_execute_settles Samples.engine Samples.world0 Samples.world0)
    as (_ & H2 & H3).
  split; [exact H2|]. apply (H3 (lit "r1") Samples.r1); reflexivity.
Defined.

Lemma requests_stay_keyed_witness :
  keyed (check_and_execute Samples.engine Samples.world0).1.1 /\
  keyed (cleanup_expired Samples.engine Samples.world0).1.1.
Proof.
  destruct (requests_stay_keyed Samples.engine Samples.world0) as (_ & _ & H3 & H4).
  - unfold keyed, Samples.engine. simpl.
    repeat (apply map_Forall_insert_2; [reflexivity|]). apply map_Forall_empty.
  - split; [exact H3 | exact H4].
Defined.

(** At the sample time the request [r3], executed five nanoseconds after
    the epoch, is long expired; [r1] is not executed. *)
Lemma cleanup_expired_removes_witness :
  requests_ (cleanup_expired Samples.engine Samples.world0).1.1 !! lit "r3" = None /\
  requests_ (cleanup_expired Samples.engine Samples.world0).1.1 !! lit "r1" = Some Samples.r1.
Proof.
  destruct (cleanup_expired_removes Samples.engine Samples.world0) as (H & _).
  - unfold keyed, Samples.engine. simpl.
    repeat (apply map_Forall_insert_2; [reflexivity|]). apply map_Forall_empty.
  - split; rewrite H; reflexivity.
Defined.

Lemma create_request_fresh_witness :
  let result := create_request 4242 true (lit " Bob ") (lit "/pardon Bob") (lit "sorry")
                  (lit "PNG") (lit ".png") Samples.engine Samples.world0 in
  (vote result.1.1.1 (lit "9.9.9.9") result.1.2).1 = 0%Z.
Proof.
  intros result.
  destruct (create_request_fresh 4242 true (lit " Bob ") (lit "/pardon Bob") (lit "sorry")
              (lit "PNG") (lit ".png") Samples.engine Samples.world0) as (_ & _ & _ & _ & H).
  apply (H (lit "9.9.9.9")).
Defined.

Lemma generate_id_injective_witness :
  Forall (fun c => HexSpec.is_hex c = true \/ c = "-"%char)
    (generate_id 4242 Samples.world0).1.
Proof.
  apply (generate_id_injective 4242 4242 Samples.world0 Samples.world0);
    vm_compute; split; congruence.
Defined.

(** Two new addresses vote for the only request of a manager with a
    threshold of two. *)
Lemma voted_command_reaches_child_witness :
  let m := mk 2 (Some Samples.forward) {[lit "r2" := Samples.r2]} in
  let m' := (votes (lit "r2") [lit "9.9.9.9"; lit "8.8.8.8"] m).2 in
  Program.stdin_written (w_child (check_and_execute m' Samples.world0).2)
  = lit "time set day" ++ [nl].
Proof.
  intros m m'.
  apply (voted_command_reaches_child (lit "r2") [lit "9.9.9.9"; lit "8.8.8.8"] m
           Samples.r2 Samples.world0).
  - reflexivity.
  - reflexivity.
  - apply NoDup_cons. split; [by intros ?%list_elem_of_singleton | apply NoDup_singleton].
  - simpl. lia.
  - intros k r' Hne Hk. unfold m in Hk. simpl in Hk.
    rewrite lookup_singleton_ne in Hk by done. done.
  - reflexivity.
  - reflexivity.
  - discriminate.
Defined.

End EngineWitnesses.

(** ** The log cache *)

Section LogCache.
Context {libc : Chrono.Libc}.
Import Str ServerLog.

Lemma add_log_entry_length entry cache :
  length cache <= MAX_LOG_CACHE ->
  length (add_log_entry entry cache) <= MAX_LOG_CACHE.
Proof.
  intros H. unfold add_log_entry.
  destruct (Nat.ltb_spec MAX_LOG_CACHE (length (cache ++ [entry]))) as [Hlt|Hge]; [|done].
  rewrite length_drop, length_app in *. simpl in *. lia.
Qed.

Lemma add_log_entries (entries : list ServerLogEntry) : forall cache,
  length cache <= MAX_LOG_CACHE ->
  foldl (fun c e => add_log_entry e c) cache entries
  = drop (length (cache ++ entries) - MAX_LOG_CACHE) (cache ++ entries).
Proof.
  induction entries as [|e rest IH]; intros cache Hlen.
  - simpl. rewrite app_nil_r.
    replace (length cache - MAX_LOG_CACHE) with 0 by lia. done.
  - cbn [foldl]. rewrite IH by (by apply add_log_entry_length).
    unfold add_log_entry.
    destruct (Nat.ltb_spec MAX_LOG_CACHE (length (cache ++ [e]))) as [Hlt|Hge].
    + rewrite length_app in Hlt. simpl in Hlt.
      assert (Hfull : length cache = MAX_LOG_CACHE) by lia.
      replace (cache ++ e :: rest) with ((cache ++ [e]) ++ rest)
        by (by rewrite <- app_assoc).
      destruct (cache ++ [e]) as [|x pushed] eqn:E.
      { by destruct cache. }
      assert (Hp : length pushed = MAX_LOG_CACHE).
      { apply (f_equal length) in E. rewrite length_app in E. simpl in E. lia. }
      simpl. rewrite drop_0. rewrite !length_app, Hp.
      replace (MAX_LOG_CACHE + length rest - MAX_LOG_CACHE) with (length rest) by lia.
      replace (S (MAX_LOG_CACHE + length rest) - MAX_LOG_CACHE) with (S (length rest))
        by lia.
      done.
    + by rewrite <- app_assoc.
Qed.

(** X22: [get_logs] hands out the end of the cache: all of it for a
    limit of 0 or a limit the cache does not exceed, the newest [limit]
    entries otherwise, in the order of the cache. After entries have been
    added to a cache within its cap, these are the newest entries of all,
    old and new: as many as the limit asks for, and never more than the
    cap. *)
Theorem get_logs_newest (limit : nat) (entries cache : list ServerLogEntry) :
  (exists older, cache = older ++ get_logs limit cache) /\
  length (get_logs limit cache)
  = (if limit =? 0 then length cache else Nat.min limit (length cache)) /\
  (length cache <= MAX_LOG_CACHE ->
   let all := cache ++ entries in
   let kept := Nat.min MAX_LOG_CACHE (length all) in
   get_logs limit (foldl (fun c e => add_log_entry e c) cache entries)
   = drop (length all - (if limit =? 0 then kept else Nat.min limit kept)) all).
Proof.
  split_and!.
  - unfold get_logs. destruct (Nat.eqb_spec limit 0) as [->|Hne]; simpl.
    + by exists [].
    + destruct (Nat.leb_spec (length cache) limit); [by exists []|].
      exists (take (length cache - limit) cache). by rewrite take_drop.
  - unfold get_logs. destruct (Nat.eqb_spec limit 0) as [->|Hne]; simpl; [done|].
    destruct (Nat.leb_spec (length cache) limit); [lia|].
    rewrite length_drop. lia.
  - intros Hcache all kept. rewrite add_log_entries by done. fold all.
    unfold get_logs. rewrite length_drop.
    destruct (Nat.eqb_spec limit 0) as [->|Hne]; simpl.
    + f_equal. unfold kept. lia.
    + destruct (Nat.leb_spec (length all - (length all - MAX_LOG_CACHE)) limit).
      * f_equal. unfold kept. lia.
      * rewrite drop_drop. f_equal. unfold kept. lia.
Qed.

Lemma log_line_length line pl cache w :
  length cache <= MAX_LOG_CACHE ->
  length (log_line line pl cache w).1.2 <= MAX_LOG_CACHE.
Proof.
  intros H. unfold log_line. destruct line as [|c line]; [done|].
  destruct (PlayerList.process_log_line _ pl w) as [[event pl1] w1].
  unfold get_current_time_string. destruct (world_now w1) as [now w2].
  destruct (PlayerList.type event); simpl; try done; by apply add_log_entry_length.
Qed.

Lemma log_lines_length (lines : list str) : forall pl cache w,
  length cache <= MAX_LOG_CACHE ->
  length (log_lines lines pl cache w).1.2 <= MAX_LOG_CACHE.
Proof.
  unfold log_lines.
  induction lines as [|line lines IH]; intros pl cache w H; [done|].
  cbn [foldl]. pose proof (log_line_length line pl cache w H) as H1.
  destruct (log_line line pl cache w) as [[pl1 cache1] w1]. by apply IH.
Qed.

(** X23: the cache keeps the newest entries. Starting from a cache
    within its cap, after any number of entries have been added the cache
    holds the last [MAX_LOG_CACHE] of all entries, old and new, in their
    order (all of them while they are fewer), and is within its cap; and
    whatever lines the child prints, the log reader keeps the cache
    within its cap. *)
Theorem log_cache_keeps_newest (entries cache : list ServerLogEntry) :
  length cache <= MAX_LOG_CACHE ->
  foldl (fun c e => add_log_entry e c) cache entries
  = drop (length (cache ++ entries) - MAX_LOG_CACHE) (cache ++ entries) /\
  length (foldl (fun c e => add_log_entry e c) cache entries) <= MAX_LOG_CACHE /\
  (forall lines pl w, length (log_lines lines pl cache w).1.2 <= MAX_LOG_CACHE).
Proof.
  intros Hcache. split_and!.
  - by apply add_log_entries.
  - rewrite add_log_entries by done. rewrite length_drop. lia.
  - intros lines pl w. by apply log_lines_length.
Qed.

End LogCache.

Section LogCacheWitnesses.
Import Str ServerLog.

(** Two entries into an empty cache; a join line and a line of no kind
    read by the log reader. *)
Lemma log_cache_keeps_newest_witness :
  let e := mk_entry (lit "2023-11-14 22:13:20") (lit "chat") (lit "Alice") (lit "hello")
             Samples.t0 in
  foldl (fun c e => add_log_entry e c) [] [e; e] = [e; e] /\
  length (log_lines (libc := Chrono.utc)
            [lit "[12:34:56] [Server thread/INFO]: Alice joined the game" ++ [nl];
             lit "[12:34:57] [Server thread/INFO]: Saving the game" ++ [nl]]
            Samples.registry [] Samples.world0).1.2 <= MAX_LOG_CACHE.
Proof.
  intros e.
  destruct (log_cache_keeps_newest (libc := Chrono.utc) [e; e] []) as (H1 & _ & H3).
  - unfold MAX_LOG_CACHE. simpl. lia.
  - split; [rewrite H1; reflexivity | apply H3].
Defined.

(** Three entries are logged; the two newest are asked for. *)
Lemma get_logs_newest_witness :
  let e n := mk_entry (lit "2023-11-14 22:13:20") (lit "chat") (lit "Alice") (lit "hello") n in
  get_logs 2 (foldl (fun c e => add_log_entry e c) [e 1%Z] [e 2%Z; e 3%Z]) = [e 2%Z; e 3%Z].
Proof.
  intros e.
  destruct (get_logs_newest 2 [e 2%Z; e 3%Z] [e 1%Z]) as (_ & _ & H).
  rewrite H; [reflexivity|]. unfold MAX_LOG_CACHE. simpl. lia.
Defined.

End LogCacheWitnesses.

(** ** The web server's helpers and the vote handler *)

Section Web.
Import Str WebServer JsonSpec.

Lemma unescape_one_escape_char c rest :
  unescape_one (escape_char c ++ rest) = Some (c, rest).
Proof. destruct c as [[] [] [] [] [] [] [] []]; reflexivity. Qed.

Lemma escape_char_printable c : Forall (fun x => 32 <= nat_of_ascii x) (escape_char c).
Proof.
  assert (H : forallb (fun n => forallb (fun x => 32 <=? nat_of_ascii x)
                                  (escape_char (ascii_of_nat n))) (seq 0 256) = true)
    by (vm_compute; reflexivity).
  rewrite forallb_forall in H. specialize (H (nat_of_ascii c)).
  rewrite ascii_nat_embedding in H.
  apply Forall_forall. intros x Hx. apply Nat.leb_le.
  assert (Hc : In (nat_of_ascii c) (seq 0 256)).
  { apply in_seq. pose proof (nat_ascii_bounded c). lia. }
  specialize (H Hc). rewrite forallb_forall in H. apply H. by apply list_elem_of_In.
Qed.

(** X24: [escape_json] loses nothing and leaves no control character:
    every character of its result has a code of 32 or more, and two
    texts with the same escaped form are the same text. *)
Theorem escape_json_lossless (s1 s2 : str) :
  Forall (fun x => 32 <= nat_of_ascii x) (escape_json s1) /\
  (escape_json s1 = escape_json s2 -> s1 = s2).
Proof.
  split.
  - unfold escape_json. induction s1 as [|c s1 IH]; [constructor|].
    simpl. apply Forall_app. split; [apply escape_char_printable | done].
  - revert s2. unfold escape_json.
    induction s1 as [|c1 s1 IH]; intros [|c2 s2] E; simpl in E.
    + done.
    + apply (f_equal unescape_one) in E.
      rewrite unescape_one_escape_char in E. done.
    + apply (f_equal unescape_one) in E.
      rewrite unescape_one_escape_char in E. done.
    + apply (f_equal unescape_one) in E.
      rewrite !unescape_one_escape_char in E.
      injection E as -> E. f_equal. by apply IH.
Qed.

Lemma rfind_char_from_absent c s i : c ∉ s -> rfind_char_from c s i = None.
Proof.
  revert i. induction s as [|x t IH]; intros i Hs; simpl; [done|].
  apply not_elem_of_cons in Hs as [Hx Hs]. rewrite IH by done.
  by rewrite (proj2 (ascii_eqb_false x c)) by congruence.
Qed.

Lemma rfind_char_from_last c stem ext i :
  c ∉ ext -> rfind_char_from c (stem ++ c :: ext) i = Some (i + length stem).
Proof.
  revert i. induction stem as [|x stem IH]; intros i Hext; simpl.
  - rewrite rfind_char_from_absent by done.
    rewrite (proj2 (ascii_eqb_true c c) eq_refl). f_equal. lia.
  - rewrite IH by done. f_equal. lia.
Qed.

(** X25: [get_file_extension] returns the name from its last dot on,
    the dot included, and the empty text for a name without a dot. *)
Theorem get_file_extension_last_dot (filename : str) :
  ("."%char ∉ filename -> get_file_extension filename = []) /\
  (forall stem ext, filename = stem ++ "."%char :: ext -> "."%char ∉ ext ->
     get_file_extension filename = "."%char :: ext).
Proof.
  unfold get_file_extension. split.
  - intros H. by rewrite rfind_char_from_absent.
  - intros stem ext -> Hext. rewrite rfind_char_from_last by done. simpl.
    unfold substr_from. by rewrite drop_app_length.
Qed.

(** X26: the vote handler never answers 500. It leaves the status alone
    (success), or sets 400 or 404; 404 exactly when the request does not
    exist; unless it succeeds the manager is unchanged; and when it
    succeeds the request existed, was not executed, had not this address
    among its voters and has it now, all other requests being as
    before. *)
Theorem handle_post_vote_status (request_id ip : str) (m : CommandRequest.t) :
  let status := (handle_post_vote request_id ip m).1.1 in
  let m1 := (handle_post_vote request_id ip m).2 in
  (status = None \/ status = Some 400 \/ status = Some 404) /\
  (status = Some 404 <-> CommandRequest.get_request request_id m = None) /\
  (status <> None -> m1 = m) /\
  (status = None ->
     exists r, CommandRequest.get_request request_id m = Some r /\
               CommandRequest.executed r = false /\ (ip ∉ CommandRequest.voted_ips r) /\
               CommandRequest.get_request request_id m1 = Some (CommandRequest.add_vote ip r) /\
               forall other, other <> request_id ->
                 CommandRequest.get_request other m1 = CommandRequest.get_request other m).
Proof.
  cbv zeta. unfold handle_post_vote, CommandRequest.vote, CommandRequest.get_request.
  destruct (CommandRequest.requests_ m !! request_id) as [r|] eqn:Hr; simpl.
  - destruct (CommandRequest.executed r) eqn:He; simpl.
    { split_and!; [auto | by split | done | done]. }
    destruct (decide (ip ∈ CommandRequest.voted_ips r)) as [Hin|Hout].
    + rewrite bool_decide_eq_true_2 by done. simpl.
      split_and!; [auto | by split | done | done].
    + rewrite bool_decide_eq_false_2 by done. simpl.
      split_and!; [auto | by split | done |].
      intros _. exists r. split_and!; try done.
      * apply lookup_insert_eq.
      * intros other Hne. by apply lookup_insert_ne.
  - split_and!; [auto | by split | done | done].
Qed.

(** X27: the address a request is counted under. With an
    X-Forwarded-For header it is the text of the header before its first
    comma, as it stands, or the whole header when there is no comma,
    whatever X-Real-IP and the peer address are; without that header it
    is X-Real-IP when present and the peer address otherwise. *)
Theorem get_client_ip_precedence (req : Request) :
  (forall first others, x_forwarded_for req = Some (first ++ ","%char :: others) ->
     ","%char ∉ first -> get_client_ip req = first) /\
  (forall xff, x_forwarded_for req = Some xff -> ","%char ∉ xff -> get_client_ip req = xff) /\
  (x_forwarded_for req = None ->
     get_client_ip req = default (remote_addr req) (x_real_ip req)).
Proof.
  unfold get_client_ip. split_and!.
  - intros first others -> Hfirst. unfold find_char. rewrite drop_0.
    rewrite find_char_from_split by done. simpl.
    unfold substr. rewrite drop_0. by rewrite take_app_length.
  - intros xff -> Hxff. unfold find_char. rewrite drop_0.
    by rewrite find_char_from_absent.
  - intros ->. by destruct (x_real_ip req).
Qed.

End Web.

Section WebWitnesses.
Import Str WebServer.

(** A line break and a quotation mark are written with a backslash. *)
Lemma escape_json_lossless_witness :
  Forall (fun x => 32 <= nat_of_ascii x) (escape_json (lit "say " ++ [dq; nl])) /\
  lit "a|b" = lit "a|b".
Proof.
  destruct (escape_json_lossless (lit "say " ++ [dq; nl]) (lit "x")) as [H1 _].
  destruct (escape_json_lossless (lit "a|b") (lit "a|b")) as [_ H2].
  split; [exact H1 | exact (H2 eq_refl)].
Defined.

Lemma get_file_extension_last_dot_witness :
  get_file_extension (lit "photo.tar.gz") = lit ".gz" /\
  get_file_extension (lit "README") = [].
Proof.
  destruct (get_file_extension_last_dot (lit "photo.tar.gz")) as [_ H1].
  destruct (get_file_extension_last_dot (lit "README")) as [H2 _].
  split.
  - apply (H1 (lit "photo.tar") (lit "gz")); [reflexivity | apply no_char_spec; reflexivity].
  - apply H2. apply no_char_spec. reflexivity.
Defined.

(** A vote on the sample request [r2] from a new address, and one on a
    request that does not exist. *)
Lemma handle_post_vote_status_witness :
  (exists r, CommandRequest.get_request (lit "r2")
               (handle_post_vote (lit "r2") (lit "9.9.9.9") Samples.engine).2 = Some r /\
             CommandRequest.vote_count r = 2) /\
  (handle_post_vote (lit "r9") (lit "9.9.9.9") Samples.engine).2 = Samples.engine.
Proof.
  destruct (handle_post_vote_status (lit "r2") (lit "9.9.9.9") Samples.engine)
    as (_ & _ & _ & Hok).
  destruct (handle_post_vote_status (lit "r9") (lit "9.9.9.9") Samples.engine)
    as (_ & _ & Hfail & _).
  split.
  - destruct (Hok eq_refl) as (r & Hr & _ & _ & Hr1 & _).
    eexists. split; [exact Hr1|].
    injection Hr as <-. reflexivity.
  - apply Hfail. discriminate.
Defined.

Lemma get_client_ip_precedence_witness :
  get_client_ip (mk_req (Some (lit "1.2.3.4, 10.0.0.1")) (Some (lit "5.6.7.8"))
                   (lit "127.0.0.1")) = lit "1.2.3.4" /\
  get_client_ip (mk_req None None (lit "127.0.0.1")) = lit "127.0.0.1".
Proof.
  split.
  - apply (proj1 (get_client_ip_precedence _) (lit "1.2.3.4") (lit " 10.0.0.1"));
      [reflexivity | apply no_char_spec; reflexivity].
  - exact (proj2 (proj2 (get_client_ip_precedence
                          (mk_req None None (lit "127.0.0.1")))) eq_refl).
Defined.

End WebWitnesses.

Section SearchWitness.
Import Str PlayerList.

(** Two known players in a bracket line: the one named first is found. *)
Lemma earliest_player_first_witness :
  match (earliest_player (lit "[Bob: Killed Alice]") [lit "Alice"; lit "Bob"]).2 with
  | Some p =>
      (earliest_player (lit "[Bob: Killed Alice]") [lit "Alice"; lit "Bob"]).1
        ∈ [lit "Alice"; lit "Bob"] /\
      find (earliest_player (lit "[Bob: Killed Alice]") [lit "Alice"; lit "Bob"]).1 0
        (lit "[Bob: Killed Alice]") = Some p /\
      (forall q k, q ∈ [lit "Alice"; lit "Bob"] ->
         find q 0 (lit "[Bob: Killed Alice]") = Some k -> p <= k)
  | None =>
      (earliest_player (lit "[Bob: Killed Alice]") [lit "Alice"; lit "Bob"]).1 = [] /\
      forall q, q ∈ [lit "Alice"; lit "Bob"] -> find q 0 (lit "[Bob: Killed Alice]") = None
  end.
Proof.
  exact (earliest_player_first (lit "[Bob: Killed Alice]") [lit "Alice"; lit "Bob"]).
Defined.

End SearchWitness.

(** ** The request form *)

Section Forms.
Context {libc : Chrono.Libc}.
Import Str WebServer WebForms.


End Forms.

Section FormsWitness.
Import Str WebServer WebForms.


End FormsWitness.

(** ** The data file of the vote engine *)

Section DataFile.
Context {libc : Chrono.Libc} {ios : RequestFile.GetTime}.
Import Str CommandRequest RequestFile RequestFileSpec.

Lemma plain_end_app p v :
  BanFile.plain_end p = true -> BanFile.plain_end v = true -> BanFile.plain_end (p ++ v) = true.
Proof.
  unfold BanFile.plain_end. intros Hp Hv.
  destruct v as [|x v] using rev_ind; [by rewrite app_nil_r|].
  rewrite app_assoc, last_snoc. by rewrite last_snoc in Hv.
Qed.

Lemma trim_ends c s :
  is_trim_ws c = false -> BanFile.plain_end (c :: s) = true -> trim (c :: s) = c :: s.
Proof.
  intros Hc He. destruct s as [|d s] using rev_ind; [by apply trim_single|].
  unfold BanFile.plain_end in He.
  change (c :: s ++ [d]) with ((c :: s) ++ [d]) in He. rewrite last_snoc in He.
  apply negb_true_iff in He. by apply trim_plain.
Qed.

(** A line "key|value" inside a request. *)
Lemma load_line_field (key value : str) c k current requests w :
  key = c :: k -> is_trim_ws c = false -> c <> "="%char -> ("|"%char ∉ key) ->
  BanFile.plain_end (key ++ lit "|") = true ->
  BanFile.plain_end value = true ->
  load_line (current, true, requests, w) (key ++ "|"%char :: value)
  = ((load_field key value current w).1, true, requests, (load_field key value current w).2).
Proof.
  intros Hkey Hc Heq Hbar Hk Hv. unfold load_line.
  assert (Htrim : trim (key ++ "|"%char :: value) = key ++ "|"%char :: value).
  { change (key ++ "|"%char :: value) with (key ++ lit "|" ++ value).
    rewrite app_assoc. subst key. apply trim_ends; [done|].
    change (BanFile.plain_end (((c :: k) ++ lit "|") ++ value) = true).
    by apply plain_end_app. }
  rewrite Htrim. unfold PlayerList.str_eqb.
  rewrite (bool_decide_eq_false_2 (key ++ _ = lit "=== REQUEST ===")).
  2:{ subst key. intros [= E _]. done. }
  rewrite (bool_decide_eq_false_2 (key ++ _ = lit "=== END ===")).
  2:{ subst key. intros [= E _]. done. }
  cbn [negb].
  pose proof (find_char_after "|" [] key value Hbar) as Hfind. simpl in Hfind.
  rewrite Hfind.
  pose proof (substr_middle [] key ("|"%char :: value)) as Hsub. simpl in Hsub.
  rewrite Hsub.
  replace (substr_from (length key + 1) (key ++ "|"%char :: value)) with value.
  - by destruct (load_field key value current w).
  - change (key ++ "|"%char :: value) with (key ++ lit "|" ++ value).
    rewrite app_assoc.
    replace (length key + 1) with (length (key ++ lit "|")) by (rewrite length_app; done).
    by rewrite substr_from_app.
Qed.

Lemma load_line_begin current in_request requests w :
  load_line (current, in_request, requests, w) (lit "=== REQUEST ===")
  = (empty_request, true, requests, w).
Proof. reflexivity. Qed.

Lemma load_line_end current requests w :
  load_line (current, true, requests, w) (lit "=== END ===")
  = (current, false,
     if negb (PlayerList.is_empty (id current))
     then <[id current := current]> requests else requests, w).
Proof. reflexivity. Qed.

Lemma string_to_time_plain tp w :
  plain_time tp = true -> string_to_time (time_to_string tp) w = (tp, w).
Proof.
  unfold plain_time, string_to_time. rewrite !andb_true_iff.
  intros [[_ Hf] He]. apply negb_true_iff in Hf. apply Z.eqb_eq in He.
  by rewrite Hf, He.
Qed.

Lemma getfields_aux_field delim cur body rest :
  delim ∉ body ->
  getfields_aux delim cur (body ++ delim :: rest)
  = (rev cur ++ body) :: getfields_aux delim [] rest.
Proof.
  revert cur. induction body as [|c body IH]; intros cur H; simpl.
  - rewrite (proj2 (ascii_eqb_true delim delim) eq_refl). by rewrite app_nil_r.
  - apply not_elem_of_cons in H as [Hc Hb].
    rewrite (proj2 (ascii_eqb_false c delim)) by congruence.
    rewrite IH by done. simpl. by rewrite <- app_assoc.
Qed.

Lemma getfields_aux_last delim cur body :
  delim ∉ body -> body <> [] ->
  getfields_aux delim cur body = [rev cur ++ body].
Proof.
  revert cur. induction body as [|c body IH]; intros cur H Hne; [done|].
  apply not_elem_of_cons in H as [Hc Hb]. simpl.
  rewrite (proj2 (ascii_eqb_false c delim)) by congruence.
  destruct body as [|d body].
  - simpl. done.
  - rewrite IH by done. simpl. by rewrite <- app_assoc.
Qed.

Lemma plain_ip_spec ip :
  plain_ip ip = true ->
  PlayersFile.plain_name ip = true /\ (","%char ∉ ip) /\ (nl ∉ ip) /\ ip <> [] /\
  BanFile.plain_end ip = true.
Proof.
  unfold plain_ip, PlayersFile.plain_name. rewrite !andb_true_iff, !no_char_spec.
  intros [[[H1 H2] H3] H4]. split_and!; try done. by destruct ip.
Qed.

Lemma write_ips_fields ip ips :
  Forall (fun ip => plain_ip ip = true) (ip :: ips) ->
  getfields "," (ip ++ write_ips false ips) = ip :: ips.
Proof.
  unfold getfields. revert ip. induction ips as [|ip2 ips IH]; intros ip Hall.
  - apply Forall_cons in Hall as [(_ & Hc & _ & Hne & _)%plain_ip_spec _].
    simpl. rewrite app_nil_r. by rewrite getfields_aux_last.
  - apply Forall_cons in Hall as [(_ & Hc & _ & Hne & _)%plain_ip_spec Hall].
    cbn [write_ips]. change (lit "," ++ ip2 ++ write_ips false ips)
      with (","%char :: ip2 ++ write_ips false ips).
    rewrite getfields_aux_field by done. simpl. f_equal. by apply IH.
Qed.

Lemma write_ips_plain first ips :
  Forall (fun ip => plain_ip ip = true) ips ->
  (nl ∉ write_ips first ips) /\ BanFile.plain_end (write_ips first ips) = true.
Proof.
  revert first. induction ips as [|ip ips IH]; intros first Hall.
  - split; [apply not_elem_of_nil | done].
  - apply Forall_cons in Hall as [(_ & _ & Hnl & _ & He)%plain_ip_spec Hall].
    destruct (IH false Hall) as [IH1 IH2]. cbn [write_ips]. split.
    + rewrite !not_elem_of_app. split_and!; try done.
      destruct first; [apply not_elem_of_nil|].
      intros Hin. apply list_elem_of_singleton in Hin. discriminate.
    + apply plain_end_app; [by destruct first|]. by apply plain_end_app.
Qed.

Lemma load_votes_written ips :
  Forall (fun ip => plain_ip ip = true) ips -> ips <> [] ->
  load_votes (write_ips true ips) ∅ = list_to_set ips.
Proof.
  intros Hall Hne. destruct ips as [|ip ips]; [done|].
  unfold load_votes. cbn [write_ips]. simpl app at 1.
  rewrite write_ips_fields by done.
  rewrite load_plain_names.
  - set_solver.
  - eapply Forall_impl; [exact Hall|]. intros x Hx. by apply plain_ip_spec.
Qed.

Lemma plain_value_spec s :
  plain_value s = true -> (nl ∉ s) /\ BanFile.plain_end s = true.
Proof.
  unfold plain_value. rewrite andb_true_iff, no_char_spec. done.
Qed.

(** The lines of a request that survives the file, read in any state of
    the loop, leave the request filed under its id. *)
Lemma load_block key r current in_request requests w :
  file_safe key r = true ->
  foldl load_line (current, in_request, requests, w) (request_lines r)
  = (r, false, <[key := r]> requests, w).
Proof.
  unfold file_safe. rewrite !andb_true_iff.
  intros [[[[[[[[[Hkey Hid] Hpid] Hpa] Hpc] Hpr] Hpi] Hct] Het] Hips].
  apply str_eqb_true in Hkey. subst key. apply negb_true_iff in Hid.
  apply plain_value_spec in Hpid as [_ Hpid], Hpa as [_ Hpa], Hpc as [_ Hpc],
    Hpr as [_ Hpr], Hpi as [_ Hpi].
  assert (Hct' : BanFile.plain_end (time_to_string (created_at r)) = true).
  { unfold plain_time in Hct. rewrite !andb_true_iff in Hct.
    destruct Hct as [[[_ H] _] _]. by apply plain_value_spec in H as [_ H]. }
  assert (Hips' : Forall (fun ip => plain_ip ip = true) (elements (voted_ips r))).
  { apply Forall_forall. intros ip Hin. rewrite forallb_forall in Hips.
    apply Hips. by apply list_elem_of_In. }
  unfold request_lines. cbn [foldl]. rewrite load_line_begin.
  change (lit "id|" ++ id r) with (lit "id" ++ "|"%char :: id r).
  change (lit "applicant|" ++ applicant r) with (lit "applicant" ++ "|"%char :: applicant r).
  change (lit "command|" ++ command r) with (lit "command" ++ "|"%char :: command r).
  change (lit "reason|" ++ reason r) with (lit "reason" ++ "|"%char :: reason r).
  change (lit "image|" ++ image_path r) with (lit "image" ++ "|"%char :: image_path r).
  change (lit "created|" ++ time_to_string (created_at r))
    with (lit "created" ++ "|"%char :: time_to_string (created_at r)).
  change (lit "executed|" ++ (if executed r then lit "1" else lit "0"))
    with (lit "executed" ++ "|"%char :: (if executed r then lit "1" else lit "0")).
  change (lit "executed_at|" ++ (if executed r then time_to_string (executed_at r) else []))
    with (lit "executed_at" ++ "|"%char
            :: (if executed r then time_to_string (executed_at r) else [])).
  change (lit "votes|" ++ write_ips true (elements (voted_ips r)))
    with (lit "votes" ++ "|"%char :: write_ips true (elements (voted_ips r))).
  field_line load_line_field no_char_spec (lit "id") "i"%char (lit "d").
  change (load_field (lit "id") (id r) empty_request w)
    with (mk_request (id r) [] [] [] [] ∅ 0 0 false, w). cbn [fst snd].
  field_line load_line_field no_char_spec (lit "applicant") "a"%char (lit "pplicant").
  change (load_field (lit "applicant") (applicant r) (mk_request (id r) [] [] [] [] ∅ 0 0 false) w)
    with (mk_request (id r) (applicant r) [] [] [] ∅ 0 0 false, w). cbn [fst snd].
  field_line load_line_field no_char_spec (lit "command") "c"%char (lit "ommand").
  change (load_field (lit "command") (command r) _ w)
    with (mk_request (id r) (applicant r) (command r) [] [] ∅ 0 0 false, w). cbn [fst snd].
  field_line load_line_field no_char_spec (lit "reason") "r"%char (lit "eason").
  change (load_field (lit "reason") (reason r) _ w)
    with (mk_request (id r) (applicant r) (command r) (reason r) [] ∅ 0 0 false, w).
  cbn [fst snd].
  field_line load_line_field no_char_spec (lit "image") "i"%char (lit "mage").
  change (load_field (lit "image") (image_path r) _ w)
    with (mk_request (id r) (applicant r) (command r) (reason r) (image_path r) ∅ 0 0 false, w).
  cbn [fst snd].
  field_line load_line_field no_char_spec (lit "created") "c"%char (lit "reated").
  change (load_field (lit "created") (time_to_string (created_at r)) _ w)
    with (let '(tp, w1) := string_to_time (time_to_string (created_at r)) w in
          (mk_request (id r) (applicant r) (command r) (reason r) (image_path r) ∅ tp 0 false,
           w1)).
  rewrite string_to_time_plain by done. cbn [fst snd].
  field_line load_line_field no_char_spec (lit "executed") "e"%char (lit "xecuted"); [|by destruct (executed r)].
  change (load_field (lit "executed") (if executed r then lit "1" else lit "0") _ w)
    with (mk_request (id r) (applicant r) (command r) (reason r) (image_path r) ∅
            (created_at r) 0
            (PlayerList.str_eqb (if executed r then lit "1" else lit "0") (lit "1")), w).
  cbn [fst snd].
  assert (Hex : PlayerList.str_eqb (if executed r then lit "1" else lit "0") (lit "1")
                = executed r) by (by destruct (executed r)).
  rewrite Hex.
  assert (Hvotes : forall cur,
    voted_ips cur = ∅ ->
    (load_field (lit "votes") (write_ips true (elements (voted_ips r))) cur w)
    = (mk_request (id cur) (applicant cur) (command cur) (reason cur) (image_path cur)
         (voted_ips r) (created_at cur) (executed_at cur) (executed cur), w)).
  { intros cur Hcur.
    change (load_field (lit "votes") (write_ips true (elements (voted_ips r))) cur w)
      with (match write_ips true (elements (voted_ips r)) with
            | [] => (cur, w)
            | _ => (mk_request (id cur) (applicant cur) (command cur) (reason cur)
                      (image_path cur)
                      (load_votes (write_ips true (elements (voted_ips r))) (voted_ips cur))
                      (created_at cur) (executed_at cur) (executed cur), w)
            end).
    destruct (elements (voted_ips r)) as [|ip ips] eqn:Hel.
    - apply elements_empty_inv in Hel. apply leibniz_equiv in Hel.
      simpl. rewrite Hel, <- Hcur. by destruct cur.
    - assert (Hne : write_ips true (ip :: ips) <> []).
      { apply Forall_cons in Hips' as [(_ & _ & _ & Hne & _)%plain_ip_spec _].
        cbn [write_ips]. simpl. by destruct ip. }
      destruct (write_ips true (ip :: ips)) as [|x rest] eqn:Hw; [done|].
      rewrite <- Hw, Hcur, load_votes_written by done.
      rewrite <- Hel. by rewrite list_to_set_elements_L. }
  destruct (executed r) eqn:Hexec.
  - field_line load_line_field no_char_spec (lit "executed_at") "e"%char (lit "xecuted_at").
    2:{ unfold plain_time in Het. rewrite !andb_true_iff in Het.
        destruct Het as [[[_ H] _] _]. by apply plain_value_spec in H as [_ H]. }
    assert (Hne : time_to_string (executed_at r) <> []).
    { unfold plain_time in Het. rewrite !andb_true_iff in Het.
      destruct Het as [[[H _] _] _]. apply negb_true_iff in H.
      by destruct (time_to_string (executed_at r)). }
    change (load_field (lit "executed_at") (time_to_string (executed_at r)) _ w)
      with (match time_to_string (executed_at r) with
            | [] => (mk_request (id r) (applicant r) (command r) (reason r) (image_path r) ∅
                       (created_at r) 0 true, w)
            | _ => let '(tp, w1) := string_to_time (time_to_string (executed_at r)) w in
                   (mk_request (id r) (applicant r) (command r) (reason r) (image_path r) ∅
                      (created_at r) tp true, w1)
            end).
    rewrite string_to_time_plain by done.
    destruct (time_to_string (executed_at r)) as [|x rest] eqn:Ht; [done|]. cbn [fst snd].
    field_line load_line_field no_char_spec (lit "votes") "v"%char (lit "otes"); [|by apply write_ips_plain].
    rewrite Hvotes by done. cbn [fst snd]. rewrite load_line_end.
    cbn [id]. rewrite Hid. cbn [negb]. f_equal. f_equal; [|f_equal]; by destruct r; simpl in *; subst.
  - apply Z.eqb_eq in Het.
    field_line load_line_field no_char_spec (lit "executed_at") "e"%char (lit "xecuted_at").
    change (load_field (lit "executed_at") [] _ w)
      with (mk_request (id r) (applicant r) (command r) (reason r) (image_path r) ∅
              (created_at r) 0 false, w).
    cbn [fst snd].
    field_line load_line_field no_char_spec (lit "votes") "v"%char (lit "otes"); [|by apply write_ips_plain].
    rewrite Hvotes by done. cbn [fst snd]. rewrite load_line_end.
    cbn [id]. rewrite Hid. cbn [negb]. f_equal. f_equal; [|f_equal]; by destruct r; simpl in *; subst.
Qed.

Lemma request_lines_no_nl key r :
  file_safe key r = true -> Forall (fun line => nl ∉ line) (request_lines r).
Proof.
  unfold file_safe. rewrite !andb_true_iff.
  intros [[[[[[[[[Hkey Hid] Hpid] Hpa] Hpc] Hpr] Hpi] Hct] Het] Hips].
  apply plain_value_spec in Hpid as [Hpid _], Hpa as [Hpa _], Hpc as [Hpc _],
    Hpr as [Hpr _], Hpi as [Hpi _].
  assert (Htime : forall tp, plain_time tp = true -> nl ∉ time_to_string tp).
  { intros tp H. unfold plain_time in H. rewrite !andb_true_iff in H.
    destruct H as [[[_ H] _] _]. by apply plain_value_spec in H as [H _]. }
  assert (Hips' : Forall (fun ip => plain_ip ip = true) (elements (voted_ips r))).
  { apply Forall_forall. intros ip Hin. rewrite forallb_forall in Hips.
    apply Hips. by apply list_elem_of_In. }
  assert (Hlit : forall s : string, BanFile.no_char nl (lit s) = true -> nl ∉ lit s)
    by (intros s; apply no_char_spec).
  unfold request_lines.
  repeat (apply Forall_cons; split); try apply Forall_nil;
    rewrite ?not_elem_of_app; try split; try (apply Hlit; reflexivity); try done.
  - by apply Htime.
  - destruct (executed r); apply Hlit; reflexivity.
  - destruct (executed r); [by apply Htime | apply not_elem_of_nil].
  - by apply write_ips_plain.
Qed.

Lemma save_data_lines m :
  map_Forall (fun k r => file_safe k r = true) (requests_ m) ->
  exists text,
    save_data true m = Some text /\
    getlines text = concat (map (fun kv => request_lines kv.2) (map_to_list (requests_ m))).
Proof.
  intros Hall. eexists. split; [reflexivity|].
  assert (Hl : Forall (fun kv => file_safe kv.1 kv.2 = true) (map_to_list (requests_ m))).
  { apply Forall_forall. intros [k r] Hin. apply elem_of_map_to_list in Hin. by apply Hall. }
  induction (map_to_list (requests_ m)) as [|[k r] l IH]; [done|].
  apply Forall_cons in Hl as [Hkr Hl]. cbn [map concat fst snd].
  assert (E : forall rest,
    getlines (concat (map (fun line => line ++ [nl]) (request_lines r)) ++ rest)
    = request_lines r ++ getlines rest).
  { intros rest. pose proof (request_lines_no_nl k r Hkr) as Hnl.
    unfold getlines. induction Hnl as [|b bodies Hb _ IHb]; [done|].
    cbn [map concat]. rewrite <- !app_assoc. simpl.
    rewrite getlines_aux_line by done. simpl. by rewrite IHb. }
  rewrite E. f_equal. by apply IH.
Qed.

Lemma load_blocks (entries : list (str * RequestInfo)) : forall current in_request requests w,
  Forall (fun kv => file_safe kv.1 kv.2 = true) entries ->
  exists current1 in_request1,
    foldl load_line (current, in_request, requests, w)
      (concat (map (fun kv => request_lines kv.2) entries))
    = (current1, in_request1, foldl (fun acc kv => <[kv.1 := kv.2]> acc) requests entries, w).
Proof.
  induction entries as [|[k r] entries IH]; intros current in_request requests w Hall.
  - by exists current, in_request.
  - apply Forall_cons in Hall as [Hkr Hall]. cbn [map concat foldl fst snd].
    rewrite foldl_app, (load_block k r) by done. by apply IH.
Qed.

(** X29: the data file gives the requests back. For a manager whose
    requests survive the text format (each is filed under its own id,
    which is not empty; no field holds a newline or ends with white
    space; the creation time, and the execution time of an executed
    request, are written as a text that reads back as the same time, and
    the execution time of any other request is the epoch; no voter
    address is empty or holds a comma, a newline or white space at either
    end), loading the file that [save_data] wrote replaces the requests
    of any manager by the saved ones and does not read the clock. *)
Theorem request_file_round_trip (m m0 : t) (w : World) :
  map_Forall (fun k r => file_safe k r = true) (requests_ m) ->
  load_data (save_data true m) m0 w = (set_requests m0 (requests_ m), w).
Proof.
  intros Hall. destruct (save_data_lines m Hall) as (text & -> & Hlines).
  unfold load_data. rewrite Hlines.
  destruct (load_blocks (map_to_list (requests_ m)) empty_request false ∅ w)
    as (current1 & in_request1 & ->).
  { apply Forall_forall. intros [k r] Hin. apply elem_of_map_to_list in Hin. by apply Hall. }
  f_equal. f_equal. apply map_eq. intros k.
  rewrite foldl_insert_lookup by apply NoDup_fst_map_to_list.
  rewrite list_to_map_to_list, lookup_empty. by destruct (requests_ m !! k).
Qed.

End DataFile.

Section DataFileWitness.
Import Str CommandRequest RequestFile RequestFileSpec.

(** An executed request with two voters, in the UTC time zone. *)
Lemma request_file_round_trip_witness :
  let r := mk_request (lit "18bcfe56f01-10a1") (lit "Bob") (lit "/pardon Bob") (lit "sorry") []
             ({[lit "1.2.3.4"]} ∪ {[lit "10.0.0.7"]}) 1700000000000000000 1700000600000000000
             true in
  let m := mk 5 None {[lit "18bcfe56f01-10a1" := r]} in
  load_data (libc := Chrono.utc) (ios := utc_get_time)
    (save_data (libc := Chrono.utc) true m) (mk 5 None ∅) Samples.world0
  = (m, Samples.world0).
Proof.
  intros r m.
  apply (request_file_round_trip (libc := Chrono.utc) (ios := utc_get_time) m (mk 5 None ∅)
           Samples.world0).
  apply map_Forall_singleton. vm_compute. reflexivity.
Defined.

End DataFileWitness.

(** ** A ban and the restart of the program *)

Section Restart.
Context {libc : Chrono.Libc}.
Import Str PlayerList.

Lemma getlines_aux_app_nl text : forall cur rest,
  getlines_aux cur (text ++ nl :: rest)
  = getlines_aux cur (text ++ [nl]) ++ getlines_aux [] rest.
Proof.
  induction text as [|c text IH]; intros cur rest; simpl; [done|].
  destruct (Ascii.eqb c nl); [|apply IH]. simpl. f_equal. apply IH.
Qed.

Lemma split_before_suffix (c : ascii) (x y l p : str) :
  x ++ c :: y = l ++ p -> c ∉ p -> exists y', y = y' ++ p /\ l = x ++ c :: y'.
Proof.
  revert l. induction x as [|a x IH]; intros l E Hp; simpl in E.
  - destruct l as [|b l]; simpl in E.
    + subst p. exfalso. apply Hp. by left.
    + injection E as <- E. by exists l.
  - destruct l as [|b l]; simpl in E.
    + subst p. exfalso. apply Hp. right. apply elem_of_app. right. by left.
    + injection E as <- E. destruct (IH l E Hp) as (y' & -> & ->). by exists y'.
Qed.

Lemma find_char_count_eq c pos s :
  1 <= count_occ ascii_dec (drop pos s) c ->
  exists k, find_char c pos s = Some k /\
            count_occ ascii_dec (drop pos s) c = 1 + count_occ ascii_dec (drop (k + 1) s) c.
Proof.
  intros Hc. unfold find_char.
  destruct (find_char_from c (drop pos s) pos) as [k|] eqn:E.
  - exists k. split; [done|].
    apply find_char_from_Some in E as (pre & post & E & Hpre & ->).
    replace (pos + length pre + 1) with (pos + (length pre + 1)) by lia.
    rewrite <- drop_drop, E.
    change (pre ++ c :: post) with (pre ++ [c] ++ post). rewrite app_assoc.
    replace (length pre + 1) with (length (pre ++ [c])) by (rewrite length_app; simpl; lia).
    rewrite drop_app_length, !count_occ_app. simpl.
    destruct (ascii_dec c c); [|done].
    assert (count_occ ascii_dec pre c = 0); [|lia].
    apply count_occ_not_In. by rewrite <- list_elem_of_In.
  - apply find_char_from_None in E.
    assert (count_occ ascii_dec (drop pos s) c = 0); [|lia].
    apply count_occ_not_In. by rewrite <- list_elem_of_In.
Qed.

(** A line that begins with a plain name and a separator and holds two
    more separators is read as a record of that name. *)
Lemma parse_banned_line_name (player rest : str) :
  PlayersFile.plain_name player = true -> BanFile.plain_start player = true ->
  ("|"%char ∉ player) -> 2 <= count_occ ascii_dec rest "|"%char ->
  exists info, parse_banned_line (player ++ "|"%char :: rest) = Some info /\
               name info = player.
Proof.
  intros Hplain Hstart Hbar Hcount.
  destruct (plain_name_trim player Hplain) as (_ & _ & c & t & ->).
  unfold BanFile.plain_start in Hstart. apply andb_true_iff in Hstart as [Hws Hhash].
  apply negb_true_iff in Hws, Hhash.
  set (line := (c :: t) ++ "|"%char :: rest).
  assert (Hf : find_first_not_ws line = Some 0).
  { unfold find_first_not_ws, line. simpl. by rewrite Hws. }
  destruct (trim_middle line 0 Hf) as (pre & mid & post & c' & d & Hs & Ht & Hpre & Hpost & _).
  assert (pre = []) as ->.
  { destruct pre as [|x pre]; [done|]. apply Forall_cons in Hpre as [Hx _].
    unfold line in Hs. simpl in Hs. injection Hs as <- _. congruence. }
  simpl in Hs.
  assert (Hpostbar : "|"%char ∉ post).
  { intros Hin. rewrite Forall_forall in Hpost. by apply Hpost in Hin. }
  destruct (split_before_suffix "|" (c :: t) rest mid post Hs Hpostbar) as (rest' & -> & ->).
  unfold parse_banned_line. fold line. rewrite Ht. simpl app. cbv iota. rewrite Hhash.
  assert (Hc2 : 2 <= count_occ ascii_dec rest' "|"%char).
  { rewrite count_occ_app in Hcount.
    assert (count_occ ascii_dec post "|"%char = 0); [|lia].
    apply count_occ_not_In. by rewrite <- list_elem_of_In. }
  pose proof (find_char_after "|" [] (c :: t) rest' Hbar) as H1. simpl in H1.
  change (c :: t ++ "|"%char :: rest') with ((c :: t) ++ "|"%char :: rest').
  simpl. simpl in H1. rewrite H1.
  set (l := c :: t ++ "|"%char :: rest').
  assert (Hd : drop (S (length t) + 1) l = rest').
  { unfold l.
    replace (c :: t ++ "|"%char :: rest') with (((c :: t) ++ ["|"%char]) ++ rest')
      by (by rewrite <- app_assoc).
    replace (S (length t) + 1) with (length ((c :: t) ++ ["|"%char]))
      by (rewrite length_app; simpl; lia).
    apply drop_app_length. }
  destruct (find_char_count_eq "|" (S (length t) + 1) l) as (p2 & Hp2 & Hn2).
  { rewrite Hd. lia. }
  rewrite Hp2.
  destruct (find_char_count_eq "|" (p2 + 1) l) as (p3 & Hp3 & Hn3).
  { rewrite Hd in Hn2. lia. }
  rewrite Hp3. eexists. split; [reflexivity|]. simpl.
  pose proof (substr_middle [] (c :: t) ("|"%char :: rest')) as Hsub. simpl in Hsub.
  exact Hsub.
Qed.

Lemma load_keeps_banned (lines : list str) : forall (acc : gmap str BannedPlayerInfo) k,
  is_Some (acc !! k) ->
  is_Some (foldl (fun acc raw => match parse_banned_line raw with
                                 | Some info => <[name info := info]> acc
                                 | None => acc
                                 end) acc lines !! k).
Proof.
  induction lines as [|raw lines IH]; intros acc k Hk; [done|].
  cbn [foldl]. apply IH. destruct (parse_banned_line raw) as [info|]; [|done].
  destruct (decide (k = name info)) as [->|Hne].
  - rewrite lookup_insert_eq. eauto.
  - by rewrite lookup_insert_ne.
Qed.

Lemma banned_lines_end (entries : list (str * BannedPlayerInfo)) :
  exists text, banned_header ++ [nl] ++ concat (map (fun kv => banned_line kv.2) entries)
               = text ++ [nl].
Proof.
  destruct entries as [|x entries] using rev_ind.
  - by exists banned_header.
  - rewrite map_app, concat_app. cbn [map concat]. rewrite app_nil_r, banned_line_body.
    eexists. rewrite !app_assoc. reflexivity.
Qed.

(** X30: a ban survives a restart. After [ban], a registry constructed
    from the files that [ban] wrote has the player banned, whatever the
    hours and whatever the other records are, provided the name is not
    empty, holds no separator and no newline, neither begins nor ends
    with white space and does not begin with '#', the reason holds no
    newline, and the C library prints times on one line. *)
Theorem ban_survives_restart (player reason : str) (hours : Z) (pl : t) (w : World)
    (rules : list ForbiddenCommand) :
  PlayersFile.plain_name player = true -> BanFile.plain_start player = true ->
  ("|"%char ∉ player) -> (nl ∉ reason) ->
  (forall tp, nl ∉ Chrono.put_time_local tp) ->
  is_banned player (create rules (ban player reason hours pl w).2).1 = true.
Proof.
  intros Hplain Hstart Hbar Hreason Htime.
  unfold ban. destruct (world_now w) as [now w1].
  set (info := mk_banned player reason now _ _).
  set (pl1 := mk _ _ (<[player := info]> (banned_players_ pl)) _).
  unfold world_send. destruct (Program.send_string _ _) as [ok child].
  unfold create, load_files, save_files. cbn [fst snd w_banned_file w_player_file banned_players_].
  unfold is_banned. cbn [banned_players_]. apply bool_decide_eq_true_2.
  unfold load_banned, banned_text. cbn [banned_players_ pl1].
  assert (Hin : (player, info) ∈ map_to_list (<[player := info]> (banned_players_ pl))).
  { apply elem_of_map_to_list, lookup_insert_eq. }
  apply list_elem_of_split in Hin as (e1 & e2 & ->).
  rewrite map_app, concat_app. cbn [map concat snd].
  destruct (banned_lines_end e1) as (text & Htext).
  rewrite !app_assoc. rewrite <- (app_assoc banned_header [nl]), Htext.
  rewrite banned_line_body. rewrite <- !app_assoc. cbn [app].
  unfold getlines. rewrite getlines_aux_app_nl.
  assert (Hnl : nl ∉ BanFile.banned_body info).
  { destruct (plain_name_trim player Hplain) as (_ & Hpnl & _).
    unfold BanFile.banned_body, info. cbn [name PlayerList.reason ban_time unban_time is_permanent].
    assert (Ht : forall tp permanent, nl ∉ time_to_string tp permanent).
    { intros tp permanent. unfold time_to_string. destruct permanent; [|apply Htime].
      apply no_char_spec. reflexivity. }
    rewrite !not_elem_of_app. split_and!; try done; try apply Ht;
      (intros Hx; apply list_elem_of_singleton in Hx; discriminate). }
  rewrite (getlines_aux_line [] (BanFile.banned_body info)) by done. cbn [rev app].
  rewrite foldl_app. cbn [foldl].
  apply load_keeps_banned.
  destruct (parse_banned_line_name player
              (reason ++ lit "|" ++ time_to_string (ban_time info) false ++ lit "|" ++
               time_to_string (unban_time info) (is_permanent info)))
    as (parsed & Hparsed & Hname); try done.
  { rewrite !count_occ_app. simpl. lia. }
  assert (E : BanFile.banned_body info
              = player ++ "|"%char
                  :: (reason ++ lit "|" ++ time_to_string (ban_time info) false ++ lit "|" ++
                      time_to_string (unban_time info) (is_permanent info)))
    by reflexivity.
  rewrite E, Hparsed, Hname, lookup_insert_eq. eauto.
Qed.

End Restart.


Section RestartWitness.
Import Str PlayerList.

Lemma digit_not_nl n : Chrono.digit n <> nl.
Proof.
  unfold Chrono.digit.
  assert (H : forallb (fun i => negb (Ascii.eqb (ascii_of_nat (Z.to_nat (48 + Z.of_nat i))) nl))
                (seq 0 10) = true) by (vm_compute; reflexivity).
  rewrite forallb_forall in H.
  pose proof (Z.mod_pos_bound n 10 ltac:(lia)) as Hn.
  assert (Hin : In (Z.to_nat (n mod 10)) (seq 0 10)) by (apply in_seq; lia).
  apply H in Hin. rewrite Z2Nat.id in Hin by lia.
  apply negb_true_iff in Hin. by apply Ascii.eqb_neq.
Qed.

Lemma utc_put_time_one_line t : nl ∉ Chrono.utc_put_time t.
Proof.
  unfold Chrono.utc_put_time. destruct (Chrono.civil_from_days _) as [[y m] d].
  unfold Chrono.four_digits, Chrono.two_digits.
  rewrite !not_elem_of_app, !not_elem_of_cons.
  pose proof digit_not_nl as H.
  split_and!; try apply not_elem_of_nil; try (intros E; symmetry in E; by apply H in E);
    (intros Hx; apply list_elem_of_singleton in Hx; discriminate).
Qed.

(** A day's ban at the sample time, with a separator in the reason. *)
Lemma ban_survives_restart_witness :
  is_banned (lit "Alice")
    (create (libc := Chrono.utc) []
       (ban (libc := Chrono.utc) (lit "Alice") (lit "used | in chat") 24 Samples.registry
          Samples.world0).2).1 = true.
Proof.
  apply (ban_survives_restart (libc := Chrono.utc)); try reflexivity;
    try (apply no_char_spec; reflexivity).
  apply utc_put_time_one_line.
Defined.

End RestartWitness.
